(** * PyBoy serial link (BGB link-cable protocol): a shallow embedding

    This development embeds [pyboy/core/serial.py] and proves properties of
    the packet codec, of the handshake handlers run by the receiver thread,
    of the address check done by the constructor, and of the cycle-driven
    transfer scheduler [Serial.tick].

    Conventions.
    - Python integers are unbounded: they are [Z], and nothing wraps unless
      the source masks it.
    - A [bytes] object is a [list byte].
    - The instance attributes of [Serial] are the fields of the record
      [Serial.t]; a method is a computation in the monad [Serial.M], which
      threads the object and stops at an exception or at a blocking call.
    - The socket is a record holding whether [close()] was called on it and
      the log of the [bytes] objects handed to [send()]. *)

From Stdlib Require Import ZArith List Lia Bool String Ascii.
From Stdlib.Strings Require Import Byte.
Import ListNotations.
Open Scope Z_scope.

(** ** Module constants (serial.py, lines 14-20) *)

Definition SERIAL_FREQ : Z := 8192.
Definition CPU_FREQ : Z := 4213440.
Definition PACKET_SIZE_BYTES : nat := 8.
Definition BGB_VERSION : Z * Z * Z := (1, 4, 0).

(** ** [struct.pack] and [struct.unpack] at the format ["<4BI"]

    [PACKET_FORMAT = "<4BI"]: little-endian, no padding, four unsigned bytes
    followed by one unsigned 32-bit integer.  [struct.pack] raises
    [struct.error] when an argument is out of the range of its field, and
    [struct.unpack] raises it when the buffer is not exactly 8 bytes long;
    both are modelled by [None]. *)

Module Struct.

(** The byte whose value is [x mod 256]. *)
Definition low_byte (x : Z) : byte :=
  match Byte.of_N (Z.to_N (x mod 256)) with
  | Some b => b
  | None => x00
  end.

Definition byte_val (b : byte) : Z := Z.of_N (Byte.to_N b).

Arguments low_byte : simpl never.
Arguments byte_val : simpl never.

Definition is_u8 (x : Z) : bool := (0 <=? x) && (x <=? 255).
Definition is_u32 (x : Z) : bool := (0 <=? x) && (x <=? 4294967295).

(** The four bytes of an unsigned 32-bit integer, least significant first. *)
Definition le_u32 (x : Z) : list byte :=
  [low_byte x; low_byte (Z.shiftr x 8); low_byte (Z.shiftr x 16);
   low_byte (Z.shiftr x 24)].

Definition pack (b1 b2 b3 b4 i : Z) : option (list byte) :=
  if is_u8 b1 && is_u8 b2 && is_u8 b3 && is_u8 b4 && is_u32 i
  then Some ([low_byte b1; low_byte b2; low_byte b3; low_byte b4] ++ le_u32 i)
  else None.

(** The unsigned 32-bit integer whose bytes, least significant first, are
    [t0], [t1], [t2], [t3]. *)
Definition u32_of_le (t0 t1 t2 t3 : byte) : Z :=
  byte_val t0 + Z.shiftl (byte_val t1) 8
  + Z.shiftl (byte_val t2) 16 + Z.shiftl (byte_val t3) 24.

Definition unpack (data : list byte) : option (Z * Z * Z * Z * Z) :=
  match data with
  | [c1; c2; c3; c4; t0; t1; t2; t3] =>
      Some (byte_val c1, byte_val c2, byte_val c3, byte_val c4,
            u32_of_le t0 t1 t2 t3)
  | _ => None
  end.

Arguments u32_of_le : simpl never.

End Struct.

(** ** The two [str] methods the constructor uses, at a one-character argument *)

Module Str.

(** [s.count(c)]: the number of occurrences of the character [c]. *)
Fixpoint count (c : ascii) (s : string) : Z :=
  match s with
  | EmptyString => 0
  | String a rest => (if Ascii.eqb a c then 1 else 0) + count c rest
  end.

(** [s.split(sep)]: the pieces of [s] between the occurrences of [sep];
    the empty string splits into one empty piece. *)
Fixpoint split (sep : ascii) (s : string) : list string :=
  match s with
  | EmptyString => [EmptyString]
  | String a rest =>
      if Ascii.eqb a sep then EmptyString :: split sep rest
      else match split sep rest with
           | piece :: pieces => String a piece :: pieces
           | [] => [String a EmptyString]
           end
  end.

End Str.

(** ** The [Serial] class *)

Module Serial.

(** The exceptions that the modelled code can raise or meet. *)
Inductive exn : Type :=
| ValueError            (* unpacking [split(":")] into two names *)
| StructError           (* [struct.error] from [pack] or [unpack] *)
| OSError               (* [send] or [recv] on a socket closed locally *)
| AttributeError        (* a method called on [self.connection = None] *)
| BlockingIOError
| ConnectionResetError
| BGBVersionMismatch.   (* [Exception("BGB version mismatch!")] *)

(** A TCP socket, seen from this side: whether [close()] was called, and
    the [bytes] objects passed to [send()], oldest first.  A [send] on an
    open socket is taken to succeed. *)
Record socket : Type := {
  closed : bool;
  sent : list (list byte)
}.

Definition fresh_socket : socket := {| closed := false; sent := [] |}.

(** The instance attributes (lines 28-60 and 73).  [recv] is the
    [queue.Queue] filled by the receiver thread, oldest item first.  The
    attributes [mb], [_handlers] and [_start_time] are left out:
    [_handlers] is the function [_handlers] below, the others are not read
    by the methods.  The attributes [binding_connection] and [recv_t],
    which only the constructor and [stop] touch, are in [device] below. *)
Record t : Type := {
  SC : Z;
  SB : Z;
  connection : option socket;
  trans_bits : Z;
  cycles_count : Z;
  cycles_target : Z;
  _timestamp : Z;
  _ts_cycles : Z;
  _got_version : bool;
  _last_received_timestamp : Z;
  recv : list (Z * Z);
  quitting : bool;
  is_master : bool
}.

(** *** Attribute assignment *)

Definition set_SC (v : Z) (s : t) : t :=
  {| SC := v; SB := SB s; connection := connection s;
     trans_bits := trans_bits s; cycles_count := cycles_count s;
     cycles_target := cycles_target s; _timestamp := _timestamp s;
     _ts_cycles := _ts_cycles s; _got_version := _got_version s;
     _last_received_timestamp := _last_received_timestamp s;
     recv := recv s; quitting := quitting s; is_master := is_master s |}.

Definition set_SB (v : Z) (s : t) : t :=
  {| SC := SC s; SB := v; connection := connection s;
     trans_bits := trans_bits s; cycles_count := cycles_count s;
     cycles_target := cycles_target s; _timestamp := _timestamp s;
     _ts_cycles := _ts_cycles s; _got_version := _got_version s;
     _last_received_timestamp := _last_received_timestamp s;
     recv := recv s; quitting := quitting s; is_master := is_master s |}.

Definition set_connection (v : option socket) (s : t) : t :=
  {| SC := SC s; SB := SB s; connection := v; trans_bits := trans_bits s;
     cycles_count := cycles_count s; cycles_target := cycles_target s;
     _timestamp := _timestamp s; _ts_cycles := _ts_cycles s;
     _got_version := _got_version s;
     _last_received_timestamp := _last_received_timestamp s;
     recv := recv s; quitting := quitting s; is_master := is_master s |}.

Definition set_trans_bits (v : Z) (s : t) : t :=
  {| SC := SC s; SB := SB s; connection := connection s; trans_bits := v;
     cycles_count := cycles_count s; cycles_target := cycles_target s;
     _timestamp := _timestamp s; _ts_cycles := _ts_cycles s;
     _got_version := _got_version s;
     _last_received_timestamp := _last_received_timestamp s;
     recv := recv s; quitting := quitting s; is_master := is_master s |}.

Definition set_cycles_count (v : Z) (s : t) : t :=
  {| SC := SC s; SB := SB s; connection := connection s;
     trans_bits := trans_bits s; cycles_count := v;
     cycles_target := cycles_target s; _timestamp := _timestamp s;
     _ts_cycles := _ts_cycles s; _got_version := _got_version s;
     _last_received_timestamp := _last_received_timestamp s;
     recv := recv s; quitting := quitting s; is_master := is_master s |}.

Definition set_timestamp (v : Z) (s : t) : t :=
  {| SC := SC s; SB := SB s; connection := connection s;
     trans_bits := trans_bits s; cycles_count := cycles_count s;
     cycles_target := cycles_target s; _timestamp := v;
     _ts_cycles := _ts_cycles s; _got_version := _got_version s;
     _last_received_timestamp := _last_received_timestamp s;
     recv := recv s; quitting := quitting s; is_master := is_master s |}.

Definition set_ts_cycles (v : Z) (s : t) : t :=
  {| SC := SC s; SB := SB s; connection := connection s;
     trans_bits := trans_bits s; cycles_count := cycles_count s;
     cycles_target := cycles_target s; _timestamp := _timestamp s;
     _ts_cycles := v; _got_version := _got_version s;
     _last_received_timestamp := _last_received_timestamp s;
     recv := recv s; quitting := quitting s; is_master := is_master s |}.

Definition set_got_version (v : bool) (s : t) : t :=
  {| SC := SC s; SB := SB s; connection := connection s;
     trans_bits := trans_bits s; cycles_count := cycles_count s;
     cycles_target := cycles_target s; _timestamp := _timestamp s;
     _ts_cycles := _ts_cycles s; _got_version := v;
     _last_received_timestamp := _last_received_timestamp s;
     recv := recv s; quitting := quitting s; is_master := is_master s |}.

Definition set_last_received_timestamp (v : Z) (s : t) : t :=
  {| SC := SC s; SB := SB s; connection := connection s;
     trans_bits := trans_bits s; cycles_count := cycles_count s;
     cycles_target := cycles_target s; _timestamp := _timestamp s;
     _ts_cycles := _ts_cycles s; _got_version := _got_version s;
     _last_received_timestamp := v; recv := recv s; quitting := quitting s;
     is_master := is_master s |}.

Definition set_recv (v : list (Z * Z)) (s : t) : t :=
  {| SC := SC s; SB := SB s; connection := connection s;
     trans_bits := trans_bits s; cycles_count := cycles_count s;
     cycles_target := cycles_target s; _timestamp := _timestamp s;
     _ts_cycles := _ts_cycles s; _got_version := _got_version s;
     _last_received_timestamp := _last_received_timestamp s; recv := v;
     quitting := quitting s; is_master := is_master s |}.

Definition set_quitting (v : bool) (s : t) : t :=
  {| SC := SC s; SB := SB s; connection := connection s;
     trans_bits := trans_bits s; cycles_count := cycles_count s;
     cycles_target := cycles_target s; _timestamp := _timestamp s;
     _ts_cycles := _ts_cycles s; _got_version := _got_version s;
     _last_received_timestamp := _last_received_timestamp s;
     recv := recv s; quitting := v; is_master := is_master s |}.

(** *** Computations on the object

    A method body is a function from the object to the object it leaves
    and how it ended: with a value, with an exception, or waiting in a
    blocking call ([queue.Queue.get] on an empty queue, [socket.recv] with
    nothing to read).  The object is kept in all three cases, since the
    assignments made before an exception or a block remain. *)

Inductive res (A : Type) : Type :=
| Ok (a : A)
| Raise (e : exn)
| Blocked.

Arguments Ok {A} a.
Arguments Raise {A} e.
Arguments Blocked {A}.

Definition M (A : Type) : Type := t -> t * res A.

Definition ret {A} (a : A) : M A := fun s => (s, Ok a).

Definition bind {A B} (m : M A) (k : A -> M B) : M B :=
  fun s =>
    match m s with
    | (s', Ok a) => k a s'
    | (s', Raise e) => (s', Raise e)
    | (s', Blocked) => (s', Blocked)
    end.

Definition raise {A} (e : exn) : M A := fun s => (s, Raise e).
Definition block {A} : M A := fun s => (s, Blocked).
Definition gets {A} (f : t -> A) : M A := fun s => (s, Ok (f s)).
Definition modify (f : t -> t) : M unit := fun s => (f s, Ok tt).

(** [try: body except ...: handler]: [handler e] is [None] for an
    exception that no [except] clause matches. *)
Definition try_except {A} (body : M A) (handler : exn -> option (M A)) : M A :=
  fun s =>
    match body s with
    | (s', Raise e) =>
        match handler e with
        | Some h => h s'
        | None => (s', Raise e)
        end
    | r => r
    end.

Declare Scope serial_scope.
Delimit Scope serial_scope with serial.
Bind Scope serial_scope with M.

Notation "x <- m ;; k" := (bind m (fun x => k))
  (at level 61, m at next level, right associativity) : serial_scope.
Notation "m ;; k" := (bind m (fun _ => k))
  (at level 61, right associativity) : serial_scope.

Local Open Scope serial_scope.

(** Python truth value of an [int] and of a [bytes] object. *)
Definition truthy (x : Z) : bool := negb (x =? 0).
Definition truthy_bytes (b : list byte) : bool :=
  match b with [] => false | _ :: _ => true end.

(** [struct.pack(PACKET_FORMAT, b1, b2, b3, b4, timestamp)]. *)
Definition struct_pack (b1 b2 b3 b4 timestamp : Z) : M (list byte) :=
  match Struct.pack b1 b2 b3 b4 timestamp with
  | Some bs => ret bs
  | None => raise StructError
  end.

(** [self.connection.send(arg)]: the attribute is looked up first, then
    the argument is evaluated, then the call is made. *)
Definition connection_send (arg : M (list byte)) : M unit :=
  c <- gets connection ;;
  match c with
  | None => raise AttributeError
  | Some _ =>
      data <- arg ;;
      c' <- gets connection ;;
      match c' with
      | None => raise AttributeError
      | Some sk =>
          if closed sk then raise OSError
          else modify (set_connection
                         (Some {| closed := false; sent := sent sk ++ [data] |}))
      end
  end.

(** [self.connection.close()]. *)
Definition connection_close : M unit :=
  c <- gets connection ;;
  match c with
  | None => raise AttributeError
  | Some sk => modify (set_connection (Some {| closed := true; sent := sent sk |}))
  end.

(** [self.recv.put(item)] and [self.recv.get()]. *)
Definition recv_put (item : Z * Z) : M unit :=
  modify (fun s => set_recv (recv s ++ [item]) s).

Definition recv_get : M (Z * Z) :=
  q <- gets recv ;;
  match q with
  | [] => block
  | item :: rest => modify (set_recv rest) ;; ret item
  end.

(** *** The protocol handlers (lines 125-222) *)

(** [_get_status_packet] (lines 213-222). *)
Definition _get_status_packet : M (list byte) :=
  ts <- gets _timestamp ;;
  struct_pack 108 1 0 0 ts.

(** [_handle_version] (lines 125-133). *)
Definition _handle_version (major minor patch timestamp : Z)
  : M (option (list byte)) :=
  let '(v_major, v_minor, v_patch) := BGB_VERSION in
  if negb ((major =? v_major) && (minor =? v_minor) && (patch =? v_patch))
  then raise BGBVersionMismatch
  else
    got <- gets _got_version ;;
    if negb got then
      modify (set_got_version true) ;;
      p <- _get_status_packet ;;
      ret (Some p)
    else ret None.

(** [_handle_joypad_update] (lines 135-137). *)
Definition _handle_joypad_update (b2 b3 b4 timestamp : Z)
  : M (option (list byte)) :=
  ret None.

(** [_client_data_handler] (lines 139-150): always returns an [int]. *)
Definition _client_data_handler (data timestamp : Z) : M (option Z) :=
  sb <- gets SB ;;
  let send_bit := Z.land (Z.shiftr sb 7) 1 in
  recv_put (data, timestamp) ;;
  ret (Some send_bit).

(** [_handle_sync1] (lines 152-165). *)
Definition _handle_sync1 (data _control _b4 timestamp : Z)
  : M (option (list byte)) :=
  response <- _client_data_handler data timestamp ;;
  match response with
  | Some r =>
      m <- gets is_master ;;
      sc <- gets SC ;;
      ts <- gets _timestamp ;;
      p <- struct_pack (if m then 104 else 105) r sc 0 ts ;;
      ret (Some p)
  | None => ret None
  end.

(** [_handle_sync2] (lines 167-181). *)
Definition _handle_sync2 (data _control _b4 timestamp : Z)
  : M (option (list byte)) :=
  response <- _client_data_handler data timestamp ;;
  match response with
  | Some r =>
      m <- gets is_master ;;
      sc <- gets SC ;;
      ts <- gets _timestamp ;;
      p <- struct_pack (if m then 104 else 105) r sc 0 ts ;;
      ret (Some p)
  | None => ret None
  end.

(** [_handle_sync3] (lines 183-193). *)
Definition _handle_sync3 (b2 b3 b4 timestamp : Z) : M (option (list byte)) :=
  ts <- gets _timestamp ;;
  p <- struct_pack 106 b2 b3 b4 ts ;;
  ret (Some p).

(** [_handle_status] (lines 195-205). *)
Definition _handle_status (b2 b3 b4 timestamp : Z) : M (option (list byte)) :=
  p <- _get_status_packet ;;
  ret (Some p).

(** [_handle_want_disconnect] (lines 207-211). *)
Definition _handle_want_disconnect (b2 b3 b4 timestamp : Z)
  : M (option (list byte)) :=
  connection_close ;;
  ret None.

(** The dictionary [self._handlers] (lines 37-45). *)
Definition _handlers (kind : Z)
  : option (Z -> Z -> Z -> Z -> M (option (list byte))) :=
  if kind =? 1 then Some _handle_version
  else if kind =? 101 then Some _handle_joypad_update
  else if kind =? 104 then Some _handle_sync1
  else if kind =? 105 then Some _handle_sync2
  else if kind =? 106 then Some _handle_sync3
  else if kind =? 108 then Some _handle_status
  else if kind =? 109 then Some _handle_want_disconnect
  else None.

(** *** The receiver thread (lines 96-123) *)

(** What [self.connection.recv(PACKET_SIZE_BYTES)] meets on an open
    socket: some bytes (none when the peer has closed), or one of the two
    exceptions the loop catches. *)
Inductive read_result : Type :=
| ReadData (data : list byte)
| ReadBlockingIOError
| ReadConnectionReset.

Definition connection_recv (r : read_result) : M (list byte) :=
  c <- gets connection ;;
  match c with
  | None => raise AttributeError
  | Some sk =>
      if closed sk then raise OSError
      else match r with
           | ReadData data => ret data
           | ReadBlockingIOError => raise BlockingIOError
           | ReadConnectionReset => raise ConnectionResetError
           end
  end.

Inductive loop_ctl : Type := Continue | Break.

(** One pass through the body of the [while] loop (lines 106-123); the
    calls of [print] and of the logger are left out. *)
Definition recv_iteration (r : read_result) : M loop_ctl :=
  try_except
    (data <- connection_recv r ;;
     if negb (truthy_bytes data) then ret Break
     else
       match Struct.unpack data with
       | None => raise StructError
       | Some (b1, b2, b3, b4, timestamp) =>
           modify (set_last_received_timestamp timestamp) ;;
           match _handlers b1 with
           | Some handler =>
               response <- handler b2 b3 b4 timestamp ;;
               match response with
               | Some resp =>
                   if truthy_bytes resp
                   then connection_send (ret resp) ;; ret Continue
                   else ret Continue
               | None => ret Continue
               end
           | None => ret Continue
           end
       end)
    (fun e =>
       match e with
       | BlockingIOError => Some (ret Continue)
       | ConnectionResetError => Some (ret Break)
       | _ => None
       end).

(** The [while not self.quitting] loop, fed with what the successive
    reads meet; when the list is exhausted the thread waits in [recv]. *)
Fixpoint recv_loop (reads : list read_result) : M unit :=
  q <- gets quitting ;;
  if q then ret tt
  else
    match reads with
    | [] => block
    | r :: rest =>
        c <- recv_iteration r ;;
        match c with
        | Continue => recv_loop rest
        | Break => ret tt
        end
    end.

(** [recv_thread]: an exception that leaves it ends the thread (the
    result [Raise]); the main thread is not affected. *)
Definition recv_thread (reads : list read_result) : M unit :=
  let '(v_major, v_minor, v_patch) := BGB_VERSION in
  connection_send (struct_pack 1 v_major v_minor v_patch 0) ;;
  recv_loop reads.

(** *** The transfer scheduler (lines 224-281) *)

(** [send_bit] (lines 224-234). *)
Definition send_bit : M unit :=
  connection_send
    (m <- gets is_master ;;
     sb <- gets SB ;;
     sc <- gets SC ;;
     ts <- gets _timestamp ;;
     struct_pack (if m then 104 else 105) (Z.land (Z.shiftr sb 7) 1) sc 0 ts).

(** [cycles_to_transmit] (lines 278-281); a socket object is true. *)
Definition cycles_to_transmit (s : t) : Z :=
  match connection s with
  | Some _ =>
      if truthy (Z.land (SC s) 0x80)
      then Z.max (cycles_target s - cycles_count s) 0
      else Z.shiftl 1 16
  | None => Z.shiftl 1 16
  end.

(** Lines 250-253: the timestamp clock. *)
Definition advance_timestamp (cycles : Z) : M unit :=
  modify (fun s => set_ts_cycles (_ts_cycles s + cycles) s) ;;
  c <- gets _ts_cycles ;;
  if Z.shiftl 1 21 <=? c then
    modify (fun s => set_ts_cycles (_ts_cycles s - Z.shiftl 1 21) s) ;;
    modify (fun s => set_timestamp (_timestamp s + 1) s)
  else ret tt.

(** Lines 266-276: what [tick] does with the item taken from the queue. *)
Definition shift_in (item : Z * Z) : M bool :=
  let '(byte, timestamp) := item in
  modify (fun s => set_SB (Z.lor (Z.land (Z.shiftl (SB s) 1) 0xFF) byte) s) ;;
  modify (fun s => set_trans_bits (trans_bits s + 1) s) ;;
  modify (set_cycles_count 0) ;;
  n <- gets trans_bits ;;
  if n =? 8 then
    modify (set_trans_bits 0) ;;
    modify (fun s => set_SC (Z.land (SC s) 0x7F) s) ;;
    ret true
  else ret false.

(** Lines 265-276: [self.recv.get()] and what follows it.  A [tick] that
    waits in [get] goes on from here once the queue has an item. *)
Definition tick_resume : M bool :=
  item <- recv_get ;;
  shift_in item.

(** [tick] (lines 236-276).  The [print] of line 255 writes to the
    standard output and changes nothing in the object. *)
Definition tick (cycles : Z) : M bool :=
  c <- gets connection ;;
  match c with
  | None =>
      modify (set_SB 0xFF) ;;
      ret false
  | Some _ =>
      modify (fun s => set_cycles_count (cycles_count s + cycles) s) ;;
      advance_timestamp cycles ;;
      ctt <- gets cycles_to_transmit ;;
      if ctt =? 0 then
        ts <- gets _timestamp ;;
        last <- gets _last_received_timestamp ;;
        if last <? ts then ret false
        else
          sc <- gets SC ;;
          (if truthy (Z.land (Z.shiftr sc 7) 1) then send_bit else ret tt) ;;
          tick_resume
      else ret false
  end.

(** *** The constructor (lines 27-94) *)

(** The attributes as lines 29-60 set them, with the connection and the
    role that the rest of the constructor assigns. *)
Definition initial (conn : option socket) (master : bool) : t :=
  {| SC := 0; SB := 0; connection := conn;
     trans_bits := 0; cycles_count := 0;
     cycles_target := CPU_FREQ / SERIAL_FREQ;
     _timestamp := 0; _ts_cycles := 0; _got_version := false;
     _last_received_timestamp := 0; recv := []; quitting := false;
     is_master := master |}.

(** How the constructor ends, as far as the address decides it:
    - [Disabled s]: it returned at line 64 or 68, leaving the object [s]
      with no connection ([is_master] is not assigned on this path and is
      never read, since no receiver thread is started);
    - [InitRaise e]: the exception [e] reached the caller;
    - [Connecting ip port]: line 70 assigned [address_ip] and
      [address_port], and control went on to [int(address_port)] and to
      the socket calls of lines 71-94. *)
Inductive init_outcome : Type :=
| Disabled (s : t)
| InitRaise (e : exn)
| Connecting (address_ip address_port : string).

(** Lines 62-70.  [not A == 3 and B == 1] parses as
    [(not (A == 3)) and (B == 1)]. *)
Definition __init__ (serial_address : option string) : init_outcome :=
  match serial_address with
  | None => Disabled (initial None false)
  | Some a =>
      if String.eqb a "" then Disabled (initial None false)
      else if negb (Str.count "." a =? 3) && (Str.count ":" a =? 1)
      then Disabled (initial None false)
      else match Str.split ":" a with
           | [address_ip; address_port] => Connecting address_ip address_port
           | _ => InitRaise ValueError
           end
  end.

(** The object once lines 71-94 have established the connection:
    [is_master] is [True] on the binding side and [False] on the
    connecting side. *)
Definition connected (serial_bind : bool) : t :=
  initial (Some fresh_socket) serial_bind.

(** The address check in the words of the specification: exactly three
    dots, and exactly one colon. *)
Definition well_formed_address (a : string) : Prop :=
  Str.count "." a = 3 /\ Str.count ":" a = 1.

(** *** Shutdown (lines 283-291) *)

(** An attribute that the constructor assigns on some paths only: until it
    is assigned the object does not have it ([hasattr] is false, reading
    it raises [AttributeError]). *)
Inductive attribute (A : Type) : Type :=
| Unassigned
| Assigned (a : A).

Arguments Unassigned {A}.
Arguments Assigned {A} a.

(** The receiver thread that [recv_t] names, as [join] sees it: still
    running (in its loop, or waiting in [recv]), or ended. *)
Inductive thread : Type := Running | Ended.

(** The whole object: the attributes of [t], the listening socket
    [binding_connection] (line 76; [None] after line 290) and the thread
    [recv_t] (line 92). *)
Record device : Type := {
  object : t;
  binding_connection : attribute (option socket);
  recv_t : attribute thread
}.

(** The object as the constructor leaves it when it returns at line 64 or
    68: neither [binding_connection] nor [recv_t] has been assigned. *)
Definition disabled_device : device :=
  {| object := initial None false;
     binding_connection := Unassigned;
     recv_t := Unassigned |}.

(** The object as lines 71-94 leave it: the listening socket exists on the
    binding side only, and the receiver thread has been started. *)
Definition connected_device (serial_bind : bool) : device :=
  {| object := connected serial_bind;
     binding_connection :=
       if serial_bind then Assigned (Some fresh_socket) else Unassigned;
     recv_t := Assigned Running |}.

(** Lines 284-286; a socket object is true, and [close()] on a socket that
    is already closed does nothing. *)
Definition close_connection : M unit :=
  modify (set_quitting true) ;;
  c <- gets connection ;;
  match c with
  | Some _ => connection_close
  | None => ret tt
  end.

(** [stop] (lines 283-291).  [self.binding_connection.close()] on [None]
    raises [AttributeError]; [join()] returns once the thread has ended and
    waits while it runs. *)
Definition stop (d : device) : device * res unit :=
  match close_connection (object d) with
  | (s1, Ok _) =>
      match binding_connection d with
      | Assigned None =>
          ({| object := s1; binding_connection := Assigned None;
              recv_t := recv_t d |}, Raise AttributeError)
      | _ =>
          (* the listening socket, if any, is closed (line 288) and
             dropped (line 290) *)
          let d' := {| object := set_connection None s1;
                       binding_connection := Assigned None;
                       recv_t := recv_t d |} in
          match recv_t d with
          | Unassigned => (d', Raise AttributeError)
          | Assigned Running => (d', Blocked)
          | Assigned Ended => (d', Ok tt)
          end
      end
  | (s1, r) =>
      ({| object := s1; binding_connection := binding_connection d;
          recv_t := recv_t d |}, r)
  end.

(** *** Transitions of the object

    What can happen to a [Serial] object between two observations: a
    call of [tick] by the CPU loop, the continuation of a [tick] that
    waited on the queue, one pass of the receiver loop, the receiver's
    opening send, [stop] (however it ends; [binding_connection] is [None]
    only once an earlier [stop] has dropped the connection), and the stores
    to the registers [SB] and [SC] that the memory bus performs (code
    outside this file; the bus writes bytes).  Each transition is taken as a whole: the two threads are not
    interleaved inside a call. *)
Inductive step : t -> t -> Prop :=
| step_tick (cycles : Z) (s : t) :
    0 <= cycles -> step s (fst (tick cycles s))
| step_tick_resume (s : t) :
    step s (fst (tick_resume s))
| step_recv_iteration (r : read_result) (s : t) :
    step s (fst (recv_iteration r s))
| step_recv_thread_start (s : t) :
    step s (fst (recv_thread [] s))
| step_stop (d : device) :
    (binding_connection d = Assigned None -> connection (object d) = None) ->
    step (object d) (object (fst (stop d)))
| step_write_SB (v : Z) (s : t) :
    0 <= v <= 255 -> step s (set_SB v s)
| step_write_SC (v : Z) (s : t) :
    0 <= v <= 255 -> step s (set_SC v s).

(** The objects a program can reach from a freshly constructed one. *)
Inductive reachable : t -> Prop :=
| reachable_disabled : reachable (initial None false)
| reachable_connected (serial_bind : bool) : reachable (connected serial_bind)
| reachable_step (s s' : t) : reachable s -> step s s' -> reachable s'.

(** The object as [tick(cycles)] has it when it tests the threshold at
    line 257: lines 242-253 have run. *)
Definition clocked (cycles : Z) (s : t) : t :=
  fst ((modify (fun s => set_cycles_count (cycles_count s + cycles) s) ;;
        advance_timestamp cycles) s).

(** What the receiver thread and [stop] leave alone: the registers, the
    counters of the scheduler, the clock and the role. *)
Definition same_registers (s s' : t) : Prop :=
  SC s' = SC s /\ SB s' = SB s /\ trans_bits s' = trans_bits s /\
  cycles_count s' = cycles_count s /\ cycles_target s' = cycles_target s /\
  _timestamp s' = _timestamp s /\ _ts_cycles s' = _ts_cycles s /\
  is_master s' = is_master s.

(** What a bit transfer does to the object [s], given the item taken from
    the queue: the fields after lines 266-276. *)
Definition transferred (byte : Z) (s s' : t) : Prop :=
  SB s' = Z.lor (Z.land (Z.shiftl (SB s) 1) 0xFF) byte /\
  cycles_count s' = 0 /\
  trans_bits s' = (if trans_bits s + 1 =? 8 then 0 else trans_bits s + 1) /\
  SC s' = (if trans_bits s + 1 =? 8 then Z.land (SC s) 0x7F else SC s).

(** A read that delivers a Version packet of the implemented version. *)
Definition version_read (r : read_result) : Prop :=
  exists data ts, r = ReadData data /\ Struct.unpack data = Some (1, 1, 4, 0, ts).

(** The handshake flag, once set, is still set. *)
Definition acknowledged_kept (s s' : t) : Prop :=
  _got_version s = true -> _got_version s' = true.

(** However the computation [m] ends, the object it leaves is related by
    [R] to the one it found. *)
Definition preserves (R : t -> t -> Prop) {A} (m : M A) : Prop :=
  forall s, R s (fst (m s)).

(** [n] successive calls [tick(cycles)], each running to its end. *)
Definition ticks (cycles : Z) (n : N) (s : t) : t :=
  N.iter n (fun s => fst (tick cycles s)) s.

(** *** Further observations used in the statements *)

(** A field of the object has the value it had. *)
Definition keeps {A} (f : t -> A) (s s' : t) : Prop := f s' = f s.

(** A device that has a connection still has one. *)
Definition connection_kept (s s' : t) : Prop :=
  connection s <> None -> connection s' <> None.

(** A read that delivers a Status packet. *)
Definition status_read (r : read_result) : Prop :=
  exists data b2 b3 b4 ts,
    r = ReadData data /\ Struct.unpack data = Some (108, b2, b3, b4, ts).

(** The calls [tick(c)] for the successive [c] of a list, each running to
    its end. *)
Definition run_ticks (cycles : list Z) (s : t) : t :=
  fold_left (fun s c => fst (tick c s)) cycles s.

(** [n] successive continuations of a [tick] after [self.recv.get()], with
    the results they return, oldest first. *)
Fixpoint resumes (n : nat) (s : t) : t * list (res bool) :=
  match n with
  | O => (s, [])
  | S n' =>
      let '(s1, r) := tick_resume s in
      let '(s2, rs) := resumes n' s1 in
      (s2, r :: rs)
  end.

(** The byte whose bits, most significant first, are the given ones. *)
Definition byte_of_bits (bits : list Z) : Z :=
  fold_left (fun acc b => 2 * acc + b) bits 0.

(** The results of [n] continuations that start with [tb] bits gathered. *)
Fixpoint flags (tb : Z) (n : nat) : list (res bool) :=
  match n with
  | O => []
  | S n' => Ok (tb + 1 =? 8) :: flags (tb + 1) n'
  end.

(** An item of the queue as the receiver loop makes it: a byte and a
    32-bit timestamp. *)
Definition item_ok (it : Z * Z) : Prop :=
  0 <= fst it <= 255 /\ 0 <= snd it <= 4294967295.

(** The ranges in which a running device keeps its attributes. *)
Definition well_formed (s : t) : Prop :=
  cycles_target s = 514 /\ 0 <= cycles_count s /\
  0 <= SB s <= 255 /\ 0 <= SC s <= 255 /\
  0 <= _timestamp s /\ 0 <= _ts_cycles s /\
  0 <= _last_received_timestamp s <= 4294967295 /\
  Forall item_ok (recv s).

(** What the receiver thread adds to the queue and to the last received
    timestamp is in range. *)
Definition inputs_kept (s s' : t) : Prop :=
  (0 <= _last_received_timestamp s <= 4294967295 ->
   0 <= _last_received_timestamp s' <= 4294967295) /\
  (Forall item_ok (recv s) -> Forall item_ok (recv s')).

(** [sep.join(pieces)] for a one-character separator. *)
Fixpoint join (sep : ascii) (pieces : list string) : string :=
  match pieces with
  | [] => EmptyString
  | [p] => p
  | p :: rest => (p ++ String sep (join sep rest))%string
  end.

End Serial.


(** ** The cartridge: [BaseMBC] and [ROMOnly] (base_mbc.py)

    [rambanks] is the two-dimensional [memoryview] of unsigned bytes that
    [init_rambanks] creates (line 106); [rombanks], which the caller
    supplies, is taken to be one too.  The classes [RTC] and [IntIOWrapper]
    are outside this file: where a method hands over to the real-time
    clock, the model says so in its result; a file object is seen through
    the values its [read()] returns and the values passed to its
    [write()]. *)

Module MBC.

Inductive exn : Type :=
| IndexError       (* an index outside the shape of a [memoryview] *)
| ValueError       (* a value that is not a byte stored in a [memoryview] *)
| CannotSetItem    (* [Exception("Cannot set item in MBC")] *)
| AttributeError.  (* an attribute the object does not have *)

Inductive result (A : Type) : Type :=
| Ok (a : A)
| Raise (e : exn).

Arguments Ok {A} a.
Arguments Raise {A} e.

(** *** A two-dimensional [memoryview] of format ["B"] *)

Record memview : Type := {
  rows : Z;
  cols : Z;
  cell : Z -> Z -> Z
}.

(** An index along a dimension of [n] items: a negative index counts from
    the end; [None] is [IndexError]. *)
Definition index (n i : Z) : option Z :=
  let i' := if i <? 0 then i + n else i in
  if (0 <=? i') && (i' <? n) then Some i' else None.

(** [m[i, j]]. *)
Definition mv_get (m : memview) (i j : Z) : result Z :=
  match index (rows m) i with
  | None => Raise IndexError
  | Some i' =>
      match index (cols m) j with
      | None => Raise IndexError
      | Some j' => Ok (cell m i' j')
      end
  end.

(** [m[i, j] = v]: the index is resolved first, then the value is packed. *)
Definition mv_set (m : memview) (i j v : Z) : result memview :=
  match index (rows m) i with
  | None => Raise IndexError
  | Some i' =>
      match index (cols m) j with
      | None => Raise IndexError
      | Some j' =>
          if (0 <=? v) && (v <=? 255)
          then Ok {| rows := rows m; cols := cols m;
                     cell := fun a b =>
                               if (a =? i') && (b =? j') then v else cell m a b |}
          else Raise ValueError
      end
  end.

(** A [memoryview] holds bytes. *)
Definition mv_bytes (m : memview) : Prop :=
  forall a b, 0 <= cell m a b <= 255.

(** *** The object *)

(** The attributes set by [__init__] (lines 19-47), [filename] and [rtc]
    apart.  A Python [bool] is the [int] 0 or 1; [rambank_enabled], which
    [load_state] reads from a file, is kept as that [int].
    [destinationcode] is [None] for the value [None]. *)
Record t : Type := {
  rombanks : memview;
  carttype : Z;
  battery : bool;
  rtc_enabled : bool;
  rambank_initialized : bool;
  external_rom_count : Z;
  external_ram_count : Z;
  rambanks : memview;
  gamename : string;
  gametype : string;
  destinationcode : option Z;
  isgenuine : bool;
  memorymodel : Z;
  rambank_enabled : Z;
  rambank_selected : Z;
  rombank_selected : Z;
  rombank_selected_low : Z;
  cgb : bool
}.

Definition set_rombanks (v : memview) (s : t) : t :=
  {| rombanks := v; carttype := carttype s; battery := battery s;
     rtc_enabled := rtc_enabled s;
     rambank_initialized := rambank_initialized s;
     external_rom_count := external_rom_count s;
     external_ram_count := external_ram_count s; rambanks := rambanks s;
     gamename := gamename s; gametype := gametype s;
     destinationcode := destinationcode s; isgenuine := isgenuine s;
     memorymodel := memorymodel s; rambank_enabled := rambank_enabled s;
     rambank_selected := rambank_selected s;
     rombank_selected := rombank_selected s;
     rombank_selected_low := rombank_selected_low s; cgb := cgb s |}.

Definition set_rambanks (v : memview) (s : t) : t :=
  {| rombanks := rombanks s; carttype := carttype s; battery := battery s;
     rtc_enabled := rtc_enabled s;
     rambank_initialized := rambank_initialized s;
     external_rom_count := external_rom_count s;
     external_ram_count := external_ram_count s; rambanks := v;
     gamename := gamename s; gametype := gametype s;
     destinationcode := destinationcode s; isgenuine := isgenuine s;
     memorymodel := memorymodel s; rambank_enabled := rambank_enabled s;
     rambank_selected := rambank_selected s;
     rombank_selected := rombank_selected s;
     rombank_selected_low := rombank_selected_low s; cgb := cgb s |}.

Definition set_rombank_selected (v : Z) (s : t) : t :=
  {| rombanks := rombanks s; carttype := carttype s; battery := battery s;
     rtc_enabled := rtc_enabled s;
     rambank_initialized := rambank_initialized s;
     external_rom_count := external_rom_count s;
     external_ram_count := external_ram_count s; rambanks := rambanks s;
     gamename := gamename s; gametype := gametype s;
     destinationcode := destinationcode s; isgenuine := isgenuine s;
     memorymodel := memorymodel s; rambank_enabled := rambank_enabled s;
     rambank_selected := rambank_selected s;
     rombank_selected := v;
     rombank_selected_low := rombank_selected_low s; cgb := cgb s |}.

(** The four attributes that [load_state] reads (lines 72-75). *)
Definition set_banking (rom ram enabled model : Z) (s : t) : t :=
  {| rombanks := rombanks s; carttype := carttype s; battery := battery s;
     rtc_enabled := rtc_enabled s;
     rambank_initialized := rambank_initialized s;
     external_rom_count := external_rom_count s;
     external_ram_count := external_ram_count s; rambanks := rambanks s;
     gamename := gamename s; gametype := gametype s;
     destinationcode := destinationcode s; isgenuine := isgenuine s;
     memorymodel := model; rambank_enabled := enabled;
     rambank_selected := ram;
     rombank_selected := rom;
     rombank_selected_low := rombank_selected_low s; cgb := cgb s |}.

(** *** The cartridge header (lines 108-158) *)

(** [[e(x) for x in range(first, first + n)]], stopping at the first
    exception. *)
Fixpoint read_range (m : memview) (bank first : Z) (n : nat)
  : result (list Z) :=
  match n with
  | O => Ok []
  | S n' =>
      match mv_get m bank first with
      | Raise e => Raise e
      | Ok v =>
          match read_range m bank (first + 1) n' with
          | Raise e => Raise e
          | Ok vs => Ok (v :: vs)
          end
      end
  end.

(** [chr(v)] for a byte [v]. *)
Definition chr (v : Z) : ascii := ascii_of_N (Z.to_N v).

Fixpoint string_of_chars (cs : list ascii) : string :=
  match cs with
  | [] => EmptyString
  | c :: rest => String c (string_of_chars rest)
  end.

(** [getgamename] (lines 108-109): the 14 bytes from [0x0134], up to the
    first NUL. *)
Definition getgamename (rom : memview) : result string :=
  match read_range rom 0 0x0134 14 with
  | Raise e => Raise e
  | Ok vs => Ok (hd EmptyString
                   (Str.split zero (string_of_chars (map chr vs))))
  end.

(** [getgametype] (lines 111-120). *)
Definition getgametype (rom : memview) : result string :=
  match mv_get rom 0 0x143 with
  | Raise e => Raise e
  | Ok a =>
      if a =? 0x80 then Ok "cgb"%string
      else
        match mv_get rom 0 0x143 with
        | Raise e => Raise e
        | Ok b =>
            if b =? 0xc0 then Ok "cgb"%string
            else
              match mv_get rom 0 0x146 with
              | Raise e => Raise e
              | Ok c => if c =? 0x03 then Ok "sgb"%string else Ok "dmg"%string
              end
        end
  end.

(** [getdestinationcode] (lines 122-133); it reads [self.gametype]. *)
Definition getdestinationcode (self_gametype : string) (rom : memview)
  : result (option Z) :=
  if String.eqb self_gametype "dmg" then Ok None
  else
    match mv_get rom 0 0x014A with
    | Raise e => Raise e
    | Ok v => Ok (Some v)
    end.

Definition nintendo_logo : list Z :=
  [0xCE; 0xED; 0x66; 0x66; 0xCC; 0x0D; 0x00; 0x0B; 0x03; 0x73; 0x00; 0x83;
   0x00; 0x0C; 0x00; 0x0D; 0x00; 0x08; 0x11; 0x1F; 0x88; 0x89; 0x00; 0x0E;
   0xDC; 0xCC; 0x6E; 0xE6; 0xDD; 0xDD; 0xD9; 0x99; 0xBB; 0xBB; 0x67; 0x63;
   0x6E; 0x0E; 0xEC; 0xCC; 0xDD; 0xDC; 0x99; 0x9F; 0xBB; 0xB9; 0x33; 0x3E].

(** The loop of lines 154-158 from address [i], with the part of the logo
    still to compare. *)
Fixpoint logo_loop (rom : memview) (i : Z) (logo : list Z) : result bool :=
  match logo with
  | [] => Ok true
  | expected :: rest =>
      match mv_get rom 0 i with
      | Raise e => Raise e
      | Ok v => if negb (v =? expected) then Ok false
                else logo_loop rom (i + 1) rest
      end
  end.

(** [getisgenuine] (lines 138-158). *)
Definition getisgenuine (rom : memview) : result bool :=
  logo_loop rom 0x104 nintendo_logo.

(** [init_rambanks] (lines 102-106) makes 16 banks of 8 KiB of zeros,
    whatever [n] is. *)
Definition fresh_rambanks : memview :=
  {| rows := 16; cols := 8 * 1024; cell := fun _ _ => 0 |}.

(** Lines 19-47 of [__init__]: the object before the RAM file is looked
    for.  [len(rombanks)] is the number of rows.  [RTC(filename)] (line 28,
    a class outside this file) is taken to return. *)
Definition init_attributes (rom : memview) (external_ram_count carttype : Z)
    (battery rtc_enabled : bool) : result t :=
  match getgamename rom with
  | Raise e => Raise e
  | Ok name =>
      match getgametype rom with
      | Raise e => Raise e
      | Ok gtype =>
          match getdestinationcode gtype rom with
          | Raise e => Raise e
          | Ok dest =>
              match getisgenuine rom with
              | Raise e => Raise e
              | Ok genuine =>
                  match mv_get rom 0 0x0143 with
                  | Raise e => Raise e
                  | Ok flag =>
                      Ok {| rombanks := rom; carttype := carttype;
                            battery := battery; rtc_enabled := rtc_enabled;
                            rambank_initialized := true;
                            external_rom_count := rows rom;
                            external_ram_count := external_ram_count;
                            rambanks := fresh_rambanks;
                            gamename := name; gametype := gtype;
                            destinationcode := dest; isgenuine := genuine;
                            memorymodel := 0; rambank_enabled := 0;
                            rambank_selected := 0; rombank_selected := 1;
                            rombank_selected_low := 0;
                            cgb := negb (Z.shiftr flag 7 =? 0) |}
                  end
              end
          end
      end
  end.

(** *** Reading and writing the cartridge (lines 135-136, 160-181, 205-213) *)

(** What [getitem] gives: a value, the value [None] (the address is not
    cartridge RAM), or the register of the real-time clock that
    [self.rtc.getregister] is asked for. *)
Inductive read : Type :=
| Value (v : Z)
| NoValue
| RTCRegister (register : Z).

(** [getitem] (lines 170-181). *)
Definition getitem (s : t) (address : Z) : result read :=
  if (0xA000 <=? address) && (address <? 0xC000) then
    if rambank_enabled s =? 0 then Ok (Value 0xFF)
    else if rtc_enabled s
            && ((0x08 <=? rambank_selected s) && (rambank_selected s <=? 0x0C))
    then Ok (RTCRegister (rambank_selected s))
    else
      match mv_get (rambanks s) (rambank_selected s) (address - 0xA000) with
      | Raise e => Raise e
      | Ok v => Ok (Value v)
      end
  else Ok NoValue.

(** [BaseMBC.setitem] (lines 135-136). *)
Definition base_setitem (s : t) (address value : Z) : result t :=
  Raise CannotSetItem.

(** [ROMOnly.setitem] (lines 206-213). *)
Definition setitem (s : t) (address value : Z) : result t :=
  if (0x2000 <=? address) && (address <? 0x4000) then
    let value := if value =? 0 then 1 else value in
    Ok (set_rombank_selected (Z.land value 1) s)
  else if (0xA000 <=? address) && (address <? 0xC000) then
    match mv_set (rambanks s) (rambank_selected s) (address - 0xA000) value with
    | Raise e => Raise e
    | Ok m => Ok (set_rambanks m s)
    end
  else Ok s.

(** [overrideitem] (lines 160-168); the old value is read for the log
    before the store. *)
Definition overrideitem (s : t) (rom_bank address value : Z) : result t :=
  if (0x0000 <=? address) && (address <? 0x4000) then
    match mv_get (rombanks s) rom_bank address with
    | Raise e => Raise e
    | Ok _ =>
        match mv_set (rombanks s) rom_bank address value with
        | Raise e => Raise e
        | Ok m => Ok (set_rombanks m s)
        end
    end
  else Ok s.

(** *** Saving and loading (lines 62-100) *)

(** The inner loop of [save_ram] from [byte], for [n] bytes: the values
    passed to [f.write], and the exception that ended the loop if any. *)
Fixpoint save_bytes (m : memview) (bank byte : Z) (n : nat)
  : list Z * option exn :=
  match n with
  | O => ([], None)
  | S n' =>
      match mv_get m bank byte with
      | Raise e => ([], Some e)
      | Ok v =>
          let '(out, e) := save_bytes m bank (byte + 1) n' in
          (v :: out, e)
      end
  end.

(** The outer loop of [save_ram] from [bank], for [n] banks. *)
Fixpoint save_banks (m : memview) (bank : Z) (n : nat)
  : list Z * option exn :=
  match n with
  | O => ([], None)
  | S n' =>
      match save_bytes m bank 0 (8 * 1024) with
      | (out, Some e) => (out, Some e)
      | (out, None) =>
          let '(out', e) := save_banks m (bank + 1) n' in
          (out ++ out', e)
      end
  end.

(** [save_ram] (lines 80-89). *)
Definition save_ram (s : t) : list Z * option exn :=
  if negb (rambank_initialized s) then ([], None)
  else save_banks (rambanks s) 0 (Z.to_nat (external_ram_count s)).

(** How a method that reads from a file ends: normally, with an
    exception, or asking [f.read()] for a value the file does not have. *)
Inductive ending : Type :=
| Done
| Raised (e : exn)
| EndOfInput.

(** The inner loop of [load_ram]: the view, what is left of the input,
    and how the loop ended. *)
Fixpoint load_bytes (m : memview) (bank byte : Z) (n : nat) (input : list Z)
  : memview * list Z * ending :=
  match n with
  | O => (m, input, Done)
  | S n' =>
      match input with
      | [] => (m, [], EndOfInput)
      | v :: rest =>
          match mv_set m bank byte v with
          | Raise e => (m, rest, Raised e)
          | Ok m' => load_bytes m' bank (byte + 1) n' rest
          end
      end
  end.

Fixpoint load_banks (m : memview) (bank : Z) (n : nat) (input : list Z)
  : memview * list Z * ending :=
  match n with
  | O => (m, input, Done)
  | S n' =>
      match load_bytes m bank 0 (8 * 1024) input with
      | (m', rest, Done) => load_banks m' (bank + 1) n' rest
      | r => r
      end
  end.

(** [load_ram] (lines 91-100). *)
Definition load_ram (s : t) (input : list Z) : t * list Z * ending :=
  if negb (rambank_initialized s) then (s, input, Done)
  else
    let '(m, rest, e) :=
      load_banks (rambanks s) 0 (Z.to_nat (external_ram_count s)) input in
    (set_rambanks m s, rest, e).

(** [save_state] (lines 62-67): what is written before the real-time clock
    saves its own state. *)
Definition save_state (s : t) : list Z * option exn :=
  let '(ram, e) := save_ram s in
  ([rombank_selected s; rambank_selected s; rambank_enabled s; memorymodel s]
     ++ ram, e).

(** [load_state] (lines 72-76): what is read before the real-time clock
    loads its own state. *)
Definition load_state (s : t) (input : list Z) : t * list Z * ending :=
  match input with
  | rom :: ram :: enabled :: model :: rest =>
      load_ram (set_banking rom ram enabled model s) rest
  | [rom; ram; enabled] =>
      (set_banking rom ram enabled (memorymodel s) s, [], EndOfInput)
  | [rom; ram] =>
      (set_banking rom ram (rambank_enabled s) (memorymodel s) s, [], EndOfInput)
  | [rom] =>
      (set_banking rom (rambank_selected s) (rambank_enabled s) (memorymodel s) s,
       [], EndOfInput)
  | [] => (s, [], EndOfInput)
  end.

(** How the constructor ends: it returns the object, an exception reaches
    the caller, or the load of line 53 asks the RAM file for a value it
    does not have (what [IntIOWrapper] does then is outside this file). *)
Inductive construction : Type :=
| Constructed (s : t)
| ConstructorRaised (e : exn)
| RamFileExhausted.

(** [__init__] (lines 19-53).  [ram_file] is [None] when no file
    [filename + ".ram"] exists (line 49), and otherwise the values that
    reading that file gives. *)
Definition init (rom : memview) (external_ram_count carttype : Z)
    (battery rtc_enabled : bool) (ram_file : option (list Z))
  : construction :=
  match init_attributes rom external_ram_count carttype battery rtc_enabled with
  | Raise e => ConstructorRaised e
  | Ok s =>
      match ram_file with
      | None => Constructed s
      | Some input =>
          match load_ram s input with
          | (s', _, Done) => Constructed s'
          | (_, _, Raised e) => ConstructorRaised e
          | (_, _, EndOfInput) => RamFileExhausted
          end
      end
  end.

(** Two views hold the same bytes in their first [n] banks. *)
Definition same_banks (n : Z) (m m' : memview) : Prop :=
  forall bank byte, 0 <= bank < n -> 0 <= byte < 8 * 1024 ->
                    cell m' bank byte = cell m bank byte.

(** A run of [ROMOnly.setitem] calls, oldest first; a call that raises
    leaves the object as it was. *)
Fixpoint run_writes (writes : list (Z * Z)) (s : t) : t :=
  match writes with
  | [] => s
  | (address, value) :: rest =>
      match setitem s address value with
      | Ok s' => run_writes rest s'
      | Raise _ => run_writes rest s
      end
  end.

(** A ROM of two banks of zeros, and the cartridge [__init__] makes of it
    when there is no RAM file; used as an example. *)
Definition blank_rom : memview :=
  {| rows := 2; cols := 16 * 1024; cell := fun _ _ => 0 |}.

Definition blank_cartridge : t :=
  {| rombanks := blank_rom; carttype := 0; battery := false;
     rtc_enabled := false; rambank_initialized := true;
     external_rom_count := 2; external_ram_count := 1;
     rambanks := fresh_rambanks; gamename := EmptyString;
     gametype := "dmg"%string; destinationcode := None; isgenuine := false;
     memorymodel := 0; rambank_enabled := 0; rambank_selected := 0;
     rombank_selected := 1; rombank_selected_low := 0; cgb := false |}.

End MBC.

(** ** The cartridge as the API shows it: [Cartridge] (api/cartridge.py)

    An instance is the table of the attributes assigned to it; the class
    defines no attribute besides its methods.  Looking up a name that was
    never assigned raises [AttributeError]. *)

Module ApiCartridge.

Inductive value : Type :=
| VInt (z : Z)
| VStr (s : string)
| VBool (b : bool)
| VNone
| VMotherboard (cartridge : MBC.t).   (* [mb], with its [cartridge] *)

Definition instance : Type := list (string * value).

(** [self.name = v]. *)
Fixpoint setattr (name : string) (v : value) (self : instance) : instance :=
  match self with
  | [] => [(name, v)]
  | (n, w) :: rest =>
      if String.eqb n name then (n, v) :: rest
      else (n, w) :: setattr name v rest
  end.

(** [self.name]; [None] is [AttributeError]. *)
Fixpoint getattr (name : string) (self : instance) : option value :=
  match self with
  | [] => None
  | (n, w) :: rest => if String.eqb n name then Some w else getattr name rest
  end.

Definition truthy (v : value) : bool :=
  match v with
  | VInt z => negb (z =? 0)
  | VStr s => negb (String.eqb s "")
  | VBool b => b
  | VNone => false
  | VMotherboard _ => true
  end.

Definition of_destination (d : option Z) : value :=
  match d with
  | Some z => VInt z
  | None => VNone
  end.

(** [__init__] (lines 7-13), given the cartridge of the motherboard. *)
Definition init (cartridge : MBC.t) : instance :=
  setattr "is_genuine" (VBool (MBC.isgenuine cartridge))
    (setattr "destination_code" (of_destination (MBC.destinationcode cartridge))
       (setattr "game_type" (VStr (MBC.gametype cartridge))
          (setattr "game_name" (VStr (MBC.gamename cartridge))
             (setattr "cartridge_type" (VInt (MBC.carttype cartridge))
                (setattr "mb" (VMotherboard cartridge) []))))).

(** [save_ram] (lines 15-21): the values written to [f] by
    [self.mb.cartridge.save_ram(f)], if it is reached. *)
Definition save_ram (self : instance)
  : MBC.result (list Z * option MBC.exn) :=
  match getattr "rambank_initialized" self with
  | None => MBC.Raise MBC.AttributeError
  | Some initialized =>
      if negb (truthy initialized) then MBC.Ok ([], None)
      else
        match getattr "mb" self with
        | Some (VMotherboard cartridge) => MBC.Ok (MBC.save_ram cartridge)
        | _ => MBC.Raise MBC.AttributeError
        end
  end.

(** [load_ram] (lines 23-29): the cartridge after
    [self.mb.cartridge.load_ram(f)], what is left of the input and how the
    call ended, if it is reached. *)
Definition load_ram (self : instance) (input : list Z)
  : MBC.result (option (MBC.t * list Z * MBC.ending)) :=
  match getattr "rambank_initialized" self with
  | None => MBC.Raise MBC.AttributeError
  | Some initialized =>
      if negb (truthy initialized) then MBC.Ok None
      else
        match getattr "mb" self with
        | Some (VMotherboard cartridge) =>
            MBC.Ok (Some (MBC.load_ram cartridge input))
        | _ => MBC.Raise MBC.AttributeError
        end
  end.

End ApiCartridge.

(** * Properties *)

Import Serial.
Local Open Scope serial_scope.

(** Unfolds the plumbing of the monad. *)
Ltac run_m :=
  unfold bind, ret, raise, block, gets, modify, try_except in *;
  cbn [fst snd] in *.

(** ** The packet codec *)

Section Codec.

Import Struct.

Lemma byte_val_range (b : byte) : 0 <= byte_val b <= 255.
Proof.
  unfold byte_val. pose proof (Byte.to_N_bounded b). lia.
Qed.

Lemma byte_val_low_byte (x : Z) : byte_val (low_byte x) = x mod 256.
Proof.
  unfold low_byte, byte_val.
  assert (Hr : 0 <= x mod 256 < 256) by (apply Z.mod_pos_bound; lia).
  destruct (Byte.of_N (Z.to_N (x mod 256))) as [b|] eqn:E.
  - apply Byte.to_of_N in E. rewrite E. lia.
  - apply Byte.of_N_None_iff in E. lia.
Qed.

Lemma low_byte_congr (x y : Z) :
  x mod 256 = y mod 256 -> low_byte x = low_byte y.
Proof. unfold low_byte. intros ->. reflexivity. Qed.

Lemma low_byte_byte_val (b : byte) : low_byte (byte_val b) = b.
Proof.
  unfold low_byte. pose proof (byte_val_range b) as Hr.
  rewrite Z.mod_small by lia. unfold byte_val.
  rewrite N2Z.id, Byte.of_to_N. reflexivity.
Qed.

Lemma is_u8_spec (x : Z) : is_u8 x = true <-> 0 <= x <= 255.
Proof. unfold is_u8. rewrite andb_true_iff, !Z.leb_le. tauto. Qed.

Lemma is_u32_spec (x : Z) : is_u32 x = true <-> 0 <= x <= 4294967295.
Proof. unfold is_u32. rewrite andb_true_iff, !Z.leb_le. tauto. Qed.

Lemma byte_val_u8 (x : Z) : 0 <= x <= 255 -> byte_val (low_byte x) = x.
Proof. intros H. rewrite byte_val_low_byte. apply Z.mod_small. lia. Qed.

(** [pack] succeeds exactly on in-range arguments. *)
Lemma pack_some_iff (b1 b2 b3 b4 i : Z) :
  (exists bs, pack b1 b2 b3 b4 i = Some bs) <->
  0 <= b1 <= 255 /\ 0 <= b2 <= 255 /\ 0 <= b3 <= 255 /\ 0 <= b4 <= 255 /\
  0 <= i <= 4294967295.
Proof.
  unfold pack.
  destruct (is_u8 b1) eqn:E1, (is_u8 b2) eqn:E2, (is_u8 b3) eqn:E3,
    (is_u8 b4) eqn:E4, (is_u32 i) eqn:E5; simpl;
    rewrite <- ?is_u8_spec, <- ?is_u32_spec, ?E1, ?E2, ?E3, ?E4, ?E5;
    split; try (intros [bs Hbs]; discriminate);
    try (intros (? & ? & ? & ? & ?); discriminate).
  - intros _. repeat split; reflexivity.
  - intros _. eexists. reflexivity.
Qed.

Lemma pack_length (b1 b2 b3 b4 i : Z) (bs : list byte) :
  pack b1 b2 b3 b4 i = Some bs -> List.length bs = PACKET_SIZE_BYTES.
Proof.
  unfold pack. destruct (_ && _); intros H; inversion H. reflexivity.
Qed.

(** Little-endian reassembly of the four bytes of a 32-bit value. *)
Lemma le_u32_value (i : Z) :
  0 <= i <= 4294967295 ->
  u32_of_le (low_byte i) (low_byte (Z.shiftr i 8))
    (low_byte (Z.shiftr i 16)) (low_byte (Z.shiftr i 24)) = i.
Proof.
  intros H. unfold u32_of_le. rewrite !byte_val_low_byte.
  rewrite !Z.shiftr_div_pow2, !Z.shiftl_mul_pow2 by lia.
  change (2 ^ 8) with 256. change (2 ^ 16) with 65536.
  change (2 ^ 24) with 16777216.
  pose proof (Z.div_mod i 256 ltac:(lia)).
  pose proof (Z.div_mod (i / 256) 256 ltac:(lia)).
  pose proof (Z.div_mod (i / 256 / 256) 256 ltac:(lia)).
  assert (E16 : i / 65536 = i / 256 / 256)
    by (rewrite Z.div_div by lia; reflexivity).
  assert (E24 : i / 16777216 = i / 256 / 256 / 256)
    by (rewrite !Z.div_div by lia; reflexivity).
  rewrite E16, E24.
  assert (Hs : i / 256 / 256 / 256 < 256).
  { rewrite !Z.div_div by lia. apply Z.div_lt_upper_bound; lia. }
  assert (0 <= i / 256 / 256 / 256).
  { repeat apply Z.div_pos; lia. }
  rewrite (Z.mod_small (i / 256 / 256 / 256)) by lia.
  lia.
Qed.

Lemma unpack_pack (b1 b2 b3 b4 i : Z) (bs : list byte) :
  pack b1 b2 b3 b4 i = Some bs -> unpack bs = Some (b1, b2, b3, b4, i).
Proof.
  intros H.
  assert (Hr : exists bs', pack b1 b2 b3 b4 i = Some bs') by (eexists; eauto).
  apply pack_some_iff in Hr. destruct Hr as (H1 & H2 & H3 & H4 & H5).
  unfold pack in H. destruct (_ && _); inversion H; subst bs; clear H.
  cbn [app le_u32 unpack]. rewrite !byte_val_u8 by assumption.
  rewrite le_u32_value by assumption. reflexivity.
Qed.

(** Every 8-byte buffer decodes, and re-encoding the fields gives it back. *)
Lemma pack_unpack (data : list byte) (b1 b2 b3 b4 i : Z) :
  unpack data = Some (b1, b2, b3, b4, i) -> pack b1 b2 b3 b4 i = Some data.
Proof.
  unfold unpack.
  destruct data as [|c1 [|c2 [|c3 [|c4 [|t0 [|t1 [|t2 [|t3 [|? ?]]]]]]]]];
    try discriminate.
  intros H. injection H as <- <- <- <- <-.
  pose proof (byte_val_range c1). pose proof (byte_val_range c2).
  pose proof (byte_val_range c3). pose proof (byte_val_range c4).
  pose proof (byte_val_range t0) as R0. pose proof (byte_val_range t1) as R1.
  pose proof (byte_val_range t2) as R2. pose proof (byte_val_range t3) as R3.
  set (v := u32_of_le t0 t1 t2 t3).
  assert (Hv : v = byte_val t0 + 256 * byte_val t1 + 65536 * byte_val t2
                   + 16777216 * byte_val t3).
  { unfold v, u32_of_le. rewrite !Z.shiftl_mul_pow2 by lia. lia. }
  unfold pack.
  replace (is_u8 (byte_val c1)) with true by (symmetry; apply is_u8_spec; lia).
  replace (is_u8 (byte_val c2)) with true by (symmetry; apply is_u8_spec; lia).
  replace (is_u8 (byte_val c3)) with true by (symmetry; apply is_u8_spec; lia).
  replace (is_u8 (byte_val c4)) with true by (symmetry; apply is_u8_spec; lia).
  replace (is_u32 v) with true by (symmetry; apply is_u32_spec; lia).
  cbn [andb app]. rewrite !low_byte_byte_val. unfold le_u32.
  assert (E0 : low_byte v = t0).
  { transitivity (low_byte (byte_val t0)); [|apply low_byte_byte_val].
    apply low_byte_congr. rewrite Hv.
    replace (byte_val t0 + 256 * byte_val t1 + 65536 * byte_val t2
             + 16777216 * byte_val t3)
      with (byte_val t0 + (byte_val t1 + 256 * byte_val t2
                           + 65536 * byte_val t3) * 256) by lia.
    apply Z.mod_add. lia. }
  assert (E1 : low_byte (Z.shiftr v 8) = t1).
  { transitivity (low_byte (byte_val t1)); [|apply low_byte_byte_val].
    apply low_byte_congr.
    rewrite Z.shiftr_div_pow2 by lia. change (2 ^ 8) with 256.
    replace (v / 256)
      with (byte_val t1 + (byte_val t2 + 256 * byte_val t3) * 256).
    - apply Z.mod_add. lia.
    - apply Z.div_unique with (r := byte_val t0); lia. }
  assert (E2 : low_byte (Z.shiftr v 16) = t2).
  { transitivity (low_byte (byte_val t2)); [|apply low_byte_byte_val].
    apply low_byte_congr.
    rewrite Z.shiftr_div_pow2 by lia. change (2 ^ 16) with 65536.
    replace (v / 65536) with (byte_val t2 + byte_val t3 * 256).
    - apply Z.mod_add. lia.
    - apply Z.div_unique with (r := byte_val t0 + 256 * byte_val t1); lia. }
  assert (E3 : low_byte (Z.shiftr v 24) = t3).
  { transitivity (low_byte (byte_val t3)); [|apply low_byte_byte_val].
    apply low_byte_congr.
    rewrite Z.shiftr_div_pow2 by lia. change (2 ^ 24) with 16777216.
    replace (v / 16777216) with (byte_val t3); [reflexivity|].
    apply Z.div_unique
      with (r := byte_val t0 + 256 * byte_val t1 + 65536 * byte_val t2); lia. }
  rewrite E0, E1, E2, E3. reflexivity.
Qed.

(** C7. For [kind], [b2], [b3], [b4] in 0..255 and [timestamp] in
    0..2^32-1, [struct.pack("<4BI", ...)] yields exactly 8 bytes: byte 0 is
    [kind], bytes 1..3 are [b2], [b3], [b4], bytes 4..7 are the timestamp
    least significant byte first; and [struct.unpack] of those 8 bytes
    returns exactly [(kind, b2, b3, b4, timestamp)]. *)
Theorem pack_layout_roundtrip (kind b2 b3 b4 timestamp : Z) :
  0 <= kind <= 255 -> 0 <= b2 <= 255 -> 0 <= b3 <= 255 -> 0 <= b4 <= 255 ->
  0 <= timestamp <= 2 ^ 32 - 1 ->
  exists bs,
    pack kind b2 b3 b4 timestamp = Some bs /\
    List.length bs = 8%nat /\
    map byte_val bs =
      [kind; b2; b3; b4;
       timestamp mod 256; (timestamp / 2 ^ 8) mod 256;
       (timestamp / 2 ^ 16) mod 256; (timestamp / 2 ^ 24) mod 256] /\
    unpack bs = Some (kind, b2, b3, b4, timestamp).
Proof.
  intros H1 H2 H3 H4 H5. change (2 ^ 32 - 1) with 4294967295 in H5.
  destruct (proj2 (pack_some_iff kind b2 b3 b4 timestamp)) as [bs Hbs];
    [tauto|].
  exists bs. split; [exact Hbs|]. split; [exact (pack_length _ _ _ _ _ _ Hbs)|].
  split; [|exact (unpack_pack _ _ _ _ _ _ Hbs)].
  unfold pack in Hbs. destruct (_ && _); inversion Hbs; subst bs.
  cbn [app le_u32 map]. rewrite !byte_val_u8 by assumption.
  rewrite !byte_val_low_byte, !Z.shiftr_div_pow2 by lia. reflexivity.
Qed.

Lemma pack_layout_roundtrip_witness :
  exists bs,
    pack 104 1 128 0 305419896 = Some bs /\
    List.length bs = 8%nat /\
    map byte_val bs =
      [104; 1; 128; 0;
       305419896 mod 256; (305419896 / 2 ^ 8) mod 256;
       (305419896 / 2 ^ 16) mod 256; (305419896 / 2 ^ 24) mod 256] /\
    unpack bs = Some (104, 1, 128, 0, 305419896).
Proof.
  apply (pack_layout_roundtrip 104 1 128 0 305419896); vm_compute;
    split; discriminate.
Defined.

End Codec.

(** ** [str.count] and [str.split] *)

Section Strings.

Import Str.

Lemma count_nonneg (c : ascii) (s : string) : 0 <= count c s.
Proof.
  induction s as [|a rest IH]; simpl; [lia|].
  destruct (Ascii.eqb a c); lia.
Qed.

(** A string with [n] separators splits into [n + 1] pieces. *)
Lemma split_length (sep : ascii) (s : string) :
  Z.of_nat (List.length (split sep s)) = count sep s + 1.
Proof.
  induction s as [|a rest IH]; [reflexivity|].
  pose proof (count_nonneg sep rest).
  cbn [split count]. destruct (Ascii.eqb a sep).
  - cbn [List.length]. lia.
  - destruct (split sep rest) as [|piece pieces]; cbn [List.length] in *; lia.
Qed.

Lemma split_two_iff (sep : ascii) (s : string) :
  (exists p q, split sep s = [p; q]) <-> count sep s = 1.
Proof.
  pose proof (split_length sep s) as L. split.
  - intros (p & q & E). rewrite E in L. cbn [List.length] in L. lia.
  - intros C. rewrite C in L.
    destruct (split sep s) as [|p [|q [|r l]]]; cbn [List.length] in L;
      try lia.
    exists p, q. reflexivity.
Qed.

End Strings.
(** ** Relations that computations preserve *)

Section Preservation.

Variable R : t -> t -> Prop.
Hypothesis R_refl : forall s, R s s.
Hypothesis R_trans : forall s1 s2 s3, R s1 s2 -> R s2 s3 -> R s1 s3.

Lemma preserves_ret {A} (a : A) : preserves R (ret a).
Proof. intros s. apply R_refl. Qed.

Lemma preserves_raise {A} (e : exn) : preserves R (@raise A e).
Proof. intros s. apply R_refl. Qed.

Lemma preserves_block {A} : preserves R (@block A).
Proof. intros s. apply R_refl. Qed.

Lemma preserves_gets {A} (f : t -> A) : preserves R (gets f).
Proof. intros s. apply R_refl. Qed.

Lemma preserves_modify (f : t -> t) :
  (forall s, R s (f s)) -> preserves R (modify f).
Proof. intros H s. apply H. Qed.

Lemma preserves_bind {A B} (m : M A) (k : A -> M B) :
  preserves R m -> (forall a, preserves R (k a)) -> preserves R (bind m k).
Proof.
  intros Hm Hk s. unfold bind. specialize (Hm s).
  destruct (m s) as [s1 [a|e|]]; cbn [fst] in *; try assumption.
  apply R_trans with s1; [assumption|apply Hk].
Qed.

Lemma preserves_try_except {A} (body : M A) (handler : exn -> option (M A)) :
  preserves R body ->
  (forall e h, handler e = Some h -> preserves R h) ->
  preserves R (try_except body handler).
Proof.
  intros Hb Hh s. unfold try_except. specialize (Hb s).
  destruct (body s) as [s1 [a|e|]]; cbn [fst] in *; try assumption.
  destruct (handler e) as [h|] eqn:E; [|assumption].
  apply R_trans with s1; [assumption|apply (Hh e h E)].
Qed.

End Preservation.

(** One step through the structure of a computation. *)
Ltac preserve_step :=
  match goal with
  | |- preserves _ (ret _) => apply preserves_ret
  | |- preserves _ (raise _) => apply preserves_raise
  | |- preserves _ block => apply preserves_block
  | |- preserves _ (gets _) => apply preserves_gets
  | |- preserves _ (bind _ _) => apply preserves_bind; [| |intros ?]
  | |- preserves _ (match ?x with _ => _ end) => destruct x eqn:?
  end.

(** ** What the receiver thread leaves alone *)

Lemma same_registers_refl s : same_registers s s.
Proof. unfold same_registers. repeat split; reflexivity. Qed.

Lemma same_registers_trans s1 s2 s3 :
  same_registers s1 s2 -> same_registers s2 s3 -> same_registers s1 s3.
Proof.
  unfold same_registers. intros H1 H2.
  repeat match goal with H : _ /\ _ |- _ => destruct H end.
  repeat split; congruence.
Qed.

Create HintDb serial_regs.

(** Shows that a computation preserves a relation, given that the relation
    is reflexive and transitive and how to show that an assignment
    preserves it. *)
Ltac preserve_by refl trans assignment :=
  repeat first
    [ apply refl
    | exact trans
    | preserve_step
    | apply preserves_modify; intros ?; assignment
    | solve [eauto with serial_regs] ].

Ltac regs :=
  preserve_by same_registers_refl same_registers_trans
    ltac:(unfold same_registers; repeat split; reflexivity).

Lemma ret_regs {A} (a : A) : preserves same_registers (ret a).
Proof. regs. Qed.

Lemma struct_pack_regs b1 b2 b3 b4 ts :
  preserves same_registers (struct_pack b1 b2 b3 b4 ts).
Proof. unfold struct_pack. regs. Qed.

Lemma connection_send_regs (arg : M (list byte)) :
  preserves same_registers arg -> preserves same_registers (connection_send arg).
Proof. intros H. unfold connection_send. regs. Qed.

#[local] Hint Resolve ret_regs struct_pack_regs connection_send_regs : serial_regs.

Lemma _get_status_packet_regs : preserves same_registers _get_status_packet.
Proof. unfold _get_status_packet. regs. Qed.

#[local] Hint Resolve _get_status_packet_regs : serial_regs.

Lemma handler_regs (kind : Z) h b2 b3 b4 ts :
  _handlers kind = Some h -> preserves same_registers (h b2 b3 b4 ts).
Proof.
  unfold _handlers.
  repeat (destruct (kind =? _); [intros [= <-]|]); try discriminate.
  - unfold _handle_version, BGB_VERSION. regs.
  - unfold _handle_joypad_update. regs.
  - unfold _handle_sync1, _client_data_handler, recv_put. regs.
  - unfold _handle_sync2, _client_data_handler, recv_put. regs.
  - unfold _handle_sync3. regs.
  - unfold _handle_status. regs.
  - unfold _handle_want_disconnect, connection_close. regs.
Qed.

#[local] Hint Resolve handler_regs : serial_regs.

Lemma recv_iteration_regs r : preserves same_registers (recv_iteration r).
Proof.
  unfold recv_iteration.
  apply preserves_try_except; [exact same_registers_trans| |].
  - unfold connection_recv. regs.
  - intros [] h; intros [= <-]; regs.
Qed.

#[local] Hint Resolve recv_iteration_regs : serial_regs.

Lemma recv_loop_regs reads : preserves same_registers (recv_loop reads).
Proof. induction reads as [|r rest IH]; cbn [recv_loop]; regs. Qed.

#[local] Hint Resolve recv_loop_regs : serial_regs.

Lemma recv_thread_regs reads : preserves same_registers (recv_thread reads).
Proof. unfold recv_thread, BGB_VERSION. regs. Qed.

Lemma close_connection_regs : preserves same_registers close_connection.
Proof. unfold close_connection, connection_close. regs. Qed.

(** Whatever the parts of [stop] that touch [t] preserve, [stop]
    preserves, however it ends. *)
Lemma stop_preserves (R : t -> t -> Prop) :
  (forall a b c, R a b -> R b c -> R a c) ->
  preserves R close_connection ->
  preserves R (modify (set_connection None)) ->
  forall d : device, R (object d) (object (fst (stop d))).
Proof.
  intros Rtrans Hclose Hdrop d. unfold stop.
  pose proof (Hclose (object d)) as H1.
  destruct (close_connection (object d)) as [s1 r]. cbn [fst] in H1.
  pose proof (Hdrop s1) as H2. unfold modify in H2. cbn [fst] in H2.
  destruct r as [u| |]; [|exact H1|exact H1].
  destruct (binding_connection d) as [|[sk|]];
    [destruct (recv_t d) as [|[|]]; cbn [fst object]; exact (Rtrans _ _ _ H1 H2)..
    |cbn [fst object]; exact H1].
Qed.

Lemma stop_regs (d : device) :
  same_registers (object d) (object (fst (stop d))).
Proof.
  apply stop_preserves;
    [exact same_registers_trans|exact close_connection_regs|regs].
Qed.

(** ** The transfer scheduler *)

Section Scheduler.

(** Bit 7 of the control register, tested the two ways the source does. *)
Lemma land_0x80 (x : Z) : Z.land x 0x80 = if Z.testbit x 7 then 0x80 else 0.
Proof.
  apply Z.bits_inj'. intros n Hn. rewrite Z.land_spec.
  change 0x80 with (2 ^ 7). rewrite Z.pow2_bits_eqb by lia.
  destruct (Z.eqb_spec 7 n) as [<-|Hne].
  - rewrite andb_true_r. destruct (Z.testbit x 7); [|apply eq_sym, Z.bits_0].
    rewrite Z.pow2_bits_eqb by lia. reflexivity.
  - rewrite andb_false_r. destruct (Z.testbit x 7); [|apply eq_sym, Z.bits_0].
    rewrite Z.pow2_bits_eqb by lia. symmetry. apply Z.eqb_neq. exact Hne.
Qed.

Lemma shiftr_7_land_1 (x : Z) :
  Z.land (Z.shiftr x 7) 1 = if Z.testbit x 7 then 1 else 0.
Proof.
  change 1 with (Z.ones 1) at 1. rewrite Z.land_ones by lia.
  change (2 ^ 1) with 2. rewrite <- Z.bit0_mod, Z.shiftr_spec by lia.
  destruct (Z.testbit x (0 + 7)) eqn:E; change (0 + 7) with 7 in E; rewrite E;
    reflexivity.
Qed.

Lemma truthy_bit7 (x : Z) :
  truthy (Z.land (Z.shiftr x 7) 1) = truthy (Z.land x 0x80).
Proof.
  rewrite land_0x80, shiftr_7_land_1. destruct (Z.testbit x 7); reflexivity.
Qed.

Lemma land_0x7F_bit7 (x : Z) : Z.testbit (Z.land x 0x7F) 7 = false.
Proof. rewrite Z.land_spec. apply andb_false_r. Qed.

Lemma advance_timestamp_run (cycles : Z) (s : t) :
  advance_timestamp cycles s =
    (if 2 ^ 21 <=? _ts_cycles s + cycles
     then set_timestamp (_timestamp s + 1)
            (set_ts_cycles (_ts_cycles s + cycles - 2 ^ 21) s)
     else set_ts_cycles (_ts_cycles s + cycles) s,
     Ok tt).
Proof.
  unfold advance_timestamp. run_m. change (Z.shiftl 1 21) with (2 ^ 21).
  cbn [_ts_cycles set_ts_cycles].
  destruct (2 ^ 21 <=? _ts_cycles s + cycles); reflexivity.
Qed.

Lemma clocked_run (cycles : Z) (s : t) :
  clocked cycles s =
    let s1 := set_cycles_count (cycles_count s + cycles) s in
    if 2 ^ 21 <=? _ts_cycles s + cycles
    then set_timestamp (_timestamp s + 1)
           (set_ts_cycles (_ts_cycles s + cycles - 2 ^ 21) s1)
    else set_ts_cycles (_ts_cycles s + cycles) s1.
Proof.
  unfold clocked. run_m. rewrite advance_timestamp_run. reflexivity.
Qed.

(** The fields of the object at the threshold test. *)
Lemma clocked_fields (cycles : Z) (s : t) :
  let s1 := clocked cycles s in
  cycles_count s1 = cycles_count s + cycles /\
  _ts_cycles s1 = (if 2 ^ 21 <=? _ts_cycles s + cycles
                   then _ts_cycles s + cycles - 2 ^ 21
                   else _ts_cycles s + cycles) /\
  _timestamp s1 = (if 2 ^ 21 <=? _ts_cycles s + cycles
                   then _timestamp s + 1 else _timestamp s) /\
  SC s1 = SC s /\ SB s1 = SB s /\ connection s1 = connection s /\
  trans_bits s1 = trans_bits s /\ cycles_target s1 = cycles_target s /\
  _got_version s1 = _got_version s /\
  _last_received_timestamp s1 = _last_received_timestamp s /\
  recv s1 = recv s /\ quitting s1 = quitting s /\ is_master s1 = is_master s.
Proof.
  cbv zeta. rewrite clocked_run. cbv zeta.
  destruct (2 ^ 21 <=? _ts_cycles s + cycles); repeat split; reflexivity.
Qed.

(** [tick] on a connected object, cut at the threshold test. *)
Lemma tick_connected (cycles : Z) (s : t) (sk : socket) :
  connection s = Some sk ->
  tick cycles s =
    let s1 := clocked cycles s in
    if cycles_to_transmit s1 =? 0 then
      if _last_received_timestamp s1 <? _timestamp s1 then (s1, Ok false)
      else ((if truthy (Z.land (Z.shiftr (SC s1) 7) 1)
             then send_bit else ret tt) ;; tick_resume) s1
    else (s1, Ok false).
Proof.
  intros Hc. unfold tick, clocked. run_m. rewrite Hc.
  rewrite advance_timestamp_run. cbn [fst snd].
  set (s1 := if _ <=? _ then _ else _).
  destruct (cycles_to_transmit s1 =? 0); [|reflexivity].
  destruct (_last_received_timestamp s1 <? _timestamp s1); reflexivity.
Qed.

Lemma send_bit_run (s : t) (sk : socket) :
  connection s = Some sk ->
  send_bit s =
    match Struct.pack (if is_master s then 104 else 105)
            (Z.land (Z.shiftr (SB s) 7) 1) (SC s) 0 (_timestamp s) with
    | None => (s, Raise StructError)
    | Some p =>
        if closed sk then (s, Raise OSError)
        else (set_connection
                (Some {| closed := false; sent := sent sk ++ [p] |}) s, Ok tt)
    end.
Proof.
  intros Hc. unfold send_bit, connection_send, struct_pack. run_m. rewrite Hc.
  destruct (Struct.pack _ _ _ _ _) as [p|]; [|reflexivity].
  cbn [fst snd]. rewrite Hc. destruct (closed sk); reflexivity.
Qed.

(** [send_bit] touches nothing but the socket. *)
Lemma send_bit_frame (s : t) :
  let s' := fst (send_bit s) in
  SC s' = SC s /\ SB s' = SB s /\ trans_bits s' = trans_bits s /\
  cycles_count s' = cycles_count s /\ cycles_target s' = cycles_target s /\
  _timestamp s' = _timestamp s /\ _ts_cycles s' = _ts_cycles s /\
  _got_version s' = _got_version s /\
  _last_received_timestamp s' = _last_received_timestamp s /\
  recv s' = recv s /\ quitting s' = quitting s /\ is_master s' = is_master s.
Proof.
  cbv zeta. destruct (connection s) as [sk|] eqn:Hc.
  - rewrite (send_bit_run s sk Hc).
    destruct (Struct.pack _ _ _ _ _); [destruct (closed sk)|];
      repeat split; reflexivity.
  - unfold send_bit, connection_send. run_m. rewrite Hc.
    repeat split; reflexivity.
Qed.

Lemma shift_in_run (byte ts : Z) (s : t) :
  shift_in (byte, ts) s =
    let s' := set_cycles_count 0
                (set_trans_bits (trans_bits s + 1)
                   (set_SB (Z.lor (Z.land (Z.shiftl (SB s) 1) 0xFF) byte) s)) in
    if trans_bits s + 1 =? 8
    then (set_SC (Z.land (SC s) 0x7F) (set_trans_bits 0 s'), Ok true)
    else (s', Ok false).
Proof.
  unfold shift_in. run_m. cbn [trans_bits set_cycles_count set_trans_bits set_SB].
  destruct (trans_bits s + 1 =? 8); reflexivity.
Qed.

Lemma tick_resume_run (s : t) :
  tick_resume s =
    match recv s with
    | [] => (s, Blocked)
    | item :: rest => shift_in item (set_recv rest s)
    end.
Proof.
  unfold tick_resume, recv_get. run_m. destruct (recv s); reflexivity.
Qed.

(** What follows [self.recv.get()] leaves the clock, the socket, the
    handshake flag and the role alone. *)
Lemma tick_resume_frame (s : t) :
  let s' := fst (tick_resume s) in
  connection s' = connection s /\ cycles_target s' = cycles_target s /\
  _timestamp s' = _timestamp s /\ _ts_cycles s' = _ts_cycles s /\
  _got_version s' = _got_version s /\
  _last_received_timestamp s' = _last_received_timestamp s /\
  quitting s' = quitting s /\ is_master s' = is_master s.
Proof.
  cbv zeta. rewrite tick_resume_run. destruct (recv s) as [|[byte ts] rest].
  - repeat split; reflexivity.
  - rewrite shift_in_run. cbv zeta.
    destruct (_ =? 8); repeat split; reflexivity.
Qed.

(** The clock fields after [tick] are those at the threshold test, however
    the call ends. *)
Lemma tick_clock (cycles : Z) (s : t) (sk : socket) :
  connection s = Some sk ->
  _timestamp (fst (tick cycles s)) = _timestamp (clocked cycles s) /\
  _ts_cycles (fst (tick cycles s)) = _ts_cycles (clocked cycles s).
Proof.
  intros Hc. rewrite (tick_connected cycles s sk Hc). cbv zeta.
  set (s1 := clocked cycles s).
  destruct (cycles_to_transmit s1 =? 0); [|split; reflexivity].
  destruct (_last_received_timestamp s1 <? _timestamp s1); [split; reflexivity|].
  unfold bind.
  destruct (truthy (Z.land (Z.shiftr (SC s1) 7) 1)).
  - pose proof (send_bit_frame s1) as F. cbv zeta in F.
    destruct (send_bit s1) as [s2 [[]|e|]]; cbn [fst] in *;
      try (split; apply F).
    pose proof (tick_resume_frame s2) as G. cbv zeta in G.
    destruct G as (_ & _ & G1 & G2 & _). rewrite G1, G2. split; apply F.
  - unfold ret. pose proof (tick_resume_frame s1) as G. cbv zeta in G.
    destruct G as (_ & _ & G1 & G2 & _). rewrite G1, G2. split; reflexivity.
Qed.

(** [tick] without a connection: lines 237-240. *)
Lemma tick_no_connection (cycles : Z) (s : t) :
  connection s = None -> tick cycles s = (set_SB 0xFF s, Ok false).
Proof. intros Hc. unfold tick. run_m. rewrite Hc. reflexivity. Qed.

(** C9. On a device with no connection, [tick] with any cycle count
    returns "no transfer" ([False]), leaves [SB] at [0xFF], does not wait on
    the queue (the call ends with a value and the queue is untouched), and
    leaves the device without a connection, so that the same holds at every
    later call. *)
Theorem tick_disabled (cycles : Z) (s : t) :
  connection s = None ->
  tick cycles s = (set_SB 0xFF s, Ok false) /\
  SB (fst (tick cycles s)) = 0xFF /\
  recv (fst (tick cycles s)) = recv s /\
  connection (fst (tick cycles s)) = None.
Proof.
  intros Hc. rewrite (tick_no_connection cycles s Hc).
  repeat split; assumption.
Qed.

Lemma tick_disabled_witness :
  tick 70224 (initial None false) = (set_SB 0xFF (initial None false), Ok false) /\
  SB (fst (tick 70224 (initial None false))) = 0xFF /\
  recv (fst (tick 70224 (initial None false))) = recv (initial None false) /\
  connection (fst (tick 70224 (initial None false))) = None.
Proof.
  apply (tick_disabled 70224 (initial None false)). reflexivity.
Defined.

(** C1. On a connected device, when the cycle threshold is reached
    ([cycles_to_transmit() == 0] at line 257) and the local timestamp is
    strictly greater than the last received one, [tick] returns "no
    transfer", takes nothing from the queue (so it does not wait on it),
    sends nothing, and leaves [cycles_count] at its accumulated value
    instead of resetting it. *)
Theorem tick_defers_when_ahead (cycles : Z) (s : t) (sk : socket) :
  connection s = Some sk ->
  cycles_to_transmit (clocked cycles s) = 0 ->
  _last_received_timestamp s < _timestamp (clocked cycles s) ->
  tick cycles s = (clocked cycles s, Ok false) /\
  recv (fst (tick cycles s)) = recv s /\
  connection (fst (tick cycles s)) = Some sk /\
  cycles_count (fst (tick cycles s)) = cycles_count s + cycles /\
  cycles_target s <= cycles_count (fst (tick cycles s)).
Proof.
  intros Hc Hthr Hahead.
  pose proof (clocked_fields cycles s) as F. cbv zeta in F.
  destruct F as (Fcc & _ & _ & Fsc & _ & Fconn & _ & Fct & _ & Flast & Frecv & _).
  assert (E : tick cycles s = (clocked cycles s, Ok false)).
  { rewrite (tick_connected cycles s sk Hc). cbv zeta.
    rewrite Hthr, Flast. cbn [Z.eqb].
    apply Z.ltb_lt in Hahead. rewrite Hahead. reflexivity. }
  rewrite E. cbn [fst]. rewrite Frecv, Fconn, Fcc.
  repeat split; try assumption.
  unfold cycles_to_transmit in Hthr. rewrite Fconn, Hc, Fct, Fcc in Hthr.
  destruct (truthy _); [lia|]. discriminate.
Qed.

Lemma tick_defers_when_ahead_witness :
  let s := set_timestamp 1 (set_SC 0x81 (set_recv [(1, 0)] (connected true))) in
  tick 514 s = (clocked 514 s, Ok false) /\
  recv (fst (tick 514 s)) = recv s /\
  connection (fst (tick 514 s)) = Some fresh_socket /\
  cycles_count (fst (tick 514 s)) = cycles_count s + 514 /\
  cycles_target s <= cycles_count (fst (tick 514 s)).
Proof.
  apply (tick_defers_when_ahead 514
           (set_timestamp 1 (set_SC 0x81 (set_recv [(1, 0)] (connected true))))
           fresh_socket); reflexivity.
Defined.

(** C6. On a connected device whose accumulator [_ts_cycles] is 0, a
    [tick] of exactly 2^21 cycles adds exactly 1 to [_timestamp] and leaves
    [_ts_cycles] at 0; a [tick] of 2^21 + 100 cycles adds exactly 1 and
    leaves [_ts_cycles] at 100.  The clock update is made by every [tick] of
    a connected device, whatever its accumulator holds and however the call
    ends (no transfer, transfer, exception, or waiting on the queue): the
    accumulator takes the cycles, and gives up 2^21 of them for one
    timestamp unit once it holds that many. *)
Theorem tick_timestamp_carry (s : t) (sk : socket) :
  connection s = Some sk ->
  _ts_cycles s = 0 ->
  (_timestamp (fst (tick (2 ^ 21) s)) = _timestamp s + 1 /\
   _ts_cycles (fst (tick (2 ^ 21) s)) = 0) /\
  (_timestamp (fst (tick (2 ^ 21 + 100) s)) = _timestamp s + 1 /\
   _ts_cycles (fst (tick (2 ^ 21 + 100) s)) = 100) /\
  (forall (cycles : Z) (s0 : t) (sk0 : socket),
     connection s0 = Some sk0 ->
     _timestamp (fst (tick cycles s0)) =
       (if 2 ^ 21 <=? _ts_cycles s0 + cycles
        then _timestamp s0 + 1 else _timestamp s0) /\
     _ts_cycles (fst (tick cycles s0)) =
       (if 2 ^ 21 <=? _ts_cycles s0 + cycles
        then _ts_cycles s0 + cycles - 2 ^ 21 else _ts_cycles s0 + cycles)).
Proof.
  intros Hc Hz.
  assert (G : forall (cycles : Z) (s0 : t) (sk0 : socket),
     connection s0 = Some sk0 ->
     _timestamp (fst (tick cycles s0)) =
       (if 2 ^ 21 <=? _ts_cycles s0 + cycles
        then _timestamp s0 + 1 else _timestamp s0) /\
     _ts_cycles (fst (tick cycles s0)) =
       (if 2 ^ 21 <=? _ts_cycles s0 + cycles
        then _ts_cycles s0 + cycles - 2 ^ 21 else _ts_cycles s0 + cycles)).
  { intros cycles s0 sk0 Hc0. destruct (tick_clock cycles s0 sk0 Hc0) as [E1 E2].
    pose proof (clocked_fields cycles s0) as F. cbv zeta in F.
    destruct F as (_ & F2 & F3 & _).
    rewrite E1, E2, F2, F3. split; reflexivity. }
  split; [|split; [|exact G]].
  - destruct (G (2 ^ 21) s sk Hc) as [G1 G2]. rewrite G1, G2, Hz.
    split; reflexivity.
  - destruct (G (2 ^ 21 + 100) s sk Hc) as [G1 G2]. rewrite G1, G2, Hz.
    split; reflexivity.
Qed.

Lemma tick_timestamp_carry_witness :
  let s := set_timestamp 41 (connected false) in
  (_timestamp (fst (tick (2 ^ 21) s)) = _timestamp s + 1 /\
   _ts_cycles (fst (tick (2 ^ 21) s)) = 0) /\
  (_timestamp (fst (tick (2 ^ 21 + 100) s)) = _timestamp s + 1 /\
   _ts_cycles (fst (tick (2 ^ 21 + 100) s)) = 100) /\
  (forall (cycles : Z) (s0 : t) (sk0 : socket),
     connection s0 = Some sk0 ->
     _timestamp (fst (tick cycles s0)) =
       (if 2 ^ 21 <=? _ts_cycles s0 + cycles
        then _timestamp s0 + 1 else _timestamp s0) /\
     _ts_cycles (fst (tick cycles s0)) =
       (if 2 ^ 21 <=? _ts_cycles s0 + cycles
        then _ts_cycles s0 + cycles - 2 ^ 21 else _ts_cycles s0 + cycles)).
Proof.
  apply (tick_timestamp_carry (set_timestamp 41 (connected false)) fresh_socket);
    reflexivity.
Defined.

Lemma shift_in_transferred (byte ts : Z) (s : t) :
  snd (shift_in (byte, ts) s) = Ok (trans_bits s + 1 =? 8) /\
  transferred byte s (fst (shift_in (byte, ts) s)) /\
  recv (fst (shift_in (byte, ts) s)) = recv s /\
  connection (fst (shift_in (byte, ts) s)) = connection s.
Proof.
  rewrite shift_in_run. cbv zeta. unfold transferred.
  destruct (trans_bits s + 1 =? 8); repeat split; reflexivity.
Qed.



Lemma tick_resume_transfer (s : t) (byte ts : Z) (rest : list (Z * Z)) :
  recv s = (byte, ts) :: rest ->
  snd (tick_resume s) = Ok (trans_bits s + 1 =? 8) /\
  transferred byte s (fst (tick_resume s)) /\
  recv (fst (tick_resume s)) = rest.
Proof.
  intros Hq. rewrite tick_resume_run, Hq.
  destruct (shift_in_transferred byte ts (set_recv rest s)) as (T1 & T2 & T3 & _).
  rewrite T1, T3. split; [reflexivity|]. split; [exact T2|reflexivity].
Qed.










End Scheduler.

(** ** The timestamp clock over many ticks *)

Section Clock.

(** [tick] never makes the timestamp smaller: nothing wraps it. *)
Lemma tick_timestamp_monotone (cycles : Z) (s : t) :
  _timestamp s <= _timestamp (fst (tick cycles s)) <= _timestamp s + 1.
Proof.
  destruct (connection s) as [sk|] eqn:Hc.
  - destruct (tick_clock cycles s sk Hc) as [E _]. rewrite E.
    pose proof (clocked_fields cycles s) as F. cbv zeta in F.
    destruct F as (_ & _ & F & _). rewrite F.
    destruct (2 ^ 21 <=? _ts_cycles s + cycles); lia.
  - rewrite (tick_no_connection cycles s Hc). cbn. lia.
Qed.

(** A connected device whose [SC] is 0 never reaches the threshold: a
    [tick] only advances the counters. *)
Lemma tick_idle (cycles : Z) (s : t) (sk : socket) :
  connection s = Some sk -> SC s = 0 ->
  tick cycles s = (clocked cycles s, Ok false).
Proof.
  intros Hc Hsc. rewrite (tick_connected cycles s sk Hc). cbv zeta.
  pose proof (clocked_fields cycles s) as F. cbv zeta in F.
  destruct F as (_ & _ & _ & Fsc & _ & Fconn & _).
  unfold cycles_to_transmit. rewrite Fconn, Hc, Fsc, Hsc. reflexivity.
Qed.

(** [n] ticks of 2^21 cycles each on a freshly connected device: the
    timestamp is [n]. *)
Lemma ticks_timestamp (serial_bind : bool) (n : N) :
  let s := ticks (2 ^ 21) n (connected serial_bind) in
  _timestamp s = Z.of_N n /\ _ts_cycles s = 0 /\ SC s = 0 /\
  connection s = Some fresh_socket.
Proof.
  cbv zeta. unfold ticks. induction n as [|n IH] using N.peano_ind.
  - repeat split; reflexivity.
  - rewrite N.iter_succ. destruct IH as (Its & Itc & Isc & Ic).
    set (s := N.iter n _ _) in *.
    rewrite (tick_idle (2 ^ 21) s fresh_socket Ic Isc). cbn [fst].
    pose proof (clocked_fields (2 ^ 21) s) as F. cbv zeta in F.
    destruct F as (_ & F2 & F3 & Fsc & _ & Fconn & _).
    rewrite F2, F3, Fsc, Fconn, Itc, Its, Isc, Ic.
    change (2 ^ 21 <=? 0 + 2 ^ 21) with true. cbv iota.
    repeat split; try reflexivity. lia.
Qed.

(** C5 (the code departs from it).  The source adds 1 to [_timestamp] and
    never masks it: one more period after 2^31 - 1 gives 2^31, whose bit 31
    is set; 2^31 periods on a freshly connected device reach that value; and
    no [tick] ever makes the timestamp smaller, so it does not wrap to 0. *)
Theorem timestamp_exceeds_31_bits :
  _timestamp (fst (tick (2 ^ 21) (set_timestamp (2 ^ 31 - 1) (connected true))))
    = 2 ^ 31 /\
  _timestamp (ticks (2 ^ 21) (2 ^ 31) (connected true)) = 2 ^ 31 /\
  Z.testbit (_timestamp (ticks (2 ^ 21) (2 ^ 31) (connected true))) 31 = true /\
  (forall (cycles : Z) (s : t),
     _timestamp s <= _timestamp (fst (tick cycles s))).
Proof.
  split; [reflexivity|].
  destruct (ticks_timestamp true (2 ^ 31)) as (E & _). cbv zeta in E.
  rewrite E. split; [reflexivity|]. split; [reflexivity|].
  intros cycles s. apply tick_timestamp_monotone.
Qed.

(** The claim that the timestamp stays below 2^31 after any sequence of
    ticks does not hold of the source. *)
Lemma timestamp_not_below_2_31 :
  ~ (forall (n : N) (cycles : Z),
       _timestamp (ticks cycles n (connected true)) < 2 ^ 31).
Proof.
  intros H. specialize (H (2 ^ 31)%N (2 ^ 21)).
  destruct (ticks_timestamp true (2 ^ 31)) as (E & _). cbv zeta in E.
  rewrite E in H. revert H. apply Z.lt_irrefl.
Qed.

End Clock.

(** ** The constructor's address check *)

Section Address.

Open Scope string_scope.

(** What lines 62-70 do with an address, by its dots and colons. *)
Lemma init_outcome_by_counts (a : string) :
  a <> "" ->
  match __init__ (Some a) with
  | Disabled s => Str.count "." a <> 3 /\ Str.count ":" a = 1 /\ connection s = None
  | InitRaise e => Str.count ":" a <> 1 /\ e = ValueError
  | Connecting _ _ => Str.count "." a = 3 /\ Str.count ":" a = 1
  end.
Proof.
  intros Ha. unfold __init__.
  destruct (String.eqb_spec a "") as [E|_]; [contradiction|].
  destruct (Z.eqb_spec (Str.count "." a) 3) as [Hd|Hd];
    destruct (Z.eqb_spec (Str.count ":" a) 1) as [Hc|Hc]; cbn [negb andb].
  - destruct (proj2 (split_two_iff ":" a) Hc) as (ip & port & E). rewrite E.
    split; assumption.
  - destruct (Str.split ":" a) as [|ip [|port [|x l]]] eqn:E;
      try (split; [assumption|reflexivity]).
    exfalso. apply Hc. apply split_two_iff. exists ip, port. exact E.
  - repeat split; assumption.
  - destruct (Str.split ":" a) as [|ip [|port [|x l]]] eqn:E;
      try (split; [assumption|reflexivity]).
    exfalso. apply Hc. apply split_two_iff. exists ip, port. exact E.
Qed.

(** An address that is not well formed and has one colon disables the
    device; the other malformed addresses do not. *)
Lemma init_disabled_iff (a : string) :
  a <> "" ->
  (exists s, __init__ (Some a) = Disabled s) <->
  Str.count "." a <> 3 /\ Str.count ":" a = 1.
Proof.
  intros Ha. pose proof (init_outcome_by_counts a Ha) as H. split.
  - intros [s E]. rewrite E in H. tauto.
  - intros [Hd Hc]. destruct (__init__ (Some a)) as [s|e|ip port].
    + exists s. reflexivity.
    + tauto.
    + tauto.
Qed.

Lemma init_raises_iff (a : string) :
  a <> "" ->
  __init__ (Some a) = InitRaise ValueError <-> Str.count ":" a <> 1.
Proof.
  intros Ha. pose proof (init_outcome_by_counts a Ha) as H. split.
  - intros E. rewrite E in H. tauto.
  - intros Hc. destruct (__init__ (Some a)) as [s|e|ip port].
    + tauto.
    + destruct H as [_ ->]. reflexivity.
    + tauto.
Qed.

(** C3 (the code departs from it).  The address ["localhost"] has no dot
    and no colon, so it is not of the form the check is meant to accept;
    the constructor does not return a disabled device for it: the test of
    line 66 lets it through and the unpacking of line 70 raises
    [ValueError] to the caller.  The same happens to ["1.2.3.4"], and to
    every non-empty address whose number of colons is not one. *)
Theorem init_malformed_address_raises :
  ~ well_formed_address "localhost" /\
  __init__ (Some "localhost") = InitRaise ValueError /\
  ~ well_formed_address "1.2.3.4" /\
  __init__ (Some "1.2.3.4") = InitRaise ValueError /\
  (forall a : string,
     a <> "" -> Str.count ":" a <> 1 -> __init__ (Some a) = InitRaise ValueError).
Proof.
  unfold well_formed_address.
  split; [intros [H _]; discriminate H|]. split; [reflexivity|].
  split; [intros [_ H]; discriminate H|]. split; [reflexivity|].
  intros a Ha Hc. apply init_raises_iff; assumption.
Qed.

(** The claim that every malformed address disables the device does not
    hold of the source. *)
Lemma init_malformed_not_always_disabled :
  ~ (forall a : string,
       ~ well_formed_address a -> exists s, __init__ (Some a) = Disabled s).
Proof.
  intros H. destruct (H "localhost") as [s E].
  - intros [Hd _]. discriminate Hd.
  - discriminate E.
Qed.

End Address.

(** ** The handshake flag is never cleared *)

Section Acknowledged.

Lemma acknowledged_kept_refl (s : t) : acknowledged_kept s s.
Proof. intros H. exact H. Qed.

Lemma acknowledged_kept_trans (s1 s2 s3 : t) :
  acknowledged_kept s1 s2 -> acknowledged_kept s2 s3 -> acknowledged_kept s1 s3.
Proof. unfold acknowledged_kept. auto. Qed.

Ltac acks :=
  preserve_by acknowledged_kept_refl acknowledged_kept_trans
    ltac:(unfold acknowledged_kept; intros ?; first [assumption|reflexivity]).

Lemma ret_acks {A} (a : A) : preserves acknowledged_kept (ret a).
Proof. acks. Qed.

Lemma struct_pack_acks b1 b2 b3 b4 ts :
  preserves acknowledged_kept (struct_pack b1 b2 b3 b4 ts).
Proof. unfold struct_pack. acks. Qed.

Lemma connection_send_acks (arg : M (list byte)) :
  preserves acknowledged_kept arg ->
  preserves acknowledged_kept (connection_send arg).
Proof. intros H. unfold connection_send. acks. Qed.

#[local] Hint Resolve ret_acks struct_pack_acks connection_send_acks : serial_regs.

Lemma _get_status_packet_acks : preserves acknowledged_kept _get_status_packet.
Proof. unfold _get_status_packet. acks. Qed.

#[local] Hint Resolve _get_status_packet_acks : serial_regs.

Lemma handler_acks (kind : Z) h b2 b3 b4 ts :
  _handlers kind = Some h -> preserves acknowledged_kept (h b2 b3 b4 ts).
Proof.
  unfold _handlers.
  repeat (destruct (kind =? _); [intros [= <-]|]); try discriminate.
  - unfold _handle_version, BGB_VERSION. acks.
  - unfold _handle_joypad_update. acks.
  - unfold _handle_sync1, _client_data_handler, recv_put. acks.
  - unfold _handle_sync2, _client_data_handler, recv_put. acks.
  - unfold _handle_sync3. acks.
  - unfold _handle_status. acks.
  - unfold _handle_want_disconnect, connection_close. acks.
Qed.

#[local] Hint Resolve handler_acks : serial_regs.

Lemma recv_iteration_acks r : preserves acknowledged_kept (recv_iteration r).
Proof.
  unfold recv_iteration.
  apply preserves_try_except; [exact acknowledged_kept_trans| |].
  - unfold connection_recv. acks.
  - intros [] h; intros [= <-]; acks.
Qed.

#[local] Hint Resolve recv_iteration_acks : serial_regs.

Lemma recv_loop_acks reads : preserves acknowledged_kept (recv_loop reads).
Proof. induction reads as [|r rest IH]; cbn [recv_loop]; acks. Qed.

#[local] Hint Resolve recv_loop_acks : serial_regs.

Lemma recv_thread_acks reads : preserves acknowledged_kept (recv_thread reads).
Proof. unfold recv_thread, BGB_VERSION. acks. Qed.

Lemma stop_acks (d : device) :
  acknowledged_kept (object d) (object (fst (stop d))).
Proof.
  apply stop_preserves; [exact acknowledged_kept_trans| |acks].
  unfold close_connection, connection_close. acks.
Qed.

Lemma tick_resume_acks : preserves acknowledged_kept tick_resume.
Proof. unfold tick_resume, recv_get, shift_in. acks. Qed.

#[local] Hint Resolve tick_resume_acks : serial_regs.

Lemma send_bit_acks : preserves acknowledged_kept send_bit.
Proof. unfold send_bit. apply connection_send_acks. acks. Qed.

#[local] Hint Resolve send_bit_acks : serial_regs.

Lemma tick_acks cycles : preserves acknowledged_kept (tick cycles).
Proof. unfold tick, advance_timestamp. acks. Qed.

(** No transition of the device clears [_got_version]. *)
Lemma step_acknowledged_kept (s s' : t) : step s s' -> acknowledged_kept s s'.
Proof.
  intros Hstep. destruct Hstep.
  - apply tick_acks.
  - apply tick_resume_acks.
  - apply recv_iteration_acks.
  - apply recv_thread_acks.
  - apply stop_acks.
  - intros Hg. exact Hg.
  - intros Hg. exact Hg.
Qed.

End Acknowledged.

(** ** The handshake *)

Section Handshake.

Lemma unpack_truthy (data : list byte) (p : Z * Z * Z * Z * Z) :
  Struct.unpack data = Some p -> truthy_bytes data = true.
Proof. destruct data; [discriminate|reflexivity]. Qed.

(** One pass of the receiver loop on a well-framed packet of a known kind:
    the timestamp is recorded, then the handler runs. *)
Lemma recv_iteration_dispatch (s : t) (sk : socket) (data : list byte)
    (b1 b2 b3 b4 ts : Z) (h : Z -> Z -> Z -> Z -> M (option (list byte))) :
  connection s = Some sk -> closed sk = false ->
  Struct.unpack data = Some (b1, b2, b3, b4, ts) ->
  _handlers b1 = Some h ->
  recv_iteration (ReadData data) s =
    try_except
      (response <- h b2 b3 b4 ts ;;
       match response with
       | Some resp =>
           if truthy_bytes resp
           then connection_send (ret resp) ;; ret Continue
           else ret Continue
       | None => ret Continue
       end)
      (fun e =>
         match e with
         | BlockingIOError => Some (ret Continue)
         | ConnectionResetError => Some (ret Break)
         | _ => None
         end)
      (set_last_received_timestamp ts s).
Proof.
  intros Hc Ho Hu Hh. unfold recv_iteration, connection_recv.
  unfold try_except, bind at 1 2 3, gets at 1, ret at 1, modify at 1.
  rewrite Hc, Ho, (unpack_truthy data _ Hu), Hu, Hh. reflexivity.
Qed.

Lemma handle_version_mismatch (major minor patch ts : Z) (s : t) :
  (major, minor, patch) <> BGB_VERSION ->
  _handle_version major minor patch ts s = (s, Raise BGBVersionMismatch).
Proof.
  intros Hne. unfold _handle_version, BGB_VERSION in *.
  destruct (Z.eqb_spec major 1) as [->|]; [|reflexivity].
  destruct (Z.eqb_spec minor 4) as [->|]; [|reflexivity].
  destruct (Z.eqb_spec patch 0) as [->|]; [|reflexivity].
  contradiction.
Qed.

Lemma handle_version_first (ts : Z) (s : t) (status : list byte) :
  _got_version s = false ->
  Struct.pack 108 1 0 0 (_timestamp s) = Some status ->
  _handle_version 1 4 0 ts s = (set_got_version true s, Ok (Some status)).
Proof.
  intros Hg Hp. unfold _handle_version, _get_status_packet, struct_pack, BGB_VERSION.
  cbn [Z.eqb Pos.eqb andb negb]. run_m. rewrite Hg. cbn [negb fst snd _timestamp set_got_version].
  rewrite Hp. reflexivity.
Qed.

Lemma handle_version_again (ts : Z) (s : t) :
  _got_version s = true -> _handle_version 1 4 0 ts s = (s, Ok None).
Proof.
  intros Hg. unfold _handle_version, BGB_VERSION.
  cbn [Z.eqb Pos.eqb andb negb]. run_m. rewrite Hg. reflexivity.
Qed.

Lemma recv_iteration_version_first (s : t) (sk : socket) (r : read_result)
    (status : list byte) :
  connection s = Some sk -> closed sk = false ->
  _got_version s = false ->
  Struct.pack 108 1 0 0 (_timestamp s) = Some status ->
  version_read r ->
  exists s',
    recv_iteration r s = (s', Ok Continue) /\
    connection s' = Some {| closed := false; sent := sent sk ++ [status] |} /\
    _got_version s' = true /\ quitting s' = quitting s.
Proof.
  intros Hc Ho Hg Hp (data & ts & -> & Hu).
  rewrite (recv_iteration_dispatch s sk data 1 1 4 0 ts _handle_version Hc Ho Hu
             eq_refl).
  unfold try_except, bind at 1.
  rewrite (handle_version_first ts (set_last_received_timestamp ts s) status Hg Hp).
  assert (Ht : truthy_bytes status = true).
  { apply (unpack_truthy status (108, 1, 0, 0, _timestamp s)).
    apply unpack_pack. exact Hp. }
  rewrite Ht. unfold connection_send. run_m.
  cbn [connection set_got_version set_last_received_timestamp].
  rewrite Hc.
  cbn [fst snd connection set_got_version set_last_received_timestamp].
  rewrite Hc, Ho. eexists. split; [reflexivity|].
  repeat split; reflexivity.
Qed.

Lemma recv_iteration_version_again (s : t) (sk : socket) (r : read_result) :
  connection s = Some sk -> closed sk = false ->
  _got_version s = true ->
  version_read r ->
  exists s',
    recv_iteration r s = (s', Ok Continue) /\
    connection s' = Some sk /\ _got_version s' = true /\
    quitting s' = quitting s.
Proof.
  intros Hc Ho Hg (data & ts & -> & Hu).
  rewrite (recv_iteration_dispatch s sk data 1 1 4 0 ts _handle_version Hc Ho Hu
             eq_refl).
  unfold try_except, bind at 1.
  rewrite (handle_version_again ts (set_last_received_timestamp ts s) Hg).
  eexists. split; [reflexivity|]. repeat split; assumption.
Qed.

Lemma recv_loop_cons (r : read_result) (rest : list read_result) (s : t) :
  quitting s = false ->
  recv_loop (r :: rest) s =
    match recv_iteration r s with
    | (s', Ok Continue) => recv_loop rest s'
    | (s', Ok Break) => (s', Ok tt)
    | (s', Raise e) => (s', Raise e)
    | (s', Blocked) => (s', Blocked)
    end.
Proof.
  intros Hq. cbn [recv_loop]. run_m. rewrite Hq.
  destruct (recv_iteration r s) as [s' [[]|e|]]; reflexivity.
Qed.

(** Once the flag is set, Version packets leave the socket as it is. *)
Lemma recv_loop_versions_again (reads : list read_result) :
  Forall version_read reads ->
  forall (s : t) (sk : socket),
    connection s = Some sk -> closed sk = false ->
    _got_version s = true -> quitting s = false ->
    snd (recv_loop reads s) = Blocked /\
    connection (fst (recv_loop reads s)) = Some sk.
Proof.
  induction 1 as [|r reads Hr _ IH]; intros s sk Hc Ho Hg Hq.
  - cbn [recv_loop]. run_m. rewrite Hq. split; [reflexivity|exact Hc].
  - destruct (recv_iteration_version_again s sk r Hc Ho Hg Hr)
      as (s' & E & Hc' & Hg' & Hq').
    rewrite (recv_loop_cons r reads s Hq), E.
    apply (IH s' sk Hc' Ho Hg'). congruence.
Qed.

(** C8. On a connection whose handshake flag is not yet set, with the
    socket open and the local timestamp in the range of the packet field,
    a sequence of Version packets of the implemented version (1, 4, 0) gets
    exactly one reply: the Status packet (kind 108, running = 1, paused = 0,
    supports-reconnect = 0) sent for the first of them.  The handler
    answers the first packet with that Status packet and sets
    [_got_version]; it answers [None] whenever [_got_version] is set; no
    transition of the device clears [_got_version]; and after the whole
    sequence the socket has sent that one packet and nothing else. *)
Theorem version_acknowledged_once (s : t) (sk : socket) (r : read_result)
    (reads : list read_result) :
  connection s = Some sk -> closed sk = false -> quitting s = false ->
  _got_version s = false ->
  0 <= _timestamp s <= 2 ^ 32 - 1 ->
  Forall version_read (r :: reads) ->
  exists status : list byte,
    Struct.unpack status = Some (108, 1, 0, 0, _timestamp s) /\
    (forall ts, _handle_version 1 4 0 ts s =
                  (set_got_version true s, Ok (Some status))) /\
    (forall ts s', _got_version s' = true ->
                   _handle_version 1 4 0 ts s' = (s', Ok None)) /\
    (forall s1 s2, step s1 s2 -> _got_version s1 = true ->
                   _got_version s2 = true) /\
    snd (recv_loop (r :: reads) s) = Blocked /\
    connection (fst (recv_loop (r :: reads) s)) =
      Some {| closed := false; sent := sent sk ++ [status] |}.
Proof.
  intros Hc Ho Hq Hg Hts Hall.
  destruct (proj2 (pack_some_iff 108 1 0 0 (_timestamp s))) as [status Hp].
  { change (2 ^ 32 - 1) with 4294967295 in Hts. lia. }
  exists status. split; [apply unpack_pack; exact Hp|].
  split; [intros ts; apply handle_version_first; assumption|].
  split; [intros ts s' Hg'; apply handle_version_again; exact Hg'|].
  split; [exact step_acknowledged_kept|].
  inversion Hall as [|r0 reads0 Hr Hrest]; subst.
  destruct (recv_iteration_version_first s sk r status Hc Ho Hg Hp Hr)
    as (s' & E & Hc' & Hg' & Hq').
  rewrite (recv_loop_cons r reads s Hq), E.
  apply (recv_loop_versions_again reads Hrest s' _ Hc' eq_refl Hg'). congruence.
Qed.

Lemma version_acknowledged_once_witness :
  let v1 := ReadData [x01; x01; x04; x00; x00; x00; x00; x00] in
  let v2 := ReadData [x01; x01; x04; x00; x07; x00; x00; x00] in
  let s := set_timestamp 3 (connected true) in
  exists status : list byte,
    Struct.unpack status = Some (108, 1, 0, 0, _timestamp s) /\
    (forall ts, _handle_version 1 4 0 ts s =
                  (set_got_version true s, Ok (Some status))) /\
    (forall ts s', _got_version s' = true ->
                   _handle_version 1 4 0 ts s' = (s', Ok None)) /\
    (forall s1 s2, step s1 s2 -> _got_version s1 = true ->
                   _got_version s2 = true) /\
    snd (recv_loop [v1; v2] s) = Blocked /\
    connection (fst (recv_loop [v1; v2] s)) =
      Some {| closed := false; sent := sent fresh_socket ++ [status] |}.
Proof.
  apply (version_acknowledged_once (set_timestamp 3 (connected true))
           fresh_socket); try reflexivity.
  - vm_compute. split; discriminate.
  - repeat constructor; eexists; eexists; (split; [reflexivity|reflexivity]).
Defined.

(** C4, as the source has it.  A Version packet whose version differs from
    (1, 4, 0) makes the handler raise a plain [Exception]; no [except]
    clause of the receiver loop matches it, so the pass and the loop end
    with that exception and the receiver thread dies.  The last received
    timestamp has been recorded; nothing else changes: no Status packet is
    sent, the socket is not closed and stays the device's connection. *)
Theorem version_mismatch_ends_receiver (s : t) (sk : socket) (data : list byte)
    (major minor patch ts : Z) :
  connection s = Some sk -> closed sk = false ->
  Struct.unpack data = Some (1, major, minor, patch, ts) ->
  (major, minor, patch) <> BGB_VERSION ->
  recv_iteration (ReadData data) s =
    (set_last_received_timestamp ts s, Raise BGBVersionMismatch) /\
  (quitting s = false ->
   forall rest, recv_loop (ReadData data :: rest) s =
                  (set_last_received_timestamp ts s, Raise BGBVersionMismatch)) /\
  connection (set_last_received_timestamp ts s) = Some sk.
Proof.
  intros Hc Ho Hu Hne.
  assert (E : recv_iteration (ReadData data) s =
                (set_last_received_timestamp ts s, Raise BGBVersionMismatch)).
  { rewrite (recv_iteration_dispatch s sk data 1 major minor patch ts
               _handle_version Hc Ho Hu eq_refl).
    unfold try_except, bind. rewrite handle_version_mismatch by exact Hne.
    reflexivity. }
  split; [exact E|]. split; [|exact Hc].
  intros Hq rest. rewrite (recv_loop_cons _ rest s Hq), E. reflexivity.
Qed.

Lemma version_mismatch_ends_receiver_witness :
  let data := [x01; x02; x00; x00; x09; x00; x00; x00] in
  let s := connected true in
  recv_iteration (ReadData data) s =
    (set_last_received_timestamp 9 s, Raise BGBVersionMismatch) /\
  (quitting s = false ->
   forall rest, recv_loop (ReadData data :: rest) s =
                  (set_last_received_timestamp 9 s, Raise BGBVersionMismatch)) /\
  connection (set_last_received_timestamp 9 s) = Some fresh_socket.
Proof.
  apply (version_mismatch_ends_receiver (connected true) fresh_socket
           [x01; x02; x00; x00; x09; x00; x00; x00] 2 0 0 9);
    try reflexivity.
  unfold BGB_VERSION. intros H. discriminate H.
Defined.

(** The claim that a version mismatch closes the link and disables the
    device does not hold of the source: after a Version 2.0.0 packet the
    device still has its connection, the socket is not closed, and [tick]
    does not treat the device as disabled (it goes on counting cycles
    instead of pinning [SB] to [0xFF]). *)
Lemma version_mismatch_keeps_link_open :
  let data := [x01; x02; x00; x00; x09; x00; x00; x00] in
  let s' := fst (recv_iteration (ReadData data) (connected true)) in
  Struct.unpack data = Some (1, 2, 0, 0, 9) /\
  snd (recv_iteration (ReadData data) (connected true))
    = Raise BGBVersionMismatch /\
  connection s' = Some {| closed := false; sent := [] |} /\
  connection s' <> None /\
  SB (fst (tick 4 s')) <> 0xFF /\
  cycles_count (fst (tick 4 s')) = 4.
Proof.
  cbv zeta. split; [reflexivity|]. split; [reflexivity|].
  split; [reflexivity|]. split; [discriminate|].
  split; [discriminate|reflexivity].
Qed.

(** C10. [_handle_sync1] and [_handle_sync2] are the same function of
    their arguments and of the device: both put the pair [(data,
    timestamp)] at the end of the queue and build the same reply, a packet
    whose kind is 104 on the master and 105 otherwise, whose data byte is
    the top bit of [SB] and whose control byte is [SC] (the call raises
    [struct.error] when [SC] or the timestamp does not fit its field).  The
    arguments [_control] and [_b4] are not used. *)
Theorem sync_handlers_agree (data control b4 timestamp : Z) (s : t) :
  _handle_sync1 data control b4 timestamp s
    = _handle_sync2 data control b4 timestamp s /\
  recv (fst (_handle_sync1 data control b4 timestamp s))
    = recv s ++ [(data, timestamp)] /\
  recv (fst (_handle_sync2 data control b4 timestamp s))
    = recv s ++ [(data, timestamp)] /\
  snd (_handle_sync1 data control b4 timestamp s) =
    match Struct.pack (if is_master s then 104 else 105)
            (Z.land (Z.shiftr (SB s) 7) 1) (SC s) 0 (_timestamp s) with
    | Some p => Ok (Some p)
    | None => Raise StructError
    end /\
  (forall p, snd (_handle_sync2 data control b4 timestamp s) = Ok (Some p) ->
             exists body, map Struct.byte_val p
                          = (if is_master s then 104 else 105) :: body) /\
  (forall control' b4',
     _handle_sync1 data control' b4' timestamp s
       = _handle_sync1 data control b4 timestamp s) /\
  (exists h1 h2, _handlers 104 = Some h1 /\ _handlers 105 = Some h2 /\
                 forall d c b ts s0, h1 d c b ts s0 = h2 d c b ts s0).
Proof.
  assert (E : _handle_sync1 data control b4 timestamp s =
              match Struct.pack (if is_master s then 104 else 105)
                      (Z.land (Z.shiftr (SB s) 7) 1) (SC s) 0 (_timestamp s) with
              | Some p => (set_recv (recv s ++ [(data, timestamp)]) s, Ok (Some p))
              | None => (set_recv (recv s ++ [(data, timestamp)]) s,
                         Raise StructError)
              end).
  { unfold _handle_sync1, _client_data_handler, recv_put, struct_pack. run_m.
    cbn [is_master SC SB _timestamp set_recv].
    destruct (Struct.pack _ _ _ _ _); reflexivity. }
  assert (E12 : _handle_sync1 data control b4 timestamp s
                = _handle_sync2 data control b4 timestamp s) by reflexivity.
  split; [exact E12|].
  split; [rewrite E; destruct (Struct.pack _ _ _ _ _); reflexivity|].
  split; [rewrite <- E12, E; destruct (Struct.pack _ _ _ _ _); reflexivity|].
  split; [rewrite E; destruct (Struct.pack _ _ _ _ _); reflexivity|].
  split.
  - intros p. rewrite <- E12, E.
    destruct (Struct.pack _ _ _ _ _) as [q|] eqn:Hq; [|discriminate].
    cbn [snd]. intros [= <-].
    assert (Hr : exists q', Struct.pack (if is_master s then 104 else 105)
                   (Z.land (Z.shiftr (SB s) 7) 1) (SC s) 0 (_timestamp s)
                 = Some q') by (eexists; exact Hq).
    apply pack_some_iff in Hr. destruct Hr as (Hk & _).
    unfold Struct.pack in Hq. destruct (_ && _); [|discriminate].
    injection Hq as <-. eexists. cbn [map app].
    rewrite (byte_val_u8 _ Hk). reflexivity.
  - split; [reflexivity|].
    exists _handle_sync1, _handle_sync2. repeat split; reflexivity.
Qed.

End Handshake.

(** ** Fields that computations leave alone *)

Section Frames.

Lemma keeps_refl {A} (f : t -> A) (s : t) : keeps f s s.
Proof. reflexivity. Qed.

Lemma keeps_trans {A} (f : t -> A) (s1 s2 s3 : t) :
  keeps f s1 s2 -> keeps f s2 s3 -> keeps f s1 s3.
Proof. unfold keeps. congruence. Qed.

Lemma connection_kept_refl (s : t) : connection_kept s s.
Proof. intros H. exact H. Qed.

Lemma connection_kept_trans (s1 s2 s3 : t) :
  connection_kept s1 s2 -> connection_kept s2 s3 -> connection_kept s1 s3.
Proof. unfold connection_kept. auto. Qed.

End Frames.

(** One step through the structure of a computation, the [try] statement
    and the handler table included. *)
Ltac frame_step :=
  match goal with
  | |- preserves _ (ret _) => apply preserves_ret
  | |- preserves _ (raise _) => apply preserves_raise
  | |- preserves _ block => apply preserves_block
  | |- preserves _ (gets _) => apply preserves_gets
  | |- preserves _ (bind _ _) => apply preserves_bind; [| |intros ?]
  | |- preserves _ (try_except _ _) =>
      apply preserves_try_except; [| |intros [] ? [= <-]]
  | |- preserves _ (match (if ?c then _ else _) with _ => _ end) =>
      destruct c eqn:?
  | |- preserves _ (match ?x with _ => _ end) => destruct x eqn:?
  end.

(** The definitions of the methods, opened down to the monad. *)
Ltac open_methods :=
  unfold tick, tick_resume, shift_in, recv_get, send_bit, advance_timestamp,
    close_connection, recv_thread, recv_iteration, connection_recv, _handlers,
    _handle_version, _handle_joypad_update, _handle_sync1, _handle_sync2,
    _handle_sync3, _handle_status, _handle_want_disconnect,
    _client_data_handler, _get_status_packet, recv_put, connection_send,
    connection_close, struct_pack, BGB_VERSION.

(** Shows that a computation leaves a field alone. *)
Ltac keep :=
  open_methods;
  repeat first
    [ apply keeps_refl
    | exact (keeps_trans _)
    | frame_step
    | apply preserves_modify; intros ?; reflexivity
    | solve [eauto with serial_regs] ].

(** Shows that a computation does not drop the connection. *)
Ltac keep_connection :=
  open_methods;
  repeat first
    [ apply connection_kept_refl
    | exact connection_kept_trans
    | frame_step
    | apply preserves_modify; intros ?; unfold connection_kept;
      cbn [connection set_connection set_SC set_SB set_trans_bits
           set_cycles_count set_timestamp set_ts_cycles set_got_version
           set_last_received_timestamp set_recv set_quitting];
      first [tauto | discriminate | intros _; discriminate]
    | solve [eauto with serial_regs] ].

(** ** The receiver loop at the edges of its input *)

Section ReceiverEdges.

(** One pass of the loop on an open socket when the read brings no packet. *)
Lemma recv_iteration_no_packet (s : t) (sk : socket) :
  connection s = Some sk -> closed sk = false ->
  recv_iteration (ReadData []) s = (s, Ok Break) /\
  recv_iteration ReadConnectionReset s = (s, Ok Break) /\
  recv_iteration ReadBlockingIOError s = (s, Ok Continue).
Proof.
  intros Hc Ho. unfold recv_iteration, connection_recv. run_m.
  rewrite Hc, Ho. repeat split; reflexivity.
Qed.

(** One pass of the loop on an open socket when the bytes read are not a
    packet. *)
Lemma recv_iteration_bad_frame (s : t) (sk : socket) (data : list byte) :
  connection s = Some sk -> closed sk = false ->
  data <> [] -> Struct.unpack data = None ->
  recv_iteration (ReadData data) s = (s, Raise StructError).
Proof.
  intros Hc Ho Hne Hu. unfold recv_iteration, connection_recv. run_m.
  rewrite Hc, Ho. destruct data as [|c data]; [contradiction|].
  cbn [truthy_bytes negb fst snd]. rewrite Hu. reflexivity.
Qed.

(** The receiver loop ends without an exception, and without touching the
    device, when a read returns no bytes (the peer has closed) or meets a
    connection reset; the reads that follow are not made.  In particular
    the socket is not closed and stays the device's connection.  A read
    that meets [BlockingIOError] is skipped. *)
Theorem recv_loop_ends_on_peer_close (s : t) (sk : socket)
    (rest : list read_result) :
  connection s = Some sk -> closed sk = false -> quitting s = false ->
  recv_loop (ReadData [] :: rest) s = (s, Ok tt) /\
  recv_loop (ReadConnectionReset :: rest) s = (s, Ok tt) /\
  recv_loop (ReadBlockingIOError :: rest) s = recv_loop rest s.
Proof.
  intros Hc Ho Hq.
  destruct (recv_iteration_no_packet s sk Hc Ho) as (E1 & E2 & E3).
  rewrite !(recv_loop_cons _ rest s Hq), E1, E2, E3. repeat split; reflexivity.
Qed.

Lemma recv_loop_ends_on_peer_close_witness :
  let s := connected true in
  let rest := [ReadData [x01; x01; x04; x00; x00; x00; x00; x00]] in
  recv_loop (ReadData [] :: rest) s = (s, Ok tt) /\
  recv_loop (ReadConnectionReset :: rest) s = (s, Ok tt) /\
  recv_loop (ReadBlockingIOError :: rest) s = recv_loop rest s.
Proof.
  apply (recv_loop_ends_on_peer_close (connected true) fresh_socket);
    reflexivity.
Defined.

(** A read that returns some bytes, but not exactly 8, ends the receiver
    thread with [struct.error]: no [except] clause catches it.  The device
    is left as it was. *)
Theorem recv_short_read_ends_thread (s : t) (sk : socket) (data : list byte)
    (rest : list read_result) :
  connection s = Some sk -> closed sk = false -> quitting s = false ->
  data <> [] -> List.length data <> 8%nat ->
  recv_iteration (ReadData data) s = (s, Raise StructError) /\
  recv_loop (ReadData data :: rest) s = (s, Raise StructError).
Proof.
  intros Hc Ho Hq Hne Hlen.
  assert (Hu : Struct.unpack data = None).
  { unfold Struct.unpack.
    destruct data as [|c1 [|c2 [|c3 [|c4 [|t0 [|t1 [|t2 [|t3 [|? ?]]]]]]]]];
      try reflexivity.
    exfalso. apply Hlen. reflexivity. }
  pose proof (recv_iteration_bad_frame s sk data Hc Ho Hne Hu) as E.
  split; [exact E|]. rewrite (recv_loop_cons _ rest s Hq), E. reflexivity.
Qed.

Lemma recv_short_read_ends_thread_witness :
  let s := connected false in
  let data := [x68; x01; x80] in
  recv_iteration (ReadData data) s = (s, Raise StructError) /\
  recv_loop (ReadData data :: []) s = (s, Raise StructError).
Proof.
  apply (recv_short_read_ends_thread (connected false) fresh_socket
           [x68; x01; x80] []); try reflexivity; discriminate.
Defined.

(** The fields of a decoded packet are in the ranges of the format. *)
Lemma unpack_range (data : list byte) (b1 b2 b3 b4 ts : Z) :
  Struct.unpack data = Some (b1, b2, b3, b4, ts) ->
  0 <= b1 <= 255 /\ 0 <= b2 <= 255 /\ 0 <= b3 <= 255 /\ 0 <= b4 <= 255 /\
  0 <= ts <= 4294967295.
Proof.
  intros Hu. apply pack_some_iff. exists data. apply pack_unpack. exact Hu.
Qed.

Lemma handler_keeps_last (kind : Z) h b2 b3 b4 ts :
  _handlers kind = Some h ->
  preserves (keeps _last_received_timestamp) (h b2 b3 b4 ts).
Proof.
  unfold _handlers.
  repeat (destruct (kind =? _); [intros [= <-]|]); try discriminate; keep.
Qed.

(** A packet whose kind is not in the handler table is ignored: the pass
    records its timestamp and the loop goes on; nothing is sent, nothing is
    queued and no other field changes. *)
Theorem recv_unknown_kind_ignored (s : t) (sk : socket) (data : list byte)
    (b1 b2 b3 b4 ts : Z) :
  connection s = Some sk -> closed sk = false ->
  Struct.unpack data = Some (b1, b2, b3, b4, ts) ->
  ~ In b1 [1; 101; 104; 105; 106; 108; 109] ->
  recv_iteration (ReadData data) s
    = (set_last_received_timestamp ts s, Ok Continue).
Proof.
  intros Hc Ho Hu Hk.
  assert (Hh : _handlers b1 = None).
  { unfold _handlers. cbn [In] in Hk.
    repeat match goal with
           | |- context [?k =? ?n] =>
               destruct (Z.eqb_spec k n); [exfalso; apply Hk; subst; tauto|]
           end.
    reflexivity. }
  unfold recv_iteration, connection_recv. run_m. rewrite Hc, Ho.
  rewrite (unpack_truthy data _ Hu). cbn [negb fst snd]. rewrite Hu.
  cbn [fst snd]. rewrite Hh. reflexivity.
Qed.

Lemma recv_unknown_kind_ignored_witness :
  let s := connected true in
  recv_iteration (ReadData [x02; x01; x02; x03; x2a; x00; x00; x00]) s
    = (set_last_received_timestamp 42 s, Ok Continue).
Proof.
  apply (recv_unknown_kind_ignored (connected true) fresh_socket
           [x02; x01; x02; x03; x2a; x00; x00; x00] 2 1 2 3 42);
    try reflexivity.
  cbn [In]. intros H. repeat destruct H as [H|H]; try discriminate H. exact H.
Defined.

(** Every well-framed packet read from an open socket sets
    [_last_received_timestamp] to the packet's timestamp, whatever its kind
    and however its handler ends (reply, no reply, or exception); the
    value is in the range of the 32-bit field, bit 31 included. *)
Theorem recv_records_timestamp (s : t) (sk : socket) (data : list byte)
    (b1 b2 b3 b4 ts : Z) :
  connection s = Some sk -> closed sk = false ->
  Struct.unpack data = Some (b1, b2, b3, b4, ts) ->
  _last_received_timestamp (fst (recv_iteration (ReadData data) s)) = ts /\
  0 <= ts <= 2 ^ 32 - 1.
Proof.
  intros Hc Ho Hu. split; [|apply (unpack_range data b1 b2 b3 b4 ts Hu)].
  destruct (_handlers b1) as [h|] eqn:Hh.
  - rewrite (recv_iteration_dispatch s sk data b1 b2 b3 b4 ts h Hc Ho Hu Hh).
    assert (P : preserves (keeps _last_received_timestamp)
                  (try_except
                     (response <- h b2 b3 b4 ts ;;
                      match response with
                      | Some resp =>
                          if truthy_bytes resp
                          then connection_send (ret resp) ;; ret Continue
                          else ret Continue
                      | None => ret Continue
                      end)
                     (fun e =>
                        match e with
                        | BlockingIOError => Some (ret Continue)
                        | ConnectionResetError => Some (ret Break)
                        | _ => None
                        end))).
    { pose proof (handler_keeps_last b1 h b2 b3 b4 ts Hh). keep. }
    rewrite (P (set_last_received_timestamp ts s)). reflexivity.
  - unfold recv_iteration, connection_recv. run_m. rewrite Hc, Ho.
    rewrite (unpack_truthy data _ Hu). cbn [negb fst snd]. rewrite Hu.
    cbn [fst snd]. rewrite Hh. reflexivity.
Qed.

Lemma recv_records_timestamp_witness :
  let data := [x01; x02; x00; x00; x00; x00; x00; x80] in
  _last_received_timestamp (fst (recv_iteration (ReadData data) (connected true)))
    = 2147483648 /\
  0 <= 2147483648 <= 2 ^ 32 - 1.
Proof.
  apply (recv_records_timestamp (connected true) fresh_socket
           [x01; x02; x00; x00; x00; x00; x00; x80] 1 2 0 0 2147483648);
    reflexivity.
Defined.

End ReceiverEdges.

(** ** The other handlers, seen from the receiver loop *)

Section Handlers.

(** The socket after one more [send]. *)
Lemma connection_send_open (data : list byte) (s : t) (sk : socket) :
  connection s = Some sk -> closed sk = false ->
  connection_send (ret data) s =
    (set_connection (Some {| closed := false; sent := sent sk ++ [data] |}) s,
     Ok tt).
Proof.
  intros Hc Ho. unfold connection_send. run_m. rewrite Hc. cbn [fst snd].
  rewrite Hc, Ho. reflexivity.
Qed.

(** Sync3 is an echo: the pass answers a packet [(106, b2, b3, b4, ts)]
    with exactly one packet, which decodes to [(106, b2, b3, b4, local
    timestamp)]; it records [ts] and changes nothing else (nothing is
    queued). *)
Theorem recv_sync3_echo (s : t) (sk : socket) (data : list byte)
    (b2 b3 b4 ts : Z) :
  connection s = Some sk -> closed sk = false ->
  0 <= _timestamp s <= 2 ^ 32 - 1 ->
  Struct.unpack data = Some (106, b2, b3, b4, ts) ->
  exists reply : list byte,
    Struct.unpack reply = Some (106, b2, b3, b4, _timestamp s) /\
    recv_iteration (ReadData data) s =
      (set_connection (Some {| closed := false; sent := sent sk ++ [reply] |})
         (set_last_received_timestamp ts s),
       Ok Continue).
Proof.
  intros Hc Ho Hts Hu.
  destruct (unpack_range data _ _ _ _ _ Hu) as (_ & H2 & H3 & H4 & _).
  destruct (proj2 (pack_some_iff 106 b2 b3 b4 (_timestamp s))) as [reply Hp].
  { change (2 ^ 32 - 1) with 4294967295 in Hts. lia. }
  exists reply. split; [apply unpack_pack; exact Hp|].
  rewrite (recv_iteration_dispatch s sk data 106 b2 b3 b4 ts _handle_sync3
             Hc Ho Hu eq_refl).
  unfold try_except, bind at 1, _handle_sync3, struct_pack. run_m.
  cbn [_timestamp set_last_received_timestamp]. rewrite Hp. cbn [fst snd].
  rewrite (unpack_truthy reply _ (unpack_pack _ _ _ _ _ _ Hp)).
  rewrite (connection_send_open reply _ sk) by assumption. reflexivity.
Qed.

Lemma recv_sync3_echo_witness :
  let s := set_timestamp 5 (connected true) in
  exists reply : list byte,
    Struct.unpack reply = Some (106, 1, 2, 3, _timestamp s) /\
    recv_iteration (ReadData [x6a; x01; x02; x03; x09; x00; x00; x00]) s =
      (set_connection
         (Some {| closed := false; sent := sent fresh_socket ++ [reply] |})
         (set_last_received_timestamp 9 s),
       Ok Continue).
Proof.
  apply (recv_sync3_echo (set_timestamp 5 (connected true)) fresh_socket
           [x6a; x01; x02; x03; x09; x00; x00; x00] 1 2 3 9);
    try reflexivity.
  vm_compute. split; discriminate.
Defined.

Lemma recv_iteration_status (s : t) (sk : socket) (r : read_result)
    (status : list byte) :
  connection s = Some sk -> closed sk = false ->
  Struct.pack 108 1 0 0 (_timestamp s) = Some status ->
  status_read r ->
  exists s',
    recv_iteration r s = (s', Ok Continue) /\
    connection s' = Some {| closed := false; sent := sent sk ++ [status] |} /\
    _timestamp s' = _timestamp s /\ quitting s' = quitting s /\
    recv s' = recv s /\ _got_version s' = _got_version s.
Proof.
  intros Hc Ho Hp (data & b2 & b3 & b4 & ts & -> & Hu).
  rewrite (recv_iteration_dispatch s sk data 108 b2 b3 b4 ts _handle_status
             Hc Ho Hu eq_refl).
  unfold try_except, bind at 1, _handle_status, _get_status_packet, struct_pack.
  run_m. cbn [_timestamp set_last_received_timestamp]. rewrite Hp.
  cbn [fst snd].
  rewrite (unpack_truthy status _ (unpack_pack _ _ _ _ _ _ Hp)).
  rewrite (connection_send_open status _ sk) by assumption.
  eexists. split; [reflexivity|]. repeat split; reflexivity.
Qed.

Lemma recv_loop_status (reads : list read_result) (status : list byte) :
  Forall status_read reads ->
  forall (s : t) (sk : socket),
    connection s = Some sk -> closed sk = false -> quitting s = false ->
    Struct.pack 108 1 0 0 (_timestamp s) = Some status ->
    snd (recv_loop reads s) = Blocked /\
    connection (fst (recv_loop reads s)) =
      Some {| closed := false;
              sent := sent sk ++ repeat status (List.length reads) |} /\
    recv (fst (recv_loop reads s)) = recv s /\
    _got_version (fst (recv_loop reads s)) = _got_version s.
Proof.
  induction 1 as [|r reads Hr _ IH]; intros s sk Hc Ho Hq Hp.
  - cbn [recv_loop]. run_m. rewrite Hq. cbn [fst snd List.length repeat].
    rewrite app_nil_r, Hc, <- Ho. destruct sk. repeat split; reflexivity.
  - destruct (recv_iteration_status s sk r status Hc Ho Hp Hr)
      as (s' & E & Hc' & Hts' & Hq' & Hr' & Hg').
    rewrite (recv_loop_cons r reads s Hq), E.
    destruct (IH s' _ Hc' eq_refl) as (I1 & I2 & I3 & I4); try congruence.
    rewrite I1, I2, I3, I4. cbn [sent List.length repeat].
    rewrite <- app_assoc. repeat split; congruence.
Qed.

(** Every Status packet is answered, not only the first: after a sequence
    of Status packets the socket has sent one Status packet [(108, 1, 0, 0,
    local timestamp)] per packet received.  The handshake flag and the
    queue are untouched. *)
Theorem status_always_answered (s : t) (sk : socket)
    (reads : list read_result) :
  connection s = Some sk -> closed sk = false -> quitting s = false ->
  0 <= _timestamp s <= 2 ^ 32 - 1 ->
  Forall status_read reads ->
  exists status : list byte,
    Struct.unpack status = Some (108, 1, 0, 0, _timestamp s) /\
    connection (fst (recv_loop reads s)) =
      Some {| closed := false;
              sent := sent sk ++ repeat status (List.length reads) |} /\
    recv (fst (recv_loop reads s)) = recv s /\
    _got_version (fst (recv_loop reads s)) = _got_version s.
Proof.
  intros Hc Ho Hq Hts Hall.
  destruct (proj2 (pack_some_iff 108 1 0 0 (_timestamp s))) as [status Hp].
  { change (2 ^ 32 - 1) with 4294967295 in Hts. lia. }
  exists status. split; [apply unpack_pack; exact Hp|].
  apply (recv_loop_status reads status Hall s sk Hc Ho Hq Hp).
Qed.

Lemma status_always_answered_witness :
  let st := ReadData [x6c; x01; x00; x00; x00; x00; x00; x00] in
  let s := connected true in
  exists status : list byte,
    Struct.unpack status = Some (108, 1, 0, 0, _timestamp s) /\
    connection (fst (recv_loop [st; st; st] s)) =
      Some {| closed := false;
              sent := sent fresh_socket ++ repeat status 3 |} /\
    recv (fst (recv_loop [st; st; st] s)) = recv s /\
    _got_version (fst (recv_loop [st; st; st] s)) = _got_version s.
Proof.
  apply (status_always_answered (connected true) fresh_socket
           [ReadData [x6c; x01; x00; x00; x00; x00; x00; x00];
            ReadData [x6c; x01; x00; x00; x00; x00; x00; x00];
            ReadData [x6c; x01; x00; x00; x00; x00; x00; x00]]);
    try reflexivity.
  - vm_compute. split; discriminate.
  - repeat constructor; do 5 eexists; (split; reflexivity).
Defined.

End Handlers.

(** ** Disconnecting and stopping *)

Section Teardown.

(** [send_bit] on a socket that was closed on this side. *)
Lemma send_bit_closed (s : t) (sk : socket) :
  connection s = Some sk -> closed sk = true ->
  0 <= SC s <= 255 -> 0 <= _timestamp s <= 2 ^ 32 - 1 ->
  send_bit s = (s, Raise OSError).
Proof.
  intros Hc Ho Hsc Hts. rewrite (send_bit_run s sk Hc).
  destruct (proj2 (pack_some_iff (if is_master s then 104 else 105)
                     (Z.land (Z.shiftr (SB s) 7) 1) (SC s) 0 (_timestamp s)))
    as [p Hp].
  { rewrite shiftr_7_land_1. change (2 ^ 32 - 1) with 4294967295 in Hts.
    destruct (is_master s), (Z.testbit (SB s) 7); lia. }
  rewrite Hp, Ho. reflexivity.
Qed.

(** A WantDisconnect packet closes the socket and gets no reply, but the
    device keeps the closed socket as its connection.  The next pass of the
    receiver loop then ends the thread with [OSError] (which no [except]
    clause catches), and a [tick] that reaches a transfer raises [OSError]
    from [send_bit] in the calling thread, before it takes anything from
    the queue. *)
Theorem want_disconnect_leaves_closed_socket (s : t) (sk : socket)
    (data : list byte) (b2 b3 b4 ts : Z) :
  connection s = Some sk -> closed sk = false ->
  Struct.unpack data = Some (109, b2, b3, b4, ts) ->
  let s' := fst (recv_iteration (ReadData data) s) in
  recv_iteration (ReadData data) s =
    (set_connection (Some {| closed := true; sent := sent sk |})
       (set_last_received_timestamp ts s),
     Ok Continue) /\
  (forall r, recv_iteration r s' = (s', Raise OSError)) /\
  (forall cycles,
     cycles_to_transmit (clocked cycles s') = 0 ->
     _timestamp (clocked cycles s') <= ts ->
     0 <= SC s <= 255 -> 0 <= _timestamp (clocked cycles s') <= 2 ^ 32 - 1 ->
     tick cycles s' = (clocked cycles s', Raise OSError)).
Proof.
  intros Hc Ho Hu. cbv zeta.
  assert (E : recv_iteration (ReadData data) s =
    (set_connection (Some {| closed := true; sent := sent sk |})
       (set_last_received_timestamp ts s),
     Ok Continue)).
  { rewrite (recv_iteration_dispatch s sk data 109 b2 b3 b4 ts
               _handle_want_disconnect Hc Ho Hu eq_refl).
    unfold try_except, _handle_want_disconnect, connection_close. run_m.
    cbn [connection set_last_received_timestamp]. rewrite Hc. reflexivity. }
  rewrite E. cbn [fst]. split; [reflexivity|].
  set (s' := set_connection _ _).
  assert (Hc' : connection s' = Some {| closed := true; sent := sent sk |})
    by reflexivity.
  split.
  - intros r. unfold recv_iteration, connection_recv. run_m. rewrite Hc'.
    reflexivity.
  - intros cycles Hthr Hgate Hsc Hts.
    pose proof (clocked_fields cycles s') as F. cbv zeta in F.
    destruct F as (_ & _ & _ & Fsc & _ & Fconn & _ & _ & _ & Flast & _).
    rewrite (tick_connected cycles s' _ Hc'). cbv zeta.
    set (s1 := clocked cycles s') in *.
    assert (Hbit : truthy (Z.land (Z.shiftr (SC s1) 7) 1) = true).
    { rewrite truthy_bit7. unfold cycles_to_transmit in Hthr.
      rewrite Fconn, Hc' in Hthr.
      destruct (truthy (Z.land (SC s1) 0x80)); [reflexivity|discriminate]. }
    rewrite Hthr, Hbit, Flast. cbn [Z.eqb].
    replace (_last_received_timestamp s' <? _timestamp s1) with false
      by (symmetry; apply Z.ltb_ge; exact Hgate).
    assert (Hc1 : connection s1 = Some {| closed := true; sent := sent sk |})
      by (rewrite Fconn; exact Hc').
    assert (Hsc1 : 0 <= SC s1 <= 255) by (rewrite Fsc; exact Hsc).
    unfold bind. rewrite (send_bit_closed s1 _ Hc1 eq_refl Hsc1 Hts).
    reflexivity.
Qed.

Lemma want_disconnect_leaves_closed_socket_witness :
  let s := set_SC 0x81 (connected true) in
  let data := [x6d; x00; x00; x00; x07; x00; x00; x00] in
  let s' := fst (recv_iteration (ReadData data) s) in
  recv_iteration (ReadData data) s =
    (set_connection (Some {| closed := true; sent := sent fresh_socket |})
       (set_last_received_timestamp 7 s),
     Ok Continue) /\
  (forall r, recv_iteration r s' = (s', Raise OSError)) /\
  (forall cycles,
     cycles_to_transmit (clocked cycles s') = 0 ->
     _timestamp (clocked cycles s') <= 7 ->
     0 <= SC s <= 255 -> 0 <= _timestamp (clocked cycles s') <= 2 ^ 32 - 1 ->
     tick cycles s' = (clocked cycles s', Raise OSError)).
Proof.
  apply (want_disconnect_leaves_closed_socket (set_SC 0x81 (connected true))
           fresh_socket [x6d; x00; x00; x00; x07; x00; x00; x00] 0 0 0 7);
    reflexivity.
Defined.

(** [stop] returns normally only when the receiver thread has already
    ended.  While the thread runs, [stop] waits in [join]; on a device that
    never connected there is no [recv_t] and [stop] raises
    [AttributeError] there; and a call after one that got past line 290
    raises [AttributeError] at line 288, since [binding_connection] is then
    [None].  However it ends, [quitting] is set and the registers,
    counters and queue are untouched.  When line 289 is reached the device
    has no connection, and from then on [tick] pins [SB] to [0xFF] and
    returns "no transfer". *)
Theorem stop_disables (d : device) :
  let d' := fst (stop d) in
  quitting (object d') = true /\
  same_registers (object d) (object d') /\
  recv (object d') = recv (object d) /\
  recv_t d' = recv_t d /\
  (binding_connection d = Assigned None ->
   snd (stop d) = Raise AttributeError /\
   binding_connection d' = Assigned None /\
   (connection (object d) = None -> connection (object d') = None) /\
   (forall sk, connection (object d) = Some sk ->
               connection (object d')
               = Some {| closed := true; sent := sent sk |})) /\
  (binding_connection d <> Assigned None ->
   snd (stop d) = match recv_t d with
                  | Unassigned => Raise AttributeError
                  | Assigned Running => Blocked
                  | Assigned Ended => Ok tt
                  end /\
   connection (object d') = None /\
   binding_connection d' = Assigned None /\
   (forall cycles,
      tick cycles (object d') = (set_SB 0xFF (object d'), Ok false)) /\
   stop d' = (d', Raise AttributeError)) /\
  snd (stop disabled_device) = Raise AttributeError /\
  (forall serial_bind, snd (stop (connected_device serial_bind)) = Blocked).
Proof.
  cbv zeta.
  destruct d as [[sc sb c tb cc ct ts tsc gv lr q qt m] b r].
  assert (D : snd (stop disabled_device) = Raise AttributeError)
    by reflexivity.
  assert (C : forall serial_bind,
             snd (stop (connected_device serial_bind)) = Blocked)
    by (intros [|]; reflexivity).
  destruct c as [sk|]; destruct b as [|[bs|]]; destruct r as [|[|]];
    (split; [reflexivity|]);
    (split; [unfold same_registers; repeat split; reflexivity|]);
    (split; [reflexivity|]); (split; [reflexivity|]);
    (split; [|split; [|split; [exact D|exact C]]]);
    intros B; try discriminate B; try (exfalso; apply B; reflexivity);
    (split; [reflexivity|]); (split; [reflexivity|]).
  all: try (split; [|split; [intros cycles; apply tick_no_connection|];
                     reflexivity]).
  all: try reflexivity.
  all: split; [intros X; try discriminate X; reflexivity
              |intros sk' X; try discriminate X; injection X as <-;
               reflexivity].
Qed.

End Teardown.

(** ** More on the scheduler *)

Section SchedulerMore.

(** How a [tick] of a connected device can go: from the object at the
    threshold test, possibly with one packet sent, it either ends there
    (not with [True]) or shifts in the oldest item of the queue. *)
Lemma tick_connected_cases (cycles : Z) (s : t) (sk : socket) :
  connection s = Some sk ->
  exists s2,
    (s2 = clocked cycles s \/ s2 = fst (send_bit (clocked cycles s))) /\
    ((fst (tick cycles s) = s2 /\ snd (tick cycles s) <> Ok true) \/
     (exists byte ts rest,
        recv s = (byte, ts) :: rest /\
        tick cycles s = shift_in (byte, ts) (set_recv rest s2))).
Proof.
  intros Hc. rewrite (tick_connected cycles s sk Hc). cbv zeta.
  pose proof (clocked_fields cycles s) as F. cbv zeta in F.
  destruct F as (_ & _ & _ & _ & _ & _ & _ & _ & _ & _ & Frecv & _).
  set (s1 := clocked cycles s) in *.
  destruct (cycles_to_transmit s1 =? 0);
    [|exists s1; split; [left; reflexivity|left; split; [reflexivity|discriminate]]].
  destruct (_last_received_timestamp s1 <? _timestamp s1);
    [exists s1; split; [left; reflexivity|left; split; [reflexivity|discriminate]]|].
  assert (Hres : forall s2, recv s2 = recv s1 ->
            (fst (tick_resume s2) = s2 /\ snd (tick_resume s2) <> Ok true) \/
            (exists byte ts rest,
               recv s = (byte, ts) :: rest /\
               tick_resume s2 = shift_in (byte, ts) (set_recv rest s2))).
  { intros s2 Hq. rewrite tick_resume_run.
    destruct (recv s2) as [|[byte ts] rest] eqn:E.
    - left. split; [reflexivity|discriminate].
    - right. exists byte, ts, rest. split; [congruence|reflexivity]. }
  unfold bind. destruct (truthy _).
  - exists (fst (send_bit s1)). split; [right; reflexivity|].
    pose proof (send_bit_frame s1) as G. cbv zeta in G.
    destruct (send_bit s1) as [s2 [[]|e|]]; cbn [fst snd] in *;
      try (left; split; [reflexivity|discriminate]).
    apply Hres. tauto.
  - exists s1. split; [left; reflexivity|]. unfold ret. apply Hres. reflexivity.
Qed.

(** While bit 7 of [SC] is clear, a connected device never transfers: each
    [tick] only advances the counters and returns "no transfer"; it sends
    nothing and takes nothing from the queue, however many cycles pass and
    however many items wait. *)
Theorem tick_idle_without_start_flag (cycles : list Z) (s : t) (sk : socket) :
  connection s = Some sk -> Z.testbit (SC s) 7 = false ->
  (forall c, tick c s = (clocked c s, Ok false)) /\
  connection (run_ticks cycles s) = Some sk /\
  recv (run_ticks cycles s) = recv s /\
  SB (run_ticks cycles s) = SB s /\ SC (run_ticks cycles s) = SC s /\
  trans_bits (run_ticks cycles s) = trans_bits s.
Proof.
  assert (One : forall c s0 sk0, connection s0 = Some sk0 ->
                  Z.testbit (SC s0) 7 = false ->
                  tick c s0 = (clocked c s0, Ok false)).
  { intros c s0 sk0 Hc Hb. rewrite (tick_connected c s0 sk0 Hc). cbv zeta.
    pose proof (clocked_fields c s0) as F. cbv zeta in F.
    destruct F as (_ & _ & _ & Fsc & _ & Fconn & _).
    unfold cycles_to_transmit. rewrite Fconn, Hc, Fsc, land_0x80, Hb.
    reflexivity. }
  intros Hc Hb. split; [intros c; apply (One c s sk Hc Hb)|].
  revert s Hc Hb. unfold run_ticks.
  induction cycles as [|c cs IH]; intros s Hc Hb.
  - repeat split; try reflexivity. exact Hc.
  - cbn [fold_left]. rewrite (One c s sk Hc Hb). cbn [fst].
    pose proof (clocked_fields c s) as F. cbv zeta in F.
    destruct F as (_ & _ & _ & Fsc & Fsb & Fconn & Ftb & _ & _ & _ & Frecv & _).
    destruct (IH (clocked c s)) as (I1 & I2 & I3 & I4 & I5); try congruence.
    repeat split; congruence.
Qed.

Lemma tick_idle_without_start_flag_witness :
  let s := set_SC 0x03 (set_recv [(1, 0); (0, 1)] (connected false)) in
  (forall c, tick c s = (clocked c s, Ok false)) /\
  connection (run_ticks [514; 70224; 4] s) = Some fresh_socket /\
  recv (run_ticks [514; 70224; 4] s) = recv s /\
  SB (run_ticks [514; 70224; 4] s) = SB s /\
  SC (run_ticks [514; 70224; 4] s) = SC s /\
  trans_bits (run_ticks [514; 70224; 4] s) = trans_bits s.
Proof.
  apply (tick_idle_without_start_flag [514; 70224; 4]
           (set_SC 0x03 (set_recv [(1, 0); (0, 1)] (connected false)))
           fresh_socket); reflexivity.
Defined.



End SchedulerMore.

(** ** The clock over a run of ticks *)

Section ClockMore.

Lemma tick_keeps_connection (cycles : Z) :
  preserves connection_kept (tick cycles).
Proof. keep_connection. Qed.

(** One [tick] of a connected device moves no cycle out of the clock:
    2^21 times the timestamp plus the accumulator grows by the cycles
    fed. *)
Lemma tick_clock_total (cycles : Z) (s : t) (sk : socket) :
  connection s = Some sk ->
  2 ^ 21 * _timestamp (fst (tick cycles s)) + _ts_cycles (fst (tick cycles s))
    = 2 ^ 21 * _timestamp s + _ts_cycles s + cycles.
Proof.
  intros Hc. destruct (tick_clock cycles s sk Hc) as [E1 E2].
  pose proof (clocked_fields cycles s) as F. cbv zeta in F.
  destruct F as (_ & F2 & F3 & _). rewrite E1, E2, F2, F3.
  destruct (2 ^ 21 <=? _ts_cycles s + cycles); lia.
Qed.

Lemma tick_accumulator_bound (cycles : Z) (s : t) (sk : socket) :
  connection s = Some sk ->
  0 <= _ts_cycles s < 2 ^ 21 -> 0 <= cycles <= 2 ^ 21 ->
  0 <= _ts_cycles (fst (tick cycles s)) < 2 ^ 21.
Proof.
  intros Hc Ha Hcy. destruct (tick_clock cycles s sk Hc) as [_ E2].
  pose proof (clocked_fields cycles s) as F. cbv zeta in F.
  destruct F as (_ & F2 & _). rewrite E2, F2.
  destruct (Z.leb_spec (2 ^ 21) (_ts_cycles s + cycles)); lia.
Qed.

(** Over any run of ticks of a connected device the clock loses no cycle:
    2^21 times the timestamp plus the accumulator grows by exactly the
    cycles fed.  When no single [tick] feeds more than 2^21 cycles the
    accumulator stays below 2^21, so the timestamp is the number of whole
    periods of 2^21 cycles and the accumulator is the remainder. *)
Theorem clock_counts_every_cycle (cycles : list Z) (s : t) (sk : socket) :
  connection s = Some sk ->
  2 ^ 21 * _timestamp (run_ticks cycles s) + _ts_cycles (run_ticks cycles s)
    = 2 ^ 21 * _timestamp s + _ts_cycles s + fold_right Z.add 0 cycles /\
  (0 <= _ts_cycles s < 2 ^ 21 ->
   Forall (fun c => 0 <= c <= 2 ^ 21) cycles ->
   _timestamp (run_ticks cycles s)
     = _timestamp s + (_ts_cycles s + fold_right Z.add 0 cycles) / 2 ^ 21 /\
   _ts_cycles (run_ticks cycles s)
     = (_ts_cycles s + fold_right Z.add 0 cycles) mod 2 ^ 21).
Proof.
  intros Hc.
  assert (Total : forall cs s0, connection s0 <> None ->
            connection (run_ticks cs s0) <> None /\
            2 ^ 21 * _timestamp (run_ticks cs s0) + _ts_cycles (run_ticks cs s0)
              = 2 ^ 21 * _timestamp s0 + _ts_cycles s0 + fold_right Z.add 0 cs).
  { unfold run_ticks. induction cs as [|c cs IH]; intros s0 H0.
    - cbn [fold_left fold_right]. split; [exact H0|lia].
    - cbn [fold_left fold_right].
      destruct (connection s0) as [sk0|] eqn:E0; [|contradiction].
      destruct (IH (fst (tick c s0))) as [I1 I2].
      { apply (tick_keeps_connection c s0). congruence. }
      split; [exact I1|]. rewrite I2, (tick_clock_total c s0 sk0 E0). lia. }
  assert (Bound : forall cs s0, connection s0 <> None ->
            0 <= _ts_cycles s0 < 2 ^ 21 ->
            Forall (fun c => 0 <= c <= 2 ^ 21) cs ->
            0 <= _ts_cycles (run_ticks cs s0) < 2 ^ 21).
  { unfold run_ticks. induction cs as [|c cs IH]; intros s0 H0 Ha Hall.
    - exact Ha.
    - cbn [fold_left]. inversion Hall as [|c' cs' Hcy Hrest]; subst.
      destruct (connection s0) as [sk0|] eqn:E0; [|contradiction].
      apply IH.
      + apply (tick_keeps_connection c s0). congruence.
      + apply (tick_accumulator_bound c s0 sk0 E0 Ha Hcy).
      + exact Hrest. }
  assert (H0 : connection s <> None) by congruence.
  destruct (Total cycles s H0) as [_ T]. split; [exact T|].
  intros Ha Hall. pose proof (Bound cycles s H0 Ha Hall) as B.
  set (total := _ts_cycles s + fold_right Z.add 0 cycles) in *.
  assert (E : total = 2 ^ 21 * (_timestamp (run_ticks cycles s) - _timestamp s)
                      + _ts_cycles (run_ticks cycles s)) by (unfold total; lia).
  split.
  - pose proof (Z.div_unique total (2 ^ 21) _ _ (or_introl B) E). lia.
  - apply (Z.mod_unique total (2 ^ 21) _ _ (or_introl B) E).
Qed.

Lemma clock_counts_every_cycle_witness :
  let s := connected true in
  let cycles := [2 ^ 21; 4; 2 ^ 21 - 4; 100] in
  2 ^ 21 * _timestamp (run_ticks cycles s) + _ts_cycles (run_ticks cycles s)
    = 2 ^ 21 * _timestamp s + _ts_cycles s + fold_right Z.add 0 cycles /\
  (0 <= _ts_cycles s < 2 ^ 21 ->
   Forall (fun c => 0 <= c <= 2 ^ 21) cycles ->
   _timestamp (run_ticks cycles s)
     = _timestamp s + (_ts_cycles s + fold_right Z.add 0 cycles) / 2 ^ 21 /\
   _ts_cycles (run_ticks cycles s)
     = (_ts_cycles s + fold_right Z.add 0 cycles) mod 2 ^ 21).
Proof.
  apply (clock_counts_every_cycle [2 ^ 21; 4; 2 ^ 21 - 4; 100] (connected true)
           fresh_socket). reflexivity.
Defined.

End ClockMore.

(** ** Eight transfers make a byte *)

Section ByteAssembly.

(** Shifting a bit into the register, as arithmetic. *)
Lemma shift_bit_arith (x b : Z) :
  b = 0 \/ b = 1 ->
  Z.lor (Z.land (Z.shiftl x 1) 0xFF) b = (2 * x + b) mod 256.
Proof.
  intros Hb. change 0xFF with (Z.ones 8). rewrite Z.land_ones by lia.
  rewrite Z.shiftl_mul_pow2 by lia. change (2 ^ 1) with 2. change (2 ^ 8) with 256.
  replace (x * 2) with (2 * x) by lia.
  assert (E : (2 * x) mod 256 = 2 * (x mod 128)).
  { change 256 with (2 * 128). rewrite Z.mul_mod_distr_l by lia. reflexivity. }
  assert (Hy : 0 <= x mod 128 < 128) by (apply Z.mod_pos_bound; lia).
  assert (E2 : (2 * x + b) mod 256 = 2 * (x mod 128) + b).
  { symmetry. apply Z.mod_unique with (q := x / 128); [lia|].
    pose proof (Z.div_mod x 128 ltac:(lia)). lia. }
  rewrite E, E2. destruct Hb as [-> | ->].
  - rewrite Z.lor_0_r. lia.
  - destruct (x mod 128) as [|p|p]; [reflexivity|reflexivity|lia].
Qed.

(** The register after a run of bits, as arithmetic modulo 256. *)
Lemma shifts_mod (bits : list Z) (x y : Z) :
  x mod 256 = y mod 256 ->
  (fold_left (fun acc b => (2 * acc + b) mod 256) bits x) mod 256
    = (fold_left (fun acc b => 2 * acc + b) bits y) mod 256.
Proof.
  revert x y. induction bits as [|b bits IH]; intros x y H; [exact H|].
  cbn [fold_left]. apply IH. rewrite Z.mod_mod by lia.
  rewrite (Z.add_mod (2 * x)), (Z.add_mod (2 * y)) by lia.
  rewrite (Z.mul_mod 2 x), (Z.mul_mod 2 y), H by lia. reflexivity.
Qed.

Lemma shifts_plain (bits : list Z) (x : Z) :
  fold_left (fun acc b => 2 * acc + b) bits x
    = 2 ^ Z.of_nat (List.length bits) * x + byte_of_bits bits.
Proof.
  unfold byte_of_bits. revert x.
  induction bits as [|b bits IH]; intros x.
  - cbn [fold_left List.length]. change (Z.of_nat 0) with 0.
    rewrite Z.pow_0_r. lia.
  - cbn [fold_left List.length]. rewrite IH, (IH (2 * 0 + b)).
    rewrite Nat2Z.inj_succ, Z.pow_succ_r by lia. lia.
Qed.

Lemma byte_of_bits_range (bits : list Z) :
  Forall (fun b => b = 0 \/ b = 1) bits ->
  0 <= byte_of_bits bits < 2 ^ Z.of_nat (List.length bits).
Proof.
  unfold byte_of_bits.
  assert (G : forall bits x, Forall (fun b => b = 0 \/ b = 1) bits ->
            0 <= x ->
            2 ^ Z.of_nat (List.length bits) * x
              <= fold_left (fun acc b => 2 * acc + b) bits x
              < 2 ^ Z.of_nat (List.length bits) * (x + 1)).
  { clear bits. induction bits as [|b bits IH]; intros x Hall Hx.
    - cbn [fold_left List.length]. change (Z.of_nat 0) with 0.
      rewrite Z.pow_0_r. lia.
    - inversion Hall as [|b' bits' Hb Hrest]; subst.
      cbn [fold_left List.length].
      rewrite Nat2Z.inj_succ, Z.pow_succ_r by lia.
      pose proof (IH (2 * x + b) Hrest ltac:(lia)) as I.
      assert (0 < 2 ^ Z.of_nat (List.length bits)) by (apply Z.pow_pos_nonneg; lia).
      nia. }
  intros Hall. pose proof (G bits 0 Hall ltac:(lia)). lia.
Qed.

Lemma resumes_shift (items : list (Z * Z)) :
  forall (s : t) (rest : list (Z * Z)),
    recv s = items ++ rest ->
    0 <= trans_bits s <= 7 ->
    trans_bits s + Z.of_nat (List.length items) <= 8 ->
    Forall (fun it => fst it = 0 \/ fst it = 1) items ->
    let r := resumes (List.length items) s in
    SB (fst r) = fold_left (fun acc b => (2 * acc + b) mod 256)
                   (map fst items) (SB s) /\
    trans_bits (fst r) =
      (if trans_bits s + Z.of_nat (List.length items) =? 8 then 0
       else trans_bits s + Z.of_nat (List.length items)) /\
    SC (fst r) =
      (if trans_bits s + Z.of_nat (List.length items) =? 8
       then Z.land (SC s) 0x7F else SC s) /\
    recv (fst r) = rest /\
    snd r = flags (trans_bits s) (List.length items).
Proof.
  induction items as [|[byte ts] items IH]; intros s rest Hq Htb Hlen Hbits.
  - cbv zeta. cbn [resumes List.length fst snd map fold_left flags].
    rewrite Z.add_0_r.
    destruct (Z.eqb_spec (trans_bits s) 8) as [E|_]; [lia|].
    repeat split; try reflexivity. exact Hq.
  - cbv zeta. cbn [resumes List.length].
    inversion Hbits as [|it its Hb Hrest]; subst. cbn [fst] in Hb.
    destruct (tick_resume_transfer s byte ts (items ++ rest) Hq)
      as (T1 & (T2 & _ & T3 & T4) & T5).
    destruct (tick_resume s) as [s1 r1]. cbn [fst snd] in *.
    rewrite Nat2Z.inj_succ in *.
    specialize (IH s1 rest T5).
    destruct (resumes (List.length items) s1) as [s2 rs] eqn:E2.
    cbn [fst snd map fold_left flags]. rewrite T1.
    destruct items as [|it2 items'].
    + cbn [resumes] in E2. injection E2 as <- <-.
      cbn [List.length] in *. cbn [fold_left map flags].
      rewrite T2, T3, T4, T5, (shift_bit_arith _ _ Hb).
      replace (trans_bits s + Z.succ (Z.of_nat 0)) with (trans_bits s + 1) by lia.
      repeat split; reflexivity.
    + assert (Hlt : trans_bits s + 1 <> 8).
      { cbn [List.length] in Hlen. rewrite Nat2Z.inj_succ in Hlen. lia. }
      apply Z.eqb_neq in Hlt. rewrite Hlt in T3, T4.
      cbv zeta in IH. cbn [fst snd] in IH.
      assert (P1 : 0 <= trans_bits s1 <= 7).
      { cbn [List.length] in Hlen. rewrite Nat2Z.inj_succ in Hlen. lia. }
      assert (P2 : trans_bits s1 + Z.of_nat (List.length (it2 :: items')) <= 8).
      { cbn [List.length] in Hlen |- *. rewrite !Nat2Z.inj_succ in Hlen |- *.
        lia. }
      destruct (IH P1 P2 Hrest) as (I1 & I2 & I3 & I4 & I5).
      rewrite I1, I2, I3, I4, I5, T2, T3, T4, (shift_bit_arith _ _ Hb).
      replace (trans_bits s + Z.succ (Z.of_nat (List.length (it2 :: items'))))
        with (trans_bits s + 1 + Z.of_nat (List.length (it2 :: items'))) by lia.
      rewrite Hlt. repeat split; reflexivity.
Qed.

(** Starting with no bit gathered, eight continuations of [tick] on eight
    queued items that are bits (0 or 1) leave in [SB] the byte those bits
    spell, first item in bit 7, whatever [SB] held before; only the eighth
    returns "transfer complete"; and then [trans_bits] is 0 again, bit 7 of
    [SC] is clear and the eight items are gone from the queue. *)
Theorem eight_transfers_assemble_byte (s : t) (items rest : list (Z * Z)) :
  trans_bits s = 0 ->
  recv s = items ++ rest ->
  List.length items = 8%nat ->
  Forall (fun it => fst it = 0 \/ fst it = 1) items ->
  SB (fst (resumes 8 s)) = byte_of_bits (map fst items) /\
  snd (resumes 8 s) =
    [Ok false; Ok false; Ok false; Ok false; Ok false; Ok false; Ok false;
     Ok true] /\
  trans_bits (fst (resumes 8 s)) = 0 /\
  Z.testbit (SC (fst (resumes 8 s))) 7 = false /\
  recv (fst (resumes 8 s)) = rest.
Proof.
  intros Htb Hq Hlen Hbits.
  pose proof (resumes_shift items s rest Hq) as H. rewrite Hlen, Htb in H.
  cbv zeta in H. destruct H as (H1 & H2 & H3 & H4 & H5); try lia; try assumption.
  rewrite H1, H2, H3, H4, H5. cbn [Z.of_nat Pos.of_succ_nat Pos.succ Z.add Z.eqb Pos.eqb Pos.add].
  split; [|split; [reflexivity|split; [reflexivity|split;
    [apply land_0x7F_bit7|reflexivity]]]].
  assert (Hb : Forall (fun b => b = 0 \/ b = 1) (map fst items)).
  { apply Forall_map. exact Hbits. }
  pose proof (byte_of_bits_range (map fst items) Hb) as R.
  rewrite length_map, Hlen in R. change (2 ^ Z.of_nat 8) with 256 in R.
  pose proof (shifts_mod (map fst items) (SB s) (SB s) eq_refl) as M.
  rewrite shifts_plain, length_map, Hlen in M. change (2 ^ Z.of_nat 8) with 256 in M.
  rewrite Z.add_comm, Z.mul_comm, Z.mod_add in M by lia.
  rewrite (Z.mod_small (byte_of_bits _)) in M by lia.
  rewrite <- M. symmetry. apply Z.mod_small.
  destruct items as [|it items']; [discriminate|].
  cbn [map fold_left].
  assert (G : forall bits x, 0 <= x < 256 ->
            0 <= fold_left (fun acc b => (2 * acc + b) mod 256) bits x < 256).
  { induction bits as [|b bits IH]; intros x Hx; [exact Hx|].
    cbn [fold_left]. apply IH. apply Z.mod_pos_bound. lia. }
  apply G. apply Z.mod_pos_bound. lia.
Qed.

Lemma eight_transfers_assemble_byte_witness :
  let items := [(1, 0); (0, 0); (1, 0); (0, 0); (0, 1); (1, 1); (0, 1); (1, 1)] in
  let s := set_SC 0x81 (set_SB 0x3C (set_recv (items ++ [(1, 2)]) (connected true))) in
  SB (fst (resumes 8 s)) = byte_of_bits (map fst items) /\
  snd (resumes 8 s) =
    [Ok false; Ok false; Ok false; Ok false; Ok false; Ok false; Ok false;
     Ok true] /\
  trans_bits (fst (resumes 8 s)) = 0 /\
  Z.testbit (SC (fst (resumes 8 s))) 7 = false /\
  recv (fst (resumes 8 s)) = [(1, 2)].
Proof.
  apply (eight_transfers_assemble_byte
           (set_SC 0x81 (set_SB 0x3C
              (set_recv ([(1, 0); (0, 0); (1, 0); (0, 0); (0, 1); (1, 1);
                          (0, 1); (1, 1)] ++ [(1, 2)]) (connected true))))
           [(1, 0); (0, 0); (1, 0); (0, 0); (0, 1); (1, 1); (0, 1); (1, 1)]
           [(1, 2)]); try reflexivity.
  repeat constructor; cbn [fst]; tauto.
Defined.

End ByteAssembly.

(** ** The ranges of the attributes *)

Section Ranges.

Lemma lor_byte (a b : Z) :
  0 <= a <= 255 -> 0 <= b <= 255 -> 0 <= Z.lor a b <= 255.
Proof.
  intros Ha Hb.
  assert (H0 : 0 <= Z.lor a b) by (apply Z.lor_nonneg; lia).
  destruct (Z.eq_dec (Z.lor a b) 0) as [E|N]; [lia|].
  assert (Z.log2 (Z.lor a b) < 8).
  { rewrite Z.log2_lor by lia. apply Z.max_lub_lt.
    - destruct (Z.eq_dec a 0) as [->|]; [cbn; lia|].
      apply Z.log2_lt_pow2; lia.
    - destruct (Z.eq_dec b 0) as [->|]; [cbn; lia|].
      apply Z.log2_lt_pow2; lia. }
  assert (Z.lor a b < 2 ^ 8) by (apply Z.log2_lt_pow2; lia).
  lia.
Qed.

Lemma land_0xFF_byte (x : Z) : 0 <= Z.land x 0xFF <= 255.
Proof.
  change (Z.land x 0xFF) with (Z.land x (Z.ones 8)). rewrite Z.land_ones by lia.
  change (2 ^ 8) with 256. pose proof (Z.mod_pos_bound x 256 ltac:(lia)). lia.
Qed.

Lemma land_0x7F_byte (x : Z) : 0 <= Z.land x 0x7F <= 255.
Proof.
  change (Z.land x 0x7F) with (Z.land x (Z.ones 7)). rewrite Z.land_ones by lia.
  change (2 ^ 7) with 128. pose proof (Z.mod_pos_bound x 128 ltac:(lia)). lia.
Qed.

Lemma inputs_kept_refl (s : t) : inputs_kept s s.
Proof. split; intros H; exact H. Qed.

Lemma inputs_kept_trans (s1 s2 s3 : t) :
  inputs_kept s1 s2 -> inputs_kept s2 s3 -> inputs_kept s1 s3.
Proof. unfold inputs_kept. tauto. Qed.

(** An assignment made by the receiver thread keeps the inputs in range:
    what it stores comes from a decoded packet. *)
Ltac input_assignment :=
  subst; unfold inputs_kept, item_ok;
  cbn [_last_received_timestamp recv set_connection set_got_version
       set_last_received_timestamp set_recv set_quitting];
  repeat match goal with
         | H : Struct.unpack _ = Some _ |- _ =>
             apply unpack_range in H
         end;
  split; intros ?;
  first
    [ assumption
    | lia
    | apply Forall_app; split; [assumption|];
      constructor; [cbn [fst snd]; lia|constructor] ].

Ltac keep_inputs :=
  open_methods;
  repeat first
    [ apply inputs_kept_refl
    | exact inputs_kept_trans
    | frame_step
    | apply preserves_modify; intros ?;
      first [ apply inputs_kept_refl | input_assignment ]
    | solve [eauto with serial_regs] ].

Lemma recv_iteration_keeps_inputs (r : read_result) :
  preserves inputs_kept (recv_iteration r).
Proof. keep_inputs. Qed.

Lemma recv_thread_start_keeps_inputs :
  preserves inputs_kept (recv_thread []).
Proof. unfold recv_thread. cbn [recv_loop]. keep_inputs. Qed.

Lemma stop_keeps_inputs (d : device) :
  inputs_kept (object d) (object (fst (stop d))).
Proof.
  apply stop_preserves; [exact inputs_kept_trans| |keep_inputs].
  unfold close_connection. keep_inputs.
Qed.

Lemma receiver_well_formed (s s' : t) :
  same_registers s s' -> inputs_kept s s' -> well_formed s -> well_formed s'.
Proof.
  unfold same_registers, inputs_kept, well_formed.
  intros (R1 & R2 & _ & R4 & R5 & R6 & R7 & _) (I1 & I2)
         (W1 & W2 & W3 & W4 & W5 & W6 & W7 & W8).
  rewrite R1, R2, R4, R5, R6, R7. repeat split; try tauto; try lia.
Qed.

Lemma clocked_well_formed (cycles : Z) (s : t) :
  0 <= cycles -> well_formed s -> well_formed (clocked cycles s).
Proof.
  unfold well_formed. intros Hcy (W1 & W2 & W3 & W4 & W5 & W6 & W7 & W8).
  pose proof (clocked_fields cycles s) as F. cbv zeta in F.
  destruct F as (F1 & F2 & F3 & F4 & F5 & _ & _ & F8 & _ & F10 & F11 & _).
  rewrite F1, F2, F3, F4, F5, F8, F10, F11.
  destruct (Z.leb_spec (2 ^ 21) (_ts_cycles s + cycles));
    repeat split; try assumption; lia.
Qed.

Lemma send_bit_well_formed (s : t) :
  well_formed s -> well_formed (fst (send_bit s)).
Proof.
  unfold well_formed. pose proof (send_bit_frame s) as F. cbv zeta in F.
  destruct F as (F1 & F2 & _ & F4 & F5 & F6 & F7 & _ & F9 & F10 & _).
  rewrite F1, F2, F4, F5, F6, F7, F9, F10. tauto.
Qed.

Lemma shift_in_well_formed (byte ts : Z) (rest : list (Z * Z)) (s : t) :
  well_formed s -> recv s = (byte, ts) :: rest ->
  well_formed (fst (shift_in (byte, ts) (set_recv rest s))).
Proof.
  unfold well_formed. intros (W1 & W2 & W3 & W4 & W5 & W6 & W7 & W8) Hq.
  rewrite Hq in W8. inversion W8 as [|it its [Hb _] Hrest]; subst.
  cbn [fst] in Hb. rewrite shift_in_run. cbv zeta.
  pose proof (lor_byte _ byte (land_0xFF_byte (Z.shiftl (SB s) 1)) Hb).
  pose proof (land_0x7F_byte (SC s)).
  destruct (_ =? 8);
    cbn [fst cycles_target cycles_count SB SC _timestamp _ts_cycles
         _last_received_timestamp recv set_SC set_SB set_trans_bits
         set_cycles_count set_recv];
    repeat split; try assumption; lia.
Qed.

Lemma tick_resume_well_formed (s : t) :
  well_formed s -> well_formed (fst (tick_resume s)).
Proof.
  intros W. rewrite tick_resume_run.
  destruct (recv s) as [|[byte ts] rest] eqn:Hq; [exact W|].
  apply shift_in_well_formed; assumption.
Qed.

Lemma tick_well_formed (cycles : Z) (s : t) :
  0 <= cycles -> well_formed s -> well_formed (fst (tick cycles s)).
Proof.
  intros Hcy W. destruct (connection s) as [sk|] eqn:Hc.
  - destruct (tick_connected_cases cycles s sk Hc)
      as (s2 & Hs2 & [[E _]|(byte & ts & rest & Hq & E)]).
    + rewrite E. destruct Hs2 as [-> | ->];
        [|apply send_bit_well_formed]; apply clocked_well_formed; assumption.
    + rewrite E. apply shift_in_well_formed.
      * destruct Hs2 as [-> | ->];
          [|apply send_bit_well_formed]; apply clocked_well_formed; assumption.
      * rewrite <- Hq. pose proof (clocked_fields cycles s) as F.
        cbv zeta in F. destruct F as (_ & _ & _ & _ & _ & _ & _ & _ & _ & _ & F & _).
        destruct Hs2 as [-> | ->]; [exact F|].
        pose proof (send_bit_frame (clocked cycles s)) as G. cbv zeta in G.
        destruct G as (_ & _ & _ & _ & _ & _ & _ & _ & _ & G & _). congruence.
  - rewrite (tick_no_connection cycles s Hc).
    unfold well_formed in *. cbn [fst cycles_target cycles_count SB SC
      _timestamp _ts_cycles _last_received_timestamp recv set_SB].
    repeat split; try tauto; lia.
Qed.

Lemma step_well_formed (s s' : t) : step s s' -> well_formed s -> well_formed s'.
Proof.
  intros Hstep W. destruct Hstep.
  - apply tick_well_formed; assumption.
  - apply tick_resume_well_formed; assumption.
  - apply (receiver_well_formed s); [apply recv_iteration_regs
      |apply recv_iteration_keeps_inputs|exact W].
  - apply (receiver_well_formed s); [apply recv_thread_regs
      |apply recv_thread_start_keeps_inputs|exact W].
  - apply (receiver_well_formed (object d)); [apply stop_regs
      |apply stop_keeps_inputs|exact W].
  - unfold well_formed in *. cbn [cycles_target cycles_count SB SC _timestamp
      _ts_cycles _last_received_timestamp recv set_SB]. tauto.
  - unfold well_formed in *. cbn [cycles_target cycles_count SB SC _timestamp
      _ts_cycles _last_received_timestamp recv set_SC]. tauto.
Qed.

Lemma initial_well_formed (c : option socket) (m : bool) :
  well_formed (initial c m).
Proof.
  unfold well_formed. cbn. repeat split; try lia; try discriminate.
  constructor.
Qed.

(** On every object the program can reach, [SB] and [SC] are bytes, every
    queued item is a byte with a 32-bit timestamp, the last received
    timestamp is a 32-bit value, the counters are not negative, and the
    transfer period [cycles_target] is 514 cycles (4213440 // 8192). *)
Theorem reachable_attributes_in_range (s : t) :
  reachable s -> well_formed s.
Proof.
  induction 1 as [|serial_bind|s s' _ IH Hstep].
  - apply initial_well_formed.
  - apply initial_well_formed.
  - exact (step_well_formed s s' Hstep IH).
Qed.

Lemma reachable_attributes_in_range_witness :
  well_formed (fst (tick 514 (set_SC 0x81 (connected true)))).
Proof.
  apply (reachable_attributes_in_range
           (fst (tick 514 (set_SC 0x81 (connected true))))).
  apply reachable_step with (s := set_SC 0x81 (connected true)).
  - apply reachable_step with (s := connected true).
    + apply reachable_connected.
    + apply step_write_SC. lia.
  - apply step_tick. lia.
Defined.

(** On a reachable object, [tick] reaches the transfer threshold exactly
    when the device is connected, bit 7 of [SC] is set and at least 514
    cycles have been counted since the last transfer; otherwise
    [cycles_to_transmit] is the number of cycles still missing, or the
    sentinel 65536. *)
Theorem transfer_threshold (s : t) :
  reachable s ->
  (cycles_to_transmit s = 0 <->
   connection s <> None /\ Z.testbit (SC s) 7 = true /\ 514 <= cycles_count s) /\
  (connection s <> None -> Z.testbit (SC s) 7 = true -> cycles_count s < 514 ->
   cycles_to_transmit s = 514 - cycles_count s) /\
  (connection s = None \/ Z.testbit (SC s) 7 = false ->
   cycles_to_transmit s = 65536).
Proof.
  intros Hr.
  assert (W : well_formed s).
  { induction Hr as [|serial_bind|s s' _ IH Hstep].
    - apply initial_well_formed.
    - apply initial_well_formed.
    - exact (step_well_formed s s' Hstep IH). }
  destruct W as (W1 & W2 & _).
  unfold cycles_to_transmit. rewrite land_0x80, W1.
  destruct (connection s) as [sk|]; destruct (Z.testbit (SC s) 7);
    cbn [truthy Z.eqb negb]; change (Z.shiftl 1 16) with 65536.
  - split; [|split].
    + split.
      * intros H. repeat split; [discriminate|lia].
      * intros (_ & _ & H). lia.
    + intros _ _ H. lia.
    + intros [H|H]; discriminate H.
  - split; [|split].
    + split; [intros H; discriminate H|intros (_ & H & _); discriminate H].
    + intros _ H; discriminate H.
    + reflexivity.
  - split; [|split].
    + split; [intros H; discriminate H|intros (H & _); contradiction].
    + intros H; contradiction.
    + reflexivity.
  - split; [|split].
    + split; [intros H; discriminate H|intros (H & _); contradiction].
    + intros H; contradiction.
    + reflexivity.
Qed.

Lemma transfer_threshold_witness :
  let s := set_SC 0x80 (connected false) in
  (cycles_to_transmit s = 0 <->
   connection s <> None /\ Z.testbit (SC s) 7 = true /\ 514 <= cycles_count s) /\
  (connection s <> None -> Z.testbit (SC s) 7 = true -> cycles_count s < 514 ->
   cycles_to_transmit s = 514 - cycles_count s) /\
  (connection s = None \/ Z.testbit (SC s) 7 = false ->
   cycles_to_transmit s = 65536).
Proof.
  apply (transfer_threshold (set_SC 0x80 (connected false))).
  apply reachable_step with (s := connected false).
  - apply reachable_connected.
  - apply step_write_SC. lia.
Defined.

End Ranges.

(** ** A Sync packet and the waiting tick *)

Section Exchange.

(** A Sync1 or Sync2 packet [(kind, d, _, _, ts)] read from an open socket
    puts [(d, ts)] at the end of the queue and is answered by one packet
    that decodes to kind 104 (master) or 105, the top bit of [SB], [SC], 0
    and the local timestamp.  If a [tick] was waiting on the empty queue,
    its continuation then shifts in the received [d] as it is (the whole
    byte, not only its lowest bit) and leaves the queue empty. *)
Theorem sync_packet_feeds_waiting_tick (s : t) (sk : socket)
    (data : list byte) (kind d c b4 ts : Z) :
  connection s = Some sk -> closed sk = false ->
  kind = 104 \/ kind = 105 ->
  Struct.unpack data = Some (kind, d, c, b4, ts) ->
  0 <= SC s <= 255 -> 0 <= _timestamp s <= 2 ^ 32 - 1 ->
  let s1 := fst (recv_iteration (ReadData data) s) in
  snd (recv_iteration (ReadData data) s) = Ok Continue /\
  recv s1 = recv s ++ [(d, ts)] /\
  (exists reply,
     Struct.unpack reply =
       Some (if is_master s then 104 else 105, Z.land (Z.shiftr (SB s) 7) 1,
             SC s, 0, _timestamp s) /\
     connection s1 = Some {| closed := false; sent := sent sk ++ [reply] |}) /\
  (recv s = [] ->
   snd (tick_resume s1) = Ok (trans_bits s + 1 =? 8) /\
   SB (fst (tick_resume s1)) = Z.lor (Z.land (Z.shiftl (SB s) 1) 0xFF) d /\
   recv (fst (tick_resume s1)) = []).
Proof.
  intros Hc Ho Hk Hu Hsc Hts. cbv zeta.
  destruct (proj2 (pack_some_iff (if is_master s then 104 else 105)
                     (Z.land (Z.shiftr (SB s) 7) 1) (SC s) 0 (_timestamp s)))
    as [reply Hp].
  { rewrite shiftr_7_land_1. change (2 ^ 32 - 1) with 4294967295 in Hts.
    destruct (is_master s), (Z.testbit (SB s) 7); lia. }
  assert (E : recv_iteration (ReadData data) s =
    (set_connection (Some {| closed := false; sent := sent sk ++ [reply] |})
       (set_recv (recv s ++ [(d, ts)]) (set_last_received_timestamp ts s)),
     Ok Continue)).
  { assert (Hh : exists h, _handlers kind = Some h /\
                   forall x y z w s0, h x y z w s0 = _handle_sync1 x y z w s0).
    { destruct Hk as [-> | ->]; eexists; (split; [reflexivity|reflexivity]). }
    destruct Hh as (h & Hh & Hsame).
    rewrite (recv_iteration_dispatch s sk data kind d c b4 ts h Hc Ho Hu Hh).
    unfold try_except, bind at 1. rewrite Hsame.
    unfold _handle_sync1, _client_data_handler, recv_put, struct_pack. run_m.
    cbn [is_master SB SC _timestamp recv set_recv set_last_received_timestamp].
    rewrite Hp. cbn [fst snd].
    rewrite (unpack_truthy reply _ (unpack_pack _ _ _ _ _ _ Hp)).
    rewrite (connection_send_open reply _ sk) by assumption. reflexivity. }
  rewrite E. cbn [fst snd]. split; [reflexivity|]. split; [reflexivity|].
  split.
  - exists reply. split; [apply unpack_pack; exact Hp|reflexivity].
  - intros Hq. set (s1 := set_connection _ _).
    destruct (tick_resume_transfer s1 d ts [])
      as (T1 & (T2 & _) & T3).
    { unfold s1. cbn [recv set_connection set_recv]. rewrite Hq. reflexivity. }
    rewrite T1, T2, T3. repeat split; reflexivity.
Qed.

Lemma sync_packet_feeds_waiting_tick_witness :
  let s := set_SC 0x81 (set_SB 0xA5 (connected true)) in
  let data := [x69; xff; x80; x00; x04; x00; x00; x00] in
  let s1 := fst (recv_iteration (ReadData data) s) in
  snd (recv_iteration (ReadData data) s) = Ok Continue /\
  recv s1 = recv s ++ [(255, 4)] /\
  (exists reply,
     Struct.unpack reply =
       Some (if is_master s then 104 else 105, Z.land (Z.shiftr (SB s) 7) 1,
             SC s, 0, _timestamp s) /\
     connection s1 =
       Some {| closed := false; sent := sent fresh_socket ++ [reply] |}) /\
  (recv s = [] ->
   snd (tick_resume s1) = Ok (trans_bits s + 1 =? 8) /\
   SB (fst (tick_resume s1)) = Z.lor (Z.land (Z.shiftl (SB s) 1) 0xFF) 255 /\
   recv (fst (tick_resume s1)) = []).
Proof.
  apply (sync_packet_feeds_waiting_tick
           (set_SC 0x81 (set_SB 0xA5 (connected true))) fresh_socket
           [x69; xff; x80; x00; x04; x00; x00; x00] 105 255 128 0 4);
    try reflexivity.
  - right. reflexivity.
  - vm_compute. split; discriminate.
  - vm_compute. split; discriminate.
Defined.

End Exchange.

(** ** The address, once accepted *)

Section AddressMore.

Open Scope string_scope.

Lemma count_app (c : ascii) (p q : string) :
  Str.count c (p ++ q) = Str.count c p + Str.count c q.
Proof.
  induction p as [|a p IH]; [reflexivity|].
  cbn [append Str.count]. rewrite IH. lia.
Qed.

(** Joining the pieces of a split gives the string back, and no piece
    contains the separator. *)
Lemma split_join (sep : ascii) (s : string) :
  join sep (Str.split sep s) = s /\
  Forall (fun p => Str.count sep p = 0) (Str.split sep s) /\
  Str.split sep s <> [].
Proof.
  induction s as [|a s (IH1 & IH2 & IH3)].
  - cbn. repeat split; [repeat constructor|discriminate].
  - cbn [Str.split]. destruct (Ascii.eqb_spec a sep) as [->|Hne].
    + destruct (Str.split sep s) as [|p ps] eqn:E; [contradiction|].
      change (join sep ("" :: p :: ps)) with (String sep (join sep (p :: ps))).
      rewrite IH1.
      repeat split; [constructor; [reflexivity|exact IH2]|discriminate].
    + destruct (Str.split sep s) as [|p ps] eqn:E; [contradiction|].
      inversion IH2 as [|p' ps' Hp Hps]; subst p' ps'.
      split; [|split; [|discriminate]].
      * destruct ps as [|q ps].
        -- change (join sep [p]) with p in IH1. rewrite <- IH1. reflexivity.
        -- change (join sep (String a p :: q :: ps))
             with (String a (p ++ String sep (join sep (q :: ps)))).
           change (join sep (p :: q :: ps))
             with (p ++ String sep (join sep (q :: ps))) in IH1.
           rewrite IH1. reflexivity.
      * constructor; [|exact Hps]. cbn [Str.count].
        rewrite (proj2 (Ascii.eqb_neq a sep) Hne), Hp. reflexivity.
Qed.

(** The constructor goes on to connect exactly for the addresses with three
    dots and one colon; the host and port it then uses are the parts before
    and after the colon, so together they hold the three dots (the check
    does not ask that the dots be in the host).  With no address, or an
    empty one, it returns a device without connection and with the default
    attribute values. *)
Theorem init_connects_iff_well_formed (a : string) :
  ((exists ip port, __init__ (Some a) = Connecting ip port)
   <-> well_formed_address a) /\
  (forall ip port,
     __init__ (Some a) = Connecting ip port ->
     a = ip ++ String ":" port /\
     Str.count ":" ip = 0 /\ Str.count ":" port = 0 /\
     Str.count "." ip + Str.count "." port = 3) /\
  __init__ None = Disabled (initial None false) /\
  __init__ (Some "") = Disabled (initial None false).
Proof.
  assert (Conn : forall ip port, __init__ (Some a) = Connecting ip port ->
            a <> "" /\ Str.split ":" a = [ip; port]).
  { intros ip port. unfold __init__.
    destruct (String.eqb_spec a "") as [->|Hne]; [discriminate|].
    destruct (negb _ && _); [discriminate|].
    destruct (Str.split ":" a) as [|p [|q [|x l]]]; try discriminate.
    intros [= -> ->]. split; [exact Hne|reflexivity]. }
  split; [|split; [|split; reflexivity]].
  - split.
    + intros (ip & port & E). destruct (Conn ip port E) as [Hne _].
      pose proof (init_outcome_by_counts a Hne) as H. rewrite E in H. exact H.
    + intros [Hd Hc].
      assert (Hne : a <> "") by (intros ->; discriminate Hd).
      pose proof (init_outcome_by_counts a Hne) as H.
      destruct (__init__ (Some a)) as [s|e|ip port].
      * tauto.
      * tauto.
      * exists ip, port. reflexivity.
  - intros ip port E. destruct (Conn ip port E) as [Hne Hs].
    pose proof (init_outcome_by_counts a Hne) as H. rewrite E in H.
    destruct H as [Hd _].
    destruct (split_join ":" a) as (J & F & _). rewrite Hs in J, F.
    cbn [join] in J. inversion F as [|p ps Hip Frest]; subst p ps.
    inversion Frest as [|p ps Hport _]; subst p ps.
    split; [symmetry; exact J|]. split; [exact Hip|]. split; [exact Hport|].
    rewrite <- J in Hd. rewrite count_app in Hd. cbn [Str.count] in Hd.
    cbn in Hd. lia.
Qed.

End AddressMore.

(** ** Decoding, then encoding *)

Section CodecMore.

(** A buffer decodes exactly when it is 8 bytes long; encoding the decoded
    fields gives the buffer back, so two different packets never decode to
    the same fields, and the decoded fields are in the ranges of the
    format. *)
Theorem unpack_then_pack (data : list byte) :
  ((exists fields, Struct.unpack data = Some fields)
   <-> List.length data = 8%nat) /\
  (forall b1 b2 b3 b4 ts,
     Struct.unpack data = Some (b1, b2, b3, b4, ts) ->
     Struct.pack b1 b2 b3 b4 ts = Some data /\
     0 <= b1 <= 255 /\ 0 <= b2 <= 255 /\ 0 <= b3 <= 255 /\ 0 <= b4 <= 255 /\
     0 <= ts <= 2 ^ 32 - 1) /\
  (forall data' fields,
     Struct.unpack data = Some fields -> Struct.unpack data' = Some fields ->
     data' = data).
Proof.
  split; [|split].
  - split.
    + intros (fields & H). unfold Struct.unpack in H.
      destruct data as [|c1 [|c2 [|c3 [|c4 [|t0 [|t1 [|t2 [|t3 [|? ?]]]]]]]]];
        try discriminate. reflexivity.
    + intros H.
      destruct data as [|c1 [|c2 [|c3 [|c4 [|t0 [|t1 [|t2 [|t3 [|? ?]]]]]]]]];
        try discriminate. eexists. reflexivity.
  - intros b1 b2 b3 b4 ts H. split; [apply pack_unpack; exact H|].
    apply (unpack_range data b1 b2 b3 b4 ts H).
  - intros data' [[[[b1 b2] b3] b4] ts] H H'.
    apply pack_unpack in H, H'. congruence.
Qed.

End CodecMore.


(** ** The cartridge *)

Section Memview.

Import MBC.

Lemma index_some (n i i' : Z) :
  index n i = Some i' ->
  0 <= i' < n /\ (i' = i \/ (i < 0 /\ i' = i + n)).
Proof.
  unfold index. destruct (Z.ltb_spec i 0).
  - destruct (Z.leb_spec 0 (i + n)); destruct (Z.ltb_spec (i + n) n);
      cbn [andb]; intros [= <-]; lia.
  - destruct (Z.leb_spec 0 i); destruct (Z.ltb_spec i n);
      cbn [andb]; intros [= <-]; lia.
Qed.

Lemma index_in_range (n i : Z) : 0 <= i < n -> index n i = Some i.
Proof.
  intros H. unfold index.
  destruct (Z.ltb_spec i 0); [lia|].
  destruct (Z.leb_spec 0 i); [|lia].
  destruct (Z.ltb_spec i n); [reflexivity|lia].
Qed.

(** A store is read back, and no other cell changes. *)
Lemma mv_set_get (m m' : memview) (i j v : Z) :
  mv_set m i j v = Ok m' ->
  mv_get m' i j = Ok v /\ 0 <= v <= 255 /\
  rows m' = rows m /\ cols m' = cols m /\
  exists i' j',
    index (rows m) i = Some i' /\ index (cols m) j = Some j' /\
    forall a b, cell m' a b = if (a =? i') && (b =? j') then v else cell m a b.
Proof.
  unfold mv_set, mv_get.
  destruct (index (rows m) i) as [i'|] eqn:Ei; [|discriminate].
  destruct (index (cols m) j) as [j'|] eqn:Ej; [|discriminate].
  destruct (Z.leb_spec 0 v); destruct (Z.leb_spec v 255); cbn [andb];
    try discriminate.
  intros [= <-]. cbn [rows cols cell]. rewrite Ei, Ej, !Z.eqb_refl.
  repeat split; try lia. exists i', j'. repeat split.
Qed.

Lemma mv_set_bytes (m m' : memview) (i j v : Z) :
  mv_set m i j v = Ok m' -> mv_bytes m -> mv_bytes m'.
Proof.
  intros H Hm. destruct (mv_set_get m m' i j v H)
    as (_ & Hv & _ & _ & i' & j' & _ & _ & Hcell).
  intros a b. rewrite Hcell. destruct (_ && _); [lia|apply Hm].
Qed.

End Memview.

Section CartridgeAccess.

Import MBC.

(** A byte written to cartridge RAM through [ROMOnly.setitem] is what
    [getitem] returns at that address once RAM is enabled (and the bank is
    not mapped to the real-time clock), and the other RAM addresses read as
    before.  The write raises nothing when the selected bank is one of the
    16 and the value is a byte. *)
Theorem ram_write_then_read (s : t) (address value : Z) :
  0xA000 <= address < 0xC000 ->
  rows (rambanks s) = 16 -> cols (rambanks s) = 8 * 1024 ->
  0 <= rambank_selected s < 16 -> 0 <= value <= 255 ->
  exists s',
    setitem s address value = Ok s' /\
    rambank_enabled s' = rambank_enabled s /\
    rambank_selected s' = rambank_selected s /\
    rombank_selected s' = rombank_selected s /\
    (rambank_enabled s <> 0 ->
     (rtc_enabled s = false \/ ~ 0x08 <= rambank_selected s <= 0x0C) ->
     getitem s' address = Ok (Value value) /\
     forall other, 0xA000 <= other < 0xC000 -> other <> address ->
                   getitem s' other = getitem s other).
Proof.
  intros Ha Hr Hc Hb Hv. unfold setitem.
  destruct (Z.leb_spec 0x2000 address); destruct (Z.ltb_spec address 0x4000);
    cbn [andb]; try lia.
  destruct (Z.leb_spec 0xA000 address); destruct (Z.ltb_spec address 0xC000);
    cbn [andb]; try lia.
  destruct (mv_set (rambanks s) (rambank_selected s) (address - 0xA000) value)
    as [m|e] eqn:E.
  2:{ exfalso. unfold mv_set in E.
      rewrite Hr, Hc, !index_in_range in E by lia.
      destruct (Z.leb_spec 0 value); destruct (Z.leb_spec value 255);
        cbn [andb] in E; try lia. discriminate. }
  eexists. split; [reflexivity|].
  split; [reflexivity|]. split; [reflexivity|]. split; [reflexivity|].
  intros Hen Hrtc.
  { destruct (mv_set_get _ _ _ _ _ E)
      as (G & _ & Hr' & Hc' & i' & j' & Hi & Hj & Hcell).
    rewrite Hr, index_in_range in Hi by lia. injection Hi as <-.
    rewrite Hc, index_in_range in Hj by lia. injection Hj as <-.
    assert (Hsel : forall a, 0xA000 <= a < 0xC000 ->
              getitem (set_rambanks m s) a
              = match mv_get m (rambank_selected s) (a - 0xA000) with
                | Raise e => Raise e
                | Ok v => Ok (Value v)
                end /\
              getitem s a
              = match mv_get (rambanks s) (rambank_selected s) (a - 0xA000) with
                | Raise e => Raise e
                | Ok v => Ok (Value v)
                end).
    { intros a Hain. unfold getitem.
      cbn [rambank_enabled rtc_enabled rambank_selected rambanks set_rambanks].
      destruct (Z.leb_spec 0xA000 a); destruct (Z.ltb_spec a 0xC000);
        cbn [andb]; try lia.
      destruct (Z.eqb_spec (rambank_enabled s) 0); [contradiction|].
      assert (Hm : rtc_enabled s
                   && ((0x08 <=? rambank_selected s)
                       && (rambank_selected s <=? 0x0C)) = false).
      { destruct Hrtc as [-> | Hn]; [reflexivity|].
        destruct (rtc_enabled s); [|reflexivity]. cbn [andb].
        destruct (Z.leb_spec 0x08 (rambank_selected s));
          destruct (Z.leb_spec (rambank_selected s) 0x0C); cbn [andb];
          try reflexivity. exfalso. apply Hn. lia. }
      rewrite Hm. split; reflexivity. }
    split.
    + rewrite (proj1 (Hsel address Ha)), G. reflexivity.
    + intros other Ho Hne. destruct (Hsel other Ho) as [-> ->].
      unfold mv_get. rewrite Hr', Hc', Hr, Hc, !index_in_range by lia.
      rewrite Hcell. destruct (Z.eqb_spec (other - 0xA000) (address - 0xA000));
        [lia|]. rewrite andb_false_r. reflexivity. }
Qed.

Lemma ram_write_then_read_witness :
  let s := set_banking 1 0 1 0 blank_cartridge in
  exists s',
    setitem s 0xA010 0x5A = Ok s' /\
    rambank_enabled s' = rambank_enabled s /\
    rambank_selected s' = rambank_selected s /\
    rombank_selected s' = rombank_selected s /\
    (rambank_enabled s <> 0 ->
     (rtc_enabled s = false \/ ~ 0x08 <= rambank_selected s <= 0x0C) ->
     getitem s' 0xA010 = Ok (Value 0x5A) /\
     forall other, 0xA000 <= other < 0xC000 -> other <> 0xA010 ->
                   getitem s' other = getitem s other).
Proof.
  apply (ram_write_then_read (set_banking 1 0 1 0 blank_cartridge)
           0xA010 0x5A);
    try reflexivity; cbn; lia.
Defined.

Lemma setitem_keeps_enable (s s' : t) (address value : Z) :
  setitem s address value = Ok s' ->
  rambank_enabled s' = rambank_enabled s /\
  rambank_selected s' = rambank_selected s /\
  rtc_enabled s' = rtc_enabled s.
Proof.
  unfold setitem. destruct (_ && _); [intros [= <-]; repeat split|].
  destruct (_ && _); [|intros [= <-]; repeat split].
  destruct (mv_set _ _ _ _); [intros [= <-]; repeat split|discriminate].
Qed.

Lemma run_writes_keeps_enable (writes : list (Z * Z)) (s : t) :
  rambank_enabled (run_writes writes s) = rambank_enabled s.
Proof.
  revert s. induction writes as [|[a v] writes IH]; intros s; [reflexivity|].
  cbn [run_writes]. destruct (setitem s a v) as [s'|e] eqn:E; [|apply IH].
  rewrite IH. apply (setitem_keeps_enable s s' a v E).
Qed.

Lemma init_attributes_disabled (rom : memview) (ram_count carttype : Z)
    (battery rtc : bool) (s : t) :
  init_attributes rom ram_count carttype battery rtc = Ok s ->
  rambank_enabled s = 0.
Proof.
  unfold init_attributes.
  destruct (getgamename rom); [|discriminate].
  destruct (getgametype rom) as [g|]; [|discriminate].
  destruct (getdestinationcode g rom); [|discriminate].
  destruct (getisgenuine rom); [|discriminate].
  destruct (mv_get rom 0 323); [|discriminate].
  intros [= <-]. reflexivity.
Qed.

Lemma load_ram_keeps_enable (s : t) (input : list Z) :
  rambank_enabled (fst (fst (load_ram s input))) = rambank_enabled s.
Proof.
  unfold load_ram. destruct (negb (rambank_initialized s)); [reflexivity|].
  destruct (load_banks _ _ _ _) as [[m rest] e]. reflexivity.
Qed.

(** [ROMOnly.setitem] never enables cartridge RAM: on a cartridge as the
    constructor makes it, with or without a RAM file to load, whatever is
    written and wherever, every read of
    the RAM range [0xA000..0xBFFF] gives [0xFF], and every read
    outside it gives [None]. *)
Theorem rom_only_ram_reads_0xFF (rom : memview) (ram_count carttype : Z)
    (battery rtc : bool) (ram_file : option (list Z)) (s : t)
    (writes : list (Z * Z)) (address : Z) :
  init rom ram_count carttype battery rtc ram_file = Constructed s ->
  getitem (run_writes writes s) address =
    if (0xA000 <=? address) && (address <? 0xC000)
    then Ok (Value 0xFF) else Ok NoValue.
Proof.
  intros Hi.
  assert (He : rambank_enabled s = 0).
  { unfold init in Hi.
    destruct (init_attributes rom ram_count carttype battery rtc)
      as [s0|] eqn:E0; [|discriminate].
    apply init_attributes_disabled in E0.
    destruct ram_file as [input|].
    - pose proof (load_ram_keeps_enable s0 input) as K.
      destruct (load_ram s0 input) as [[s1 rest] [|e1|]]; cbn [fst] in K;
        try discriminate Hi.
      injection Hi as <-. congruence.
    - injection Hi as <-. exact E0. }
  unfold getitem. rewrite run_writes_keeps_enable, He. reflexivity.
Qed.

Lemma rom_only_ram_reads_0xFF_witness :
  getitem (run_writes [(0x0000, 0x0A); (0xA000, 0x42)] blank_cartridge) 0xA000
  = if (0xA000 <=? 0xA000) && (0xA000 <? 0xC000)
    then Ok (Value 0xFF) else Ok NoValue.
Proof.
  apply (rom_only_ram_reads_0xFF blank_rom 1 0 false false None
           blank_cartridge [(0x0000, 0x0A); (0xA000, 0x42)] 0xA000).
  reflexivity.
Defined.

(** A write to [0x2000..0x3FFF] selects ROM bank 0 or 1 from the lowest bit
    of the value, after 0 has been replaced by 1: bank 0 is selected
    exactly by the even values other than 0.  Nothing else changes. *)
Theorem rom_bank_select (s : t) (address value : Z) :
  0x2000 <= address < 0x4000 ->
  exists s',
    setitem s address value = Ok s' /\
    (rombank_selected s' = 0 \/ rombank_selected s' = 1) /\
    (rombank_selected s' = 0 <-> value <> 0 /\ Z.even value = true) /\
    s' = set_rombank_selected (rombank_selected s') s.
Proof.
  intros Ha. unfold setitem.
  destruct (Z.leb_spec 0x2000 address); destruct (Z.ltb_spec address 0x4000);
    cbn [andb]; try lia.
  eexists. split; [reflexivity|].
  cbn [rombank_selected set_rombank_selected].
  assert (E : forall x, Z.land x 1 = if Z.even x then 0 else 1).
  { intros x. change 1 with (Z.ones 1) at 1. rewrite Z.land_ones by lia.
    change (2 ^ 1) with 2. rewrite Zmod_even. reflexivity. }
  rewrite E. destruct (Z.eqb_spec value 0) as [->|Hne].
  - change (Z.even 1) with false. cbv iota.
    split; [right; reflexivity|].
    split; [split; [intros X; discriminate X|intros [X _]; contradiction]
           |reflexivity].
  - destruct (Z.even value) eqn:Ev.
    + split; [left; reflexivity|].
      split; [split; [intros _; split; [exact Hne|reflexivity]|reflexivity]
             |reflexivity].
    + split; [right; reflexivity|].
      split; [split; [intros X; discriminate X|intros [_ X]; discriminate X]
             |reflexivity].
Qed.

Lemma rom_bank_select_witness :
  exists s',
    setitem blank_cartridge 0x2000 2 = Ok s' /\
    (rombank_selected s' = 0 \/ rombank_selected s' = 1) /\
    (rombank_selected s' = 0 <-> 2 <> 0 /\ Z.even 2 = true) /\
    s' = set_rombank_selected (rombank_selected s') blank_cartridge.
Proof.
  apply (rom_bank_select blank_cartridge 0x2000 2). lia.
Defined.

End CartridgeAccess.

Section CartridgeHeader.

Import MBC.

Lemma read_range_length (m : memview) (bank first : Z) (n : nat) (vs : list Z) :
  read_range m bank first n = Ok vs -> List.length vs = n.
Proof.
  revert first vs. induction n as [|n IH]; intros first vs; cbn [read_range].
  - intros [= <-]. reflexivity.
  - destruct (mv_get m bank first); [|discriminate].
    destruct (read_range m bank (first + 1) n) as [ws|] eqn:E; [|discriminate].
    intros [= <-]. cbn [List.length]. rewrite (IH _ _ E). reflexivity.
Qed.

Lemma string_of_chars_length (cs : list ascii) :
  String.length (string_of_chars cs) = List.length cs.
Proof. induction cs as [|c cs IH]; cbn; congruence. Qed.

Lemma length_append (p q : string) :
  String.length (p ++ q) = (String.length p + String.length q)%nat.
Proof. induction p as [|a p IH]; cbn; congruence. Qed.

(** The first piece of a split is the part of the string before the first
    separator. *)
Lemma split_head (sep : ascii) (s : string) :
  exists rest,
    s = (hd EmptyString (Str.split sep s) ++ rest)%string /\
    (rest = EmptyString \/ exists r, rest = String sep r) /\
    Str.count sep (hd EmptyString (Str.split sep s)) = 0.
Proof.
  destruct (split_join sep s) as (J & F & N).
  destruct (Str.split sep s) as [|p [|q l]]; [contradiction| |].
  - exists EmptyString. cbn [hd]. change (join sep [p]) with p in J.
    inversion F as [|p' l' Hp _]; subst p' l'.
    split; [|split; [left; reflexivity|exact Hp]].
    rewrite J. clear. induction s as [|a s IH]; cbn; congruence.
  - exists (String sep (join sep (q :: l))). cbn [hd].
    change (join sep (p :: q :: l))
      with (p ++ String sep (join sep (q :: l)))%string in J.
    inversion F as [|p' l' Hp _]; subst p' l'.
    split; [symmetry; exact J|].
    split; [right; eexists; reflexivity|exact Hp].
Qed.

(** The game name is the text of the 14 header bytes from [0x0134] up to,
    and without, the first NUL: it has no NUL and at most 14 characters,
    and the header text is the name followed by nothing or by a NUL and the
    remainder. *)
Theorem gamename_stops_at_nul (rom : memview) (name : string) :
  getgamename rom = Ok name ->
  Str.count zero name = 0 /\
  (String.length name <= 14)%nat /\
  exists (bytes : list Z) (rest : string),
    read_range rom 0 0x0134 14 = Ok bytes /\
    string_of_chars (map chr bytes) = (name ++ rest)%string /\
    (rest = EmptyString \/ exists r, rest = String zero r).
Proof.
  unfold getgamename.
  destruct (read_range rom 0 0x0134 14) as [bytes|] eqn:E; [|discriminate].
  intros [= <-].
  destruct (split_head zero (string_of_chars (map chr bytes)))
    as (rest & H1 & H2 & H3).
  split; [exact H3|]. split.
  - pose proof (f_equal String.length H1) as L.
    rewrite string_of_chars_length, length_map, (read_range_length _ _ _ _ _ E),
      length_append in L. lia.
  - exists bytes, rest. repeat split; assumption.
Qed.

Lemma gamename_stops_at_nul_witness :
  Str.count zero "" = 0 /\
  (String.length "" <= 14)%nat /\
  exists (bytes : list Z) (rest : string),
    read_range blank_rom 0 0x0134 14 = Ok bytes /\
    string_of_chars (map chr bytes) = ("" ++ rest)%string /\
    (rest = EmptyString \/ exists r, rest = String zero r).
Proof.
  apply (gamename_stops_at_nul blank_rom ""). reflexivity.
Defined.

Lemma logo_loop_true (rom : memview) (logo : list Z) :
  forall i, logo_loop rom i logo = Ok true
            <-> read_range rom 0 i (List.length logo) = Ok logo.
Proof.
  induction logo as [|x logo IH]; intros i; cbn [logo_loop read_range List.length].
  - tauto.
  - destruct (mv_get rom 0 i) as [v|e]; [|split; discriminate].
    destruct (Z.eqb_spec v x) as [->|Hne]; cbn [negb].
    + rewrite IH. destruct (read_range rom 0 (i + 1) (List.length logo)).
      * split; intros [= ->]; reflexivity.
      * split; discriminate.
    + split; [discriminate|].
      destruct (read_range rom 0 (i + 1) (List.length logo)); [|discriminate].
      intros [= H _]. contradiction.
Qed.

Lemma logo_loop_total (rom : memview) (logo : list Z) :
  forall i, 0 < rows rom -> 0 <= i -> i + Z.of_nat (List.length logo) <= cols rom ->
            logo_loop rom i logo = Ok true \/ logo_loop rom i logo = Ok false.
Proof.
  induction logo as [|x logo IH]; intros i Hr Hi Hc; cbn [logo_loop].
  - left. reflexivity.
  - cbn [List.length] in Hc. rewrite Nat2Z.inj_succ in Hc.
    unfold mv_get. rewrite !index_in_range by lia.
    destruct (negb _); [right; reflexivity|]. apply IH; lia.
Qed.

(** [getisgenuine] answers [True] exactly when the 48 bytes of bank 0 from
    [0x0104] are the logo, and it raises nothing on a ROM that has those
    addresses. *)
Theorem isgenuine_iff_logo (rom : memview) :
  (getisgenuine rom = Ok true
   <-> read_range rom 0 0x104 48 = Ok nintendo_logo) /\
  (0 < rows rom -> 0x134 <= cols rom ->
   getisgenuine rom = Ok true \/ getisgenuine rom = Ok false).
Proof.
  split.
  - apply (logo_loop_true rom nintendo_logo 0x104).
  - intros Hr Hc. apply logo_loop_total; [exact Hr|lia|].
    change (Z.of_nat (List.length nintendo_logo)) with 48. lia.
Qed.

Lemma init_attributes_header (rom : memview) (ram_count carttype : Z)
    (battery rtc : bool) (s : t) :
  init_attributes rom ram_count carttype battery rtc = Ok s ->
  (gametype s = "cgb" \/ gametype s = "sgb" \/ gametype s = "dmg")%string /\
  (gametype s = "cgb"%string
   <-> cell rom 0 0x143 = 0x80 \/ cell rom 0 0x143 = 0xC0) /\
  (destinationcode s = None <-> gametype s = "dmg"%string) /\
  (gametype s <> "dmg"%string -> destinationcode s = Some (cell rom 0 0x14A)) /\
  (0 <= cell rom 0 0x143 <= 255 ->
   (cgb s = true <-> 0x80 <= cell rom 0 0x143)) /\
  rambank_initialized s = true /\ rambank_enabled s = 0 /\
  rombank_selected s = 1 /\ rambank_selected s = 0 /\
  rambanks s = fresh_rambanks /\ external_rom_count s = rows rom /\
  external_ram_count s = ram_count.
Proof.
  unfold init_attributes.
  destruct (getgamename rom) as [name|]; [|discriminate].
  destruct (getgametype rom) as [g|] eqn:Eg; [|discriminate].
  destruct (getdestinationcode g rom) as [d|] eqn:Ed; [|discriminate].
  destruct (getisgenuine rom); [|discriminate].
  destruct (mv_get rom 0 323) as [flag|] eqn:Ef; [|discriminate].
  intros [= <-].
  cbn [gametype destinationcode cgb rambank_initialized rambank_enabled
       rombank_selected rambank_selected rambanks external_rom_count
       external_ram_count].
  assert (Hget : forall j, 0 <= j -> forall v, mv_get rom 0 j = Ok v ->
                                               v = cell rom 0 j).
  { intros j Hj v. unfold mv_get.
    destruct (index (rows rom) 0) as [i'|] eqn:Ei; [|discriminate].
    destruct (index (cols rom) j) as [j'|] eqn:Ej; [|discriminate].
    intros [= <-]. apply index_some in Ei, Ej. f_equal; lia. }
  pose proof (Hget 323 ltac:(lia) flag Ef) as Hflag.
  unfold getgametype in Eg. change 0x143 with 323 in Eg. rewrite Ef in Eg.
  assert (Hd : forall v, mv_get rom 0 0x014A = Ok v -> v = cell rom 0 0x14A)
    by (apply Hget; lia).
  unfold getdestinationcode in Ed.
  assert (Hcgb : 0 <= flag <= 255 ->
            (negb (Z.shiftr flag 7 =? 0) = true <-> 128 <= flag)).
  { intros Hb. rewrite Z.shiftr_div_pow2 by lia. change (2 ^ 7) with 128.
    destruct (Z.eqb_spec (flag / 128) 0) as [E|N]; cbn [negb].
    - apply Z.div_small_iff in E; [|lia]. split; [discriminate|lia].
    - split; [intros _|reflexivity].
      destruct (Z.lt_ge_cases flag 128) as [Hlt|]; [|assumption].
      exfalso. apply N. apply Z.div_small. lia. }
  rewrite <- Hflag.
  destruct (Z.eqb_spec flag 0x80) as [E80|N80].
  { injection Eg as <-. cbn [String.eqb Ascii.eqb Bool.eqb] in Ed.
    destruct (mv_get rom 0 0x014A) as [v|] eqn:Ev; [|discriminate].
    injection Ed as <-. rewrite (Hd v eq_refl).
    repeat split; try tauto; try discriminate;
      try (intros; exact (proj1 (Hcgb ltac:(assumption)) ltac:(assumption)));
      try (intros; apply Hcgb; assumption). }
  destruct (Z.eqb_spec flag 0xc0) as [Ec0|Nc0].
  { injection Eg as <-. cbn [String.eqb Ascii.eqb Bool.eqb] in Ed.
    destruct (mv_get rom 0 0x014A) as [v|] eqn:Ev; [|discriminate].
    injection Ed as <-. rewrite (Hd v eq_refl).
    repeat split; try tauto; try discriminate;
      try (intros; exact (proj1 (Hcgb ltac:(assumption)) ltac:(assumption)));
      try (intros; apply Hcgb; assumption). }
  destruct (mv_get rom 0 0x146) as [c|]; [|discriminate].
  destruct (c =? 3).
  - injection Eg as <-. cbn [String.eqb Ascii.eqb Bool.eqb] in Ed.
    destruct (mv_get rom 0 0x014A) as [v|] eqn:Ev; [|discriminate].
    injection Ed as <-. rewrite (Hd v eq_refl).
    repeat split; try tauto; try discriminate;
      try (intros [X|X]; contradiction);
      try (intros; exact (proj1 (Hcgb ltac:(assumption)) ltac:(assumption)));
      try (intros; apply Hcgb; assumption).
  - injection Eg as <-. cbn [String.eqb Ascii.eqb Bool.eqb] in Ed.
    injection Ed as <-.
    repeat split; try tauto; try discriminate;
      try (intros [X|X]; contradiction);
      try (intros X; contradiction);
      try (intros; exact (proj1 (Hcgb ltac:(assumption)) ltac:(assumption)));
      try (intros; apply Hcgb; assumption).
Qed.

End CartridgeHeader.

Section CartridgeSave.

Import MBC.

Lemma save_bytes_ok (m : memview) (bank bank' : Z) :
  index (rows m) bank = Some bank' ->
  forall (n : nat) (byte : Z),
    0 <= byte -> byte + Z.of_nat n <= cols m ->
    save_bytes m bank byte n
      = (map (fun k => cell m bank' (byte + Z.of_nat k)) (seq 0 n), None).
Proof.
  intros Hb. induction n as [|n IH]; intros byte H0 H1; [reflexivity|].
  cbn [save_bytes seq map]. unfold mv_get. rewrite Hb.
  rewrite index_in_range by lia. rewrite IH by lia.
  rewrite Z.add_0_r. f_equal. f_equal.
  rewrite <- seq_shift, map_map. apply map_ext. intros k. f_equal. lia.
Qed.

Lemma save_bytes_overflow (m : memview) (bank : Z) (n : nat) (byte : Z) :
  index (rows m) bank = None -> n <> 0%nat ->
  save_bytes m bank byte n = ([], Some IndexError).
Proof.
  intros Hb Hn. destruct n as [|n]; [contradiction|].
  cbn [save_bytes]. unfold mv_get. rewrite Hb. reflexivity.
Qed.

(** Loading what was saved, one bank. *)
Lemma load_save_bytes (src : memview) (bank bank' : Z) (rest : list Z) :
  index (rows src) bank = Some bank' -> mv_bytes src ->
  forall (n : nat) (byte : Z) (dst : memview),
    index (rows dst) bank = Some bank' ->
    0 <= byte -> byte + Z.of_nat n <= cols src -> cols dst = cols src ->
    exists dst',
      load_bytes dst bank byte n (fst (save_bytes src bank byte n) ++ rest)
        = (dst', rest, Done) /\
      rows dst' = rows dst /\ cols dst' = cols dst /\
      forall a b,
        cell dst' a b =
          if (a =? bank') && ((byte <=? b) && (b <? byte + Z.of_nat n))
          then cell src bank' b else cell dst a b.
Proof.
  intros Hs Hbytes. induction n as [|n IH]; intros byte dst Hd H0 H1 Hc.
  - exists dst. cbn [save_bytes load_bytes fst app].
    repeat split. intros a b.
    destruct (Z.leb_spec byte b); destruct (Z.ltb_spec b (byte + Z.of_nat 0));
      cbn [andb]; rewrite ?andb_false_r; try reflexivity. lia.
  - rewrite (save_bytes_ok src bank bank' Hs) by assumption.
    cbn [seq map fst app load_bytes]. rewrite Z.add_0_r.
    destruct (mv_set dst bank byte (cell src bank' byte)) as [dst1|e] eqn:E.
    2:{ exfalso. unfold mv_set in E. rewrite Hd, Hc in E.
        rewrite index_in_range in E by lia.
        pose proof (Hbytes bank' byte) as Hv.
        destruct (Z.leb_spec 0 (cell src bank' byte));
          destruct (Z.leb_spec (cell src bank' byte) 255);
          cbn [andb] in E; try lia. discriminate. }
    destruct (mv_set_get _ _ _ _ _ E)
      as (_ & _ & Hr1 & Hc1 & i' & j' & Hi & Hj & Hcell).
    rewrite Hd in Hi. injection Hi as <-.
    rewrite Hc, index_in_range in Hj by lia. injection Hj as <-.
    destruct (IH (byte + 1) dst1) as (dst' & L & Hr' & Hc' & Hcell');
      try lia; try congruence.
    rewrite (save_bytes_ok src bank bank' Hs) in L by lia. cbn [fst] in L.
    replace (map (fun k => cell src bank' (byte + Z.of_nat k)) (seq 1 n))
      with (map (fun k => cell src bank' (byte + 1 + Z.of_nat k)) (seq 0 n)).
    2:{ rewrite <- seq_shift, map_map. apply map_ext. intros k. f_equal. lia. }
    exists dst'. split; [exact L|]. split; [congruence|]. split; [congruence|].
    intros a b. rewrite Hcell', Hcell.
    destruct (Z.eqb_spec a bank') as [->|]; cbn [andb]; [|reflexivity].
    destruct (Z.leb_spec (byte + 1) b);
      destruct (Z.ltb_spec b (byte + 1 + Z.of_nat n));
      destruct (Z.leb_spec byte b);
      destruct (Z.ltb_spec b (byte + Z.of_nat (S n)));
      destruct (Z.eqb_spec b byte); cbn [andb]; try lia; try reflexivity.
    subst b. reflexivity.
Qed.

Lemma save_banks_ok (m : memview) :
  Z.of_nat (8 * 1024) <= cols m ->
  forall (n : nat) (bank : Z),
    0 <= bank -> bank + Z.of_nat n <= rows m ->
    snd (save_banks m bank n) = None /\
    List.length (fst (save_banks m bank n)) = (n * (8 * 1024))%nat.
Proof.
  intros Hc. induction n as [|n IH]; intros bank H0 H1.
  - split; reflexivity.
  - cbn [save_banks].
    rewrite (save_bytes_ok m bank bank) by (try apply index_in_range; lia).
    destruct (IH (bank + 1)) as [E1 E2]; try lia.
    destruct (save_banks m (bank + 1) n) as [out' e]. cbn [fst snd] in *.
    split; [exact E1|]. rewrite length_app, length_map, length_seq, E2.
    reflexivity.
Qed.

Lemma save_banks_overflow (m : memview) :
  Z.of_nat (8 * 1024) <= cols m -> 0 <= rows m ->
  forall (n : nat) (bank : Z),
    0 <= bank <= rows m -> rows m < bank + Z.of_nat n ->
    snd (save_banks m bank n) = Some IndexError /\
    List.length (fst (save_banks m bank n))
      = (Z.to_nat (rows m - bank) * (8 * 1024))%nat.
Proof.
  intros Hc Hr. induction n as [|n IH]; intros bank H0 H1; [lia|].
  cbn [save_banks]. destruct (Z.eq_dec bank (rows m)) as [->|Hne].
  - rewrite save_bytes_overflow; [| |lia].
    + rewrite Z.sub_diag. split; reflexivity.
    + unfold index. destruct (Z.ltb_spec (rows m) 0); [lia|].
      destruct (Z.leb_spec 0 (rows m)); destruct (Z.ltb_spec (rows m) (rows m));
        cbn [andb]; try reflexivity; lia.
  - rewrite (save_bytes_ok m bank bank) by (try apply index_in_range; lia).
    destruct (IH (bank + 1)) as [E1 E2]; try lia.
    destruct (save_banks m (bank + 1) n) as [out' e]. cbn [fst snd] in *.
    split; [exact E1|]. rewrite length_app, length_map, length_seq, E2.
    replace (Z.to_nat (rows m - bank)) with (S (Z.to_nat (rows m - (bank + 1))))
      by lia.
    reflexivity.
Qed.

(** Loading what was saved, bank after bank. *)
Lemma load_save_banks (src : memview) (rest : list Z) :
  mv_bytes src -> cols src = Z.of_nat (8 * 1024) ->
  forall (n : nat) (bank : Z) (dst : memview),
    0 <= bank -> bank + Z.of_nat n <= rows src ->
    rows dst = rows src -> cols dst = cols src ->
    exists dst',
      load_banks dst bank n (fst (save_banks src bank n) ++ rest)
        = (dst', rest, Done) /\
      rows dst' = rows dst /\ cols dst' = cols dst /\
      forall a b,
        cell dst' a b =
          if ((bank <=? a) && (a <? bank + Z.of_nat n))
             && ((0 <=? b) && (b <? cols src))
          then cell src a b else cell dst a b.
Proof.
  intros Hbytes Hc. induction n as [|n IH]; intros bank dst H0 H1 Hr Hcd.
  - exists dst. cbn [save_banks load_banks fst app]. repeat split.
    intros a b. destruct (Z.leb_spec bank a);
      destruct (Z.ltb_spec a (bank + Z.of_nat 0)); cbn [andb];
      try reflexivity. lia.
  - cbn [save_banks load_banks].
    assert (Hi : index (rows src) bank = Some bank)
      by (apply index_in_range; lia).
    assert (Hi' : index (rows dst) bank = Some bank)
      by (apply index_in_range; lia).
    pose proof (save_bytes_ok src bank bank Hi (8 * 1024) 0 ltac:(lia)
                  ltac:(lia)) as Sb.
    destruct (save_banks_ok src ltac:(lia) n (bank + 1) ltac:(lia) ltac:(lia))
      as [Sn _].
    rewrite Sb. destruct (save_banks src (bank + 1) n) as [out' e] eqn:En.
    cbn [snd] in Sn. subst e. cbn [fst]. rewrite <- app_assoc.
    destruct (load_save_bytes src bank bank (out' ++ rest) Hi Hbytes
                (8 * 1024) 0 dst Hi' ltac:(lia) ltac:(lia) Hcd)
      as (dst1 & L1 & Hr1 & Hc1 & Hcell1).
    rewrite Sb in L1. cbn [fst] in L1. rewrite L1.
    destruct (IH (bank + 1) dst1) as (dst' & L & Hr' & Hc' & Hcell');
      try lia; try congruence.
    rewrite En in L. cbn [fst] in L.
    exists dst'. split; [exact L|]. split; [congruence|]. split; [congruence|].
    intros a b. rewrite Hcell', Hcell1, Hc, Z.add_0_l.
    destruct (Z.leb_spec (bank + 1) a);
      destruct (Z.ltb_spec a (bank + 1 + Z.of_nat n));
      destruct (Z.leb_spec bank a);
      destruct (Z.ltb_spec a (bank + Z.of_nat (S n)));
      destruct (Z.eqb_spec a bank);
      destruct (Z.leb_spec 0 b); destruct (Z.ltb_spec b (Z.of_nat (8 * 1024)));
      cbn [andb]; try lia; try reflexivity.
    subst a. reflexivity.
Qed.

End CartridgeSave.

Section CartridgeSaveLoad.

Import MBC.

(** [save_ram] writes the banks [0 .. external_ram_count - 1] in order,
    8192 values each, and nothing when the count is not positive.  The
    view has 16 banks: with a larger count the call writes the 16 banks and
    then raises [IndexError]. *)
Theorem save_ram_writes_banks (s : t) :
  rambank_initialized s = true ->
  rows (rambanks s) = 16 -> cols (rambanks s) = 8 * 1024 ->
  (0 <= external_ram_count s <= 16 ->
   snd (save_ram s) = None /\
   Z.of_nat (List.length (fst (save_ram s))) = external_ram_count s * 8192) /\
  (16 < external_ram_count s ->
   snd (save_ram s) = Some IndexError /\
   Z.of_nat (List.length (fst (save_ram s))) = 16 * 8192) /\
  (external_ram_count s <= 0 -> save_ram s = ([], None)).
Proof.
  intros Hi Hr Hc. unfold save_ram. rewrite Hi. cbn [negb].
  split; [|split].
  - intros Hn.
    destruct (save_banks_ok (rambanks s) ltac:(lia)
                (Z.to_nat (external_ram_count s)) 0 ltac:(lia) ltac:(lia))
      as [E1 E2].
    split; [exact E1|]. rewrite E2. lia.
  - intros Hn.
    destruct (save_banks_overflow (rambanks s) ltac:(lia) ltac:(lia)
                (Z.to_nat (external_ram_count s)) 0 ltac:(lia) ltac:(lia))
      as [E1 E2].
    split; [exact E1|]. rewrite E2, Hr. lia.
  - intros Hn. replace (Z.to_nat (external_ram_count s)) with 0%nat by lia.
    reflexivity.
Qed.

Lemma save_ram_writes_banks_witness :
  let s := blank_cartridge in
  (0 <= external_ram_count s <= 16 ->
   snd (save_ram s) = None /\
   Z.of_nat (List.length (fst (save_ram s))) = external_ram_count s * 8192) /\
  (16 < external_ram_count s ->
   snd (save_ram s) = Some IndexError /\
   Z.of_nat (List.length (fst (save_ram s))) = 16 * 8192) /\
  (external_ram_count s <= 0 -> save_ram s = ([], None)).
Proof.
  apply (save_ram_writes_banks blank_cartridge); reflexivity.
Defined.

Lemma load_ram_of_saved (s s0 : t) (rest : list Z) :
  rambank_initialized s = true -> rambank_initialized s0 = true ->
  rows (rambanks s) = 16 -> cols (rambanks s) = 8 * 1024 ->
  rows (rambanks s0) = 16 -> cols (rambanks s0) = 8 * 1024 ->
  mv_bytes (rambanks s) ->
  external_ram_count s0 = external_ram_count s ->
  external_ram_count s <= 16 ->
  exists m,
    load_ram s0 (fst (save_ram s) ++ rest) = (set_rambanks m s0, rest, Done) /\
    same_banks (external_ram_count s) (rambanks s) m /\
    (forall bank byte, external_ram_count s <= bank ->
                       cell m bank byte = cell (rambanks s0) bank byte).
Proof.
  intros Hi Hi0 Hr Hc Hr0 Hc0 Hb Hn Hmax.
  unfold load_ram, save_ram. rewrite Hi, Hi0, Hn. cbn [negb].
  destruct (load_save_banks (rambanks s) rest Hb ltac:(lia)
              (Z.to_nat (external_ram_count s)) 0 (rambanks s0)
              ltac:(lia) ltac:(lia) ltac:(lia) ltac:(lia))
    as (m & L & _ & _ & Hcell).
  rewrite L. exists m. split; [reflexivity|]. split.
  - intros bank byte Hbank Hbyte. rewrite Hcell, Hc.
    destruct (Z.leb_spec 0 bank);
      destruct (Z.ltb_spec bank (0 + Z.of_nat (Z.to_nat (external_ram_count s))));
      destruct (Z.leb_spec 0 byte); destruct (Z.ltb_spec byte (8 * 1024));
      cbn [andb]; try lia; reflexivity.
  - intros bank byte Hbank. rewrite Hcell.
    destruct (Z.leb_spec 0 bank);
      destruct (Z.ltb_spec bank (0 + Z.of_nat (Z.to_nat (external_ram_count s))));
      cbn [andb]; try lia; reflexivity.
Qed.

(** [load_ram] fed with what [save_ram] wrote, followed by anything,
    restores the saved banks byte for byte, leaves the banks beyond the
    count and every other attribute as they were, and stops reading exactly
    where the saved RAM ends. *)
Theorem ram_save_load_round_trip (s s0 : t) (rest : list Z) :
  rambank_initialized s = true -> rambank_initialized s0 = true ->
  rows (rambanks s) = 16 -> cols (rambanks s) = 8 * 1024 ->
  rows (rambanks s0) = 16 -> cols (rambanks s0) = 8 * 1024 ->
  mv_bytes (rambanks s) ->
  external_ram_count s0 = external_ram_count s ->
  external_ram_count s <= 16 ->
  exists m,
    load_ram s0 (fst (save_ram s) ++ rest) = (set_rambanks m s0, rest, Done) /\
    same_banks (external_ram_count s) (rambanks s) m /\
    (forall bank byte, external_ram_count s <= bank ->
                       cell m bank byte = cell (rambanks s0) bank byte).
Proof.
  intros Hi Hi0 Hr Hc Hr0 Hc0 Hb Hn Hmax.
  apply load_ram_of_saved; assumption.
Qed.

Lemma ram_save_load_round_trip_witness :
  exists m,
    load_ram blank_cartridge (fst (save_ram blank_cartridge) ++ [7; 9])
      = (set_rambanks m blank_cartridge, [7; 9], Done) /\
    same_banks (external_ram_count blank_cartridge)
      (rambanks blank_cartridge) m /\
    (forall bank byte, external_ram_count blank_cartridge <= bank ->
                       cell m bank byte
                       = cell (rambanks blank_cartridge) bank byte).
Proof.
  apply (ram_save_load_round_trip blank_cartridge blank_cartridge [7; 9]);
    try reflexivity.
  - intros a b. cbn. lia.
  - cbn. lia.
Defined.

(** [load_state] fed with what [save_state] wrote restores the selected ROM
    and RAM banks, the RAM enable flag and the memory model, and then the
    RAM as [load_ram] does: the four values are read in the order they were
    written, and reading stops where the saved state ends. *)
Theorem state_save_load_round_trip (s s0 : t) (rest : list Z) :
  rambank_initialized s = true -> rambank_initialized s0 = true ->
  rows (rambanks s) = 16 -> cols (rambanks s) = 8 * 1024 ->
  rows (rambanks s0) = 16 -> cols (rambanks s0) = 8 * 1024 ->
  mv_bytes (rambanks s) ->
  external_ram_count s0 = external_ram_count s ->
  external_ram_count s <= 16 ->
  exists s1,
    load_state s0 (fst (save_state s) ++ rest) = (s1, rest, Done) /\
    rombank_selected s1 = rombank_selected s /\
    rambank_selected s1 = rambank_selected s /\
    rambank_enabled s1 = rambank_enabled s /\
    memorymodel s1 = memorymodel s /\
    same_banks (external_ram_count s) (rambanks s) (rambanks s1).
Proof.
  intros Hi Hi0 Hr Hc Hr0 Hc0 Hb Hn Hmax.
  unfold save_state. destruct (save_ram s) as [ram e] eqn:Es.
  cbn [fst app load_state].
  set (s0' := set_banking _ _ _ _ s0).
  destruct (load_ram_of_saved s s0' rest) as (m & L & Hsame & _);
    try assumption.
  rewrite Es in L. cbn [fst] in L. rewrite L.
  eexists. split; [reflexivity|]. repeat split. exact Hsame.
Qed.

Lemma state_save_load_round_trip_witness :
  let s := set_banking 0 0 1 0 blank_cartridge in
  exists s1,
    load_state blank_cartridge (fst (save_state s) ++ [5])
      = (s1, [5], Done) /\
    rombank_selected s1 = rombank_selected s /\
    rambank_selected s1 = rambank_selected s /\
    rambank_enabled s1 = rambank_enabled s /\
    memorymodel s1 = memorymodel s /\
    same_banks (external_ram_count s) (rambanks s) (rambanks s1).
Proof.
  apply (state_save_load_round_trip (set_banking 0 0 1 0 blank_cartridge)
           blank_cartridge [5]); try reflexivity.
  - intros a b. cbn. lia.
  - cbn. lia.
Defined.

(** [overrideitem] patches one byte of ROM: for an address below [0x4000],
    a bank of the ROM and a byte value, that cell holds the value
    afterwards and every other cell is as before; for any other address
    nothing changes and nothing is raised.  It never touches the RAM or the
    bank registers. *)
Theorem overrideitem_patches_one_byte (s : t) (rom_bank address value : Z) :
  0 <= rom_bank < rows (rombanks s) -> 0x4000 <= cols (rombanks s) ->
  0 <= value <= 255 ->
  (0 <= address < 0x4000 ->
   exists m,
     overrideitem s rom_bank address value = Ok (set_rombanks m s) /\
     rows m = rows (rombanks s) /\ cols m = cols (rombanks s) /\
     forall a b, cell m a b =
                 if (a =? rom_bank) && (b =? address) then value
                 else cell (rombanks s) a b) /\
  (~ 0 <= address < 0x4000 -> overrideitem s rom_bank address value = Ok s).
Proof.
  intros Hb Hc Hv. unfold overrideitem. split.
  - intros Ha.
    destruct (Z.leb_spec 0 address); destruct (Z.ltb_spec address 0x4000);
      cbn [andb]; try lia.
    unfold mv_get. rewrite !index_in_range by lia.
    destruct (mv_set (rombanks s) rom_bank address value) as [m|e] eqn:E.
    + destruct (mv_set_get _ _ _ _ _ E)
        as (_ & _ & Hr' & Hc' & i' & j' & Hi & Hj & Hcell).
      rewrite index_in_range in Hi, Hj by lia.
      injection Hi as <-. injection Hj as <-.
      exists m. repeat split; assumption.
    + exfalso. unfold mv_set in E. rewrite !index_in_range in E by lia.
      destruct (Z.leb_spec 0 value); destruct (Z.leb_spec value 255);
        cbn [andb] in E; try lia. discriminate.
  - intros Ha.
    destruct (Z.leb_spec 0 address); destruct (Z.ltb_spec address 0x4000);
      cbn [andb]; try lia; reflexivity.
Qed.

Lemma overrideitem_patches_one_byte_witness :
  (0 <= 0x0143 < 0x4000 ->
   exists m,
     overrideitem blank_cartridge 0 0x0143 0x80 = Ok (set_rombanks m blank_cartridge) /\
     rows m = rows (rombanks blank_cartridge) /\
     cols m = cols (rombanks blank_cartridge) /\
     forall a b, cell m a b =
                 if (a =? 0) && (b =? 0x0143) then 0x80
                 else cell (rombanks blank_cartridge) a b) /\
  (~ 0 <= 0x0143 < 0x4000 ->
   overrideitem blank_cartridge 0 0x0143 0x80 = Ok blank_cartridge).
Proof.
  apply (overrideitem_patches_one_byte blank_cartridge 0 0x0143 0x80);
    cbn; lia.
Defined.

End CartridgeSaveLoad.

(** ** The constructor and the RAM file *)

Section CartridgeConstructor.

Import MBC.

Lemma nth_skipn_add {A} (n k : nat) (l : list A) (d : A) :
  nth k (skipn n l) d = nth (n + k) l d.
Proof.
  revert l. induction n as [|n IH]; intros l; [reflexivity|].
  destruct l as [|x l]; [destruct k; reflexivity|]. apply IH.
Qed.

(** Loading one bank from a file that has enough bytes. *)
Lemma load_bytes_input (bank bank' : Z) :
  forall (n : nat) (input : list Z) (byte : Z) (dst : memview),
    index (rows dst) bank = Some bank' ->
    0 <= byte -> byte + Z.of_nat n <= cols dst ->
    (n <= List.length input)%nat ->
    (forall k, 0 <= nth k input 0 <= 255) ->
    exists dst',
      load_bytes dst bank byte n input = (dst', skipn n input, Done) /\
      rows dst' = rows dst /\ cols dst' = cols dst /\
      forall a b,
        cell dst' a b =
          if (a =? bank') && ((byte <=? b) && (b <? byte + Z.of_nat n))
          then nth (Z.to_nat (b - byte)) input 0 else cell dst a b.
Proof.
  induction n as [|n IH]; intros input byte dst Hd H0 H1 Hlen Hbytes.
  - exists dst. cbn [load_bytes skipn]. repeat split. intros a b.
    destruct (Z.leb_spec byte b); destruct (Z.ltb_spec b (byte + Z.of_nat 0));
      cbn [andb]; rewrite ?andb_false_r; try reflexivity. lia.
  - destruct input as [|v input]; [cbn [List.length] in Hlen; lia|].
    cbn [load_bytes skipn]. cbn [List.length] in Hlen.
    pose proof (Hbytes 0%nat) as Hv. cbn [nth] in Hv.
    destruct (mv_set dst bank byte v) as [dst1|e] eqn:E.
    2:{ exfalso. unfold mv_set in E. rewrite Hd in E.
        rewrite index_in_range in E by lia.
        destruct (Z.leb_spec 0 v); destruct (Z.leb_spec v 255);
          cbn [andb] in E; try lia. discriminate. }
    destruct (mv_set_get _ _ _ _ _ E)
      as (_ & _ & Hr1 & Hc1 & i' & j' & Hi & Hj & Hcell).
    rewrite Hd in Hi. injection Hi as <-.
    rewrite index_in_range in Hj by lia. injection Hj as <-.
    destruct (IH input (byte + 1) dst1) as (dst' & L & Hr' & Hc' & Hcell');
      try lia; try congruence.
    { intros k. exact (Hbytes (S k)). }
    exists dst'. split; [exact L|]. split; [congruence|]. split; [congruence|].
    intros a b. rewrite Hcell', Hcell.
    destruct (Z.eqb_spec a bank') as [->|]; cbn [andb]; [|reflexivity].
    destruct (Z.leb_spec (byte + 1) b);
      destruct (Z.ltb_spec b (byte + 1 + Z.of_nat n));
      destruct (Z.leb_spec byte b);
      destruct (Z.ltb_spec b (byte + Z.of_nat (S n)));
      destruct (Z.eqb_spec b byte); cbn [andb]; try lia; try reflexivity.
    + replace (Z.to_nat (b - byte)) with (S (Z.to_nat (b - (byte + 1)))) by lia.
      reflexivity.
    + subst b. rewrite Z.sub_diag. reflexivity.
Qed.

(** Loading bank after bank from a file that has enough bytes. *)
Lemma load_banks_input :
  forall (n : nat) (input : list Z) (bank : Z) (dst : memview),
    0 <= bank -> bank + Z.of_nat n <= rows dst ->
    cols dst = Z.of_nat (8 * 1024) ->
    (n * (8 * 1024) <= List.length input)%nat ->
    (forall k, 0 <= nth k input 0 <= 255) ->
    exists dst',
      load_banks dst bank n input
        = (dst', skipn (n * (8 * 1024)) input, Done) /\
      rows dst' = rows dst /\ cols dst' = cols dst /\
      forall a b,
        cell dst' a b =
          if ((bank <=? a) && (a <? bank + Z.of_nat n))
             && ((0 <=? b) && (b <? 8192))
          then nth (Z.to_nat ((a - bank) * 8192 + b)) input 0
          else cell dst a b.
Proof.
  induction n as [|n IH]; intros input bank dst H0 H1 Hc Hlen Hbytes.
  - exists dst. cbn [load_banks Nat.mul skipn]. repeat split.
    intros a b. destruct (Z.leb_spec bank a);
      destruct (Z.ltb_spec a (bank + Z.of_nat 0)); cbn [andb];
      try reflexivity. lia.
  - cbn [load_banks].
    assert (Hi : index (rows dst) bank = Some bank)
      by (apply index_in_range; lia).
    destruct (load_bytes_input bank bank (8 * 1024) input 0 dst Hi
                ltac:(lia) ltac:(lia) ltac:(lia) Hbytes)
      as (dst1 & L1 & Hr1 & Hc1 & Hcell1).
    rewrite L1.
    destruct (IH (skipn (8 * 1024) input) (bank + 1) dst1)
      as (dst' & L & Hr' & Hc' & Hcell'); try lia; try congruence.
    { rewrite length_skipn. lia. }
    { intros k. rewrite nth_skipn_add. apply Hbytes. }
    rewrite skipn_skipn in L.
    replace (n * (8 * 1024) + 8 * 1024)%nat with (S n * (8 * 1024))%nat in L
      by lia.
    exists dst'. split; [exact L|]. split; [congruence|]. split; [congruence|].
    intros a b. rewrite Hcell', Hcell1, nth_skipn_add, Z.add_0_l, Z.sub_0_r.
    change (Z.of_nat (8 * 1024)) with 8192.
    destruct (Z.leb_spec (bank + 1) a);
      destruct (Z.ltb_spec a (bank + 1 + Z.of_nat n));
      destruct (Z.leb_spec bank a);
      destruct (Z.ltb_spec a (bank + Z.of_nat (S n)));
      destruct (Z.eqb_spec a bank);
      destruct (Z.leb_spec 0 b); destruct (Z.ltb_spec b 8192);
      cbn [andb]; try lia; try reflexivity.
    + f_equal. lia.
    + subst a. rewrite Z.sub_diag. reflexivity.
Qed.

(** A load keeps the shape of the view, however it ends. *)
Lemma load_bytes_shape :
  forall (n : nat) (m : memview) (bank byte : Z) (input : list Z),
    rows (fst (fst (load_bytes m bank byte n input))) = rows m /\
    cols (fst (fst (load_bytes m bank byte n input))) = cols m.
Proof.
  induction n as [|n IH]; intros m bank byte input; cbn [load_bytes];
    [split; reflexivity|].
  destruct input as [|v input]; [split; reflexivity|].
  destruct (mv_set m bank byte v) as [m1|e] eqn:E; [|split; reflexivity].
  destruct (mv_set_get _ _ _ _ _ E) as (_ & _ & Hr & Hc & _).
  destruct (IH m1 bank (byte + 1) input) as [R C]. split; congruence.
Qed.

Lemma load_banks_shape :
  forall (n : nat) (m : memview) (bank : Z) (input : list Z),
    rows (fst (fst (load_banks m bank n input))) = rows m /\
    cols (fst (fst (load_banks m bank n input))) = cols m.
Proof.
  induction n as [|n IH]; intros m bank input; cbn [load_banks];
    [split; reflexivity|].
  pose proof (load_bytes_shape (8 * 1024) m bank 0 input) as [R C].
  destruct (load_bytes m bank 0 (8 * 1024) input) as [[m1 rest] e].
  cbn [fst] in R, C. destruct e; cbn [fst]; try (split; assumption).
  destruct (IH m1 (bank + 1) rest) as [R' C']. split; congruence.
Qed.

Lemma read_range_in_range (m : memview) (bank : Z) :
  0 <= bank < rows m ->
  forall (n : nat) (first : Z),
    0 <= first -> first + Z.of_nat n <= cols m ->
    exists vs, read_range m bank first n = Ok vs.
Proof.
  intros Hb. induction n as [|n IH]; intros first H0 H1; cbn [read_range].
  - eexists. reflexivity.
  - unfold mv_get. rewrite !index_in_range by lia.
    destruct (IH (first + 1)) as [vs E]; try lia. rewrite E.
    eexists. reflexivity.
Qed.

(** On a ROM that has the header addresses, lines 19-47 raise nothing. *)
Lemma init_attributes_total (rom : memview) (ram_count carttype : Z)
    (battery rtc : bool) :
  0 < rows rom -> 0x150 <= cols rom ->
  exists s, init_attributes rom ram_count carttype battery rtc = Ok s.
Proof.
  intros Hr Hc. unfold init_attributes, getgamename.
  destruct (read_range_in_range rom 0 ltac:(lia) 14 0x0134) as [vs E];
    [lia|lia|]. rewrite E.
  assert (G : forall j, 0 <= j < 0x150 -> mv_get rom 0 j = Ok (cell rom 0 j)).
  { intros j Hj. unfold mv_get. rewrite !index_in_range by lia. reflexivity. }
  unfold getgametype, getdestinationcode, getisgenuine.
  rewrite !(G 0x143) by lia. rewrite (G 0x146) by lia.
  assert (T : exists g, (if cell rom 0 0x143 =? 0x80 then Ok "cgb"%string
                         else if cell rom 0 0x143 =? 0xc0 then Ok "cgb"%string
                         else if cell rom 0 0x146 =? 0x03 then Ok "sgb"%string
                         else Ok "dmg"%string) = @Ok string g).
  { destruct (_ =? 0x80); [eexists; reflexivity|].
    destruct (_ =? 0xc0); [eexists; reflexivity|].
    destruct (_ =? 0x03); eexists; reflexivity. }
  destruct T as [g ->]. rewrite (G 0x014A) by lia.
  destruct (logo_loop_total rom nintendo_logo 0x104 Hr ltac:(lia)) as [L|L].
  { change (Z.of_nat (List.length nintendo_logo)) with 48. lia. }
  - rewrite L. destruct (String.eqb g "dmg"); eexists; reflexivity.
  - rewrite L. destruct (String.eqb g "dmg"); eexists; reflexivity.
Qed.

(** What the constructor makes.  From the header: the game type is one of
    ["cgb"], ["sgb"], ["dmg"], and is ["cgb"] exactly when the byte at
    [0x0143] is [0x80] or [0xC0]; the destination code is [None] exactly
    for ["dmg"], and otherwise the byte at [0x014A]; the [cgb] attribute is
    true for every byte at [0x0143] with bit 7 set.  The object has RAM
    disabled, ROM bank 1 and RAM bank 0 selected, [rambank_initialized] set
    and a RAM view of 16 banks of 8 KiB.  Without a RAM file the banks are
    zero.  With a RAM file of bytes that holds at least [external_ram_count]
    banks (at most 16), the banks below the count hold the file's bytes in
    order, bank after bank, and the banks from the count on are zero.  On a
    ROM that has the header addresses, and with no RAM file or such a one,
    the constructor raises nothing and returns the object. *)
Theorem init_header (rom : memview) (ram_count carttype : Z)
    (battery rtc : bool) (ram_file : option (list Z)) :
  (forall s : t,
     init rom ram_count carttype battery rtc ram_file = Constructed s ->
     (gametype s = "cgb" \/ gametype s = "sgb" \/ gametype s = "dmg")%string /\
     (gametype s = "cgb"%string
      <-> cell rom 0 0x143 = 0x80 \/ cell rom 0 0x143 = 0xC0) /\
     (destinationcode s = None <-> gametype s = "dmg"%string) /\
     (gametype s <> "dmg"%string ->
      destinationcode s = Some (cell rom 0 0x14A)) /\
     (0 <= cell rom 0 0x143 <= 255 ->
      (cgb s = true <-> 0x80 <= cell rom 0 0x143)) /\
     rambank_initialized s = true /\ rambank_enabled s = 0 /\
     rombank_selected s = 1 /\ rambank_selected s = 0 /\
     external_rom_count s = rows rom /\
     rows (rambanks s) = 16 /\ cols (rambanks s) = 8 * 1024 /\
     (ram_file = None -> rambanks s = fresh_rambanks) /\
     (forall input,
        ram_file = Some input ->
        ram_count <= 16 ->
        ram_count * 8192 <= Z.of_nat (List.length input) ->
        (forall k, 0 <= nth k input 0 <= 255) ->
        forall bank byte,
          0 <= bank < 16 -> 0 <= byte < 8 * 1024 ->
          cell (rambanks s) bank byte =
            if bank <? ram_count
            then nth (Z.to_nat (bank * 8192 + byte)) input 0 else 0)) /\
  (0 < rows rom -> 0x150 <= cols rom ->
   ram_file = None \/
   (exists input,
      ram_file = Some input /\ ram_count <= 16 /\
      ram_count * 8192 <= Z.of_nat (List.length input) /\
      (forall k, 0 <= nth k input 0 <= 255)) ->
   exists s, init rom ram_count carttype battery rtc ram_file = Constructed s).
Proof.
  split.
  - intros s. unfold init.
    destruct (init_attributes rom ram_count carttype battery rtc)
      as [s0|] eqn:E0; [|discriminate].
    apply init_attributes_header in E0.
    destruct E0 as (G1 & G2 & G3 & G4 & G5 & Hinit & Hen & Hrom & Hram & Hbanks
                    & Hcount & Hrc).
    destruct ram_file as [file|].
    + unfold load_ram. rewrite Hinit, Hbanks, Hrc. cbn [negb].
      pose proof (load_banks_shape (Z.to_nat ram_count) fresh_rambanks 0 file)
        as [Sr Sc].
      destruct (load_banks fresh_rambanks 0 (Z.to_nat ram_count) file)
        as [[m rest] e1] eqn:L.
      cbn [fst] in Sr, Sc. destruct e1 as [|e1|]; try discriminate.
      intros [= <-].
      cbn [gametype destinationcode cgb rambank_initialized rambank_enabled
           rombank_selected rambank_selected rambanks external_rom_count
           set_rambanks].
      split; [exact G1|]. split; [exact G2|]. split; [exact G3|].
      split; [exact G4|]. split; [exact G5|]. split; [exact Hinit|].
      split; [exact Hen|]. split; [exact Hrom|]. split; [exact Hram|].
      split; [exact Hcount|]. split; [exact Sr|]. split; [exact Sc|].
      split; [intros X; discriminate X|].
      intros input [= <-] Hmax Hlen Hbytes.
      destruct (load_banks_input (Z.to_nat ram_count) file 0 fresh_rambanks)
        as (m' & L' & _ & _ & Hcell); try assumption; try (cbn; lia).
      rewrite L in L'. injection L' as <- _.
      intros bank byte Hb Hy. rewrite Hcell.
      destruct (Z.leb_spec 0 bank);
        destruct (Z.ltb_spec bank (0 + Z.of_nat (Z.to_nat ram_count)));
        destruct (Z.leb_spec 0 byte); destruct (Z.ltb_spec byte 8192);
        destruct (Z.ltb_spec bank ram_count);
        cbn [andb]; try lia; try reflexivity.
      rewrite Z.sub_0_r. reflexivity.
    + intros [= <-].
      split; [exact G1|]. split; [exact G2|]. split; [exact G3|].
      split; [exact G4|]. split; [exact G5|]. split; [exact Hinit|].
      split; [exact Hen|]. split; [exact Hrom|]. split; [exact Hram|].
      split; [exact Hcount|]. rewrite Hbanks.
      split; [reflexivity|]. split; [reflexivity|].
      split; [intros _; reflexivity|].
      intros input X. discriminate X.
  - intros Hr Hc Hfile. unfold init.
    destruct (init_attributes_total rom ram_count carttype battery rtc Hr Hc)
      as [s0 E0].
    rewrite E0. apply init_attributes_header in E0.
    destruct E0 as (_ & _ & _ & _ & _ & Hinit & _ & _ & _ & Hbanks & _ & Hrc).
    destruct Hfile as [->|(input & -> & Hmax & Hlen & Hbytes)].
    + eexists. reflexivity.
    + unfold load_ram. rewrite Hinit, Hbanks, Hrc. cbn [negb].
      destruct (load_banks_input (Z.to_nat ram_count) input 0 fresh_rambanks)
        as (m' & L' & _); try assumption; try (cbn; lia).
      rewrite L'. eexists. reflexivity.
Qed.

Lemma init_header_witness :
  let s := blank_cartridge in
  (gametype s = "cgb" \/ gametype s = "sgb" \/ gametype s = "dmg")%string /\
  (gametype s = "cgb"%string
   <-> cell blank_rom 0 0x143 = 0x80 \/ cell blank_rom 0 0x143 = 0xC0) /\
  (destinationcode s = None <-> gametype s = "dmg"%string) /\
  (gametype s <> "dmg"%string ->
   destinationcode s = Some (cell blank_rom 0 0x14A)) /\
  (0 <= cell blank_rom 0 0x143 <= 255 ->
   (cgb s = true <-> 0x80 <= cell blank_rom 0 0x143)) /\
  rambank_initialized s = true /\ rambank_enabled s = 0 /\
  rombank_selected s = 1 /\ rambank_selected s = 0 /\
  external_rom_count s = rows blank_rom /\
  rows (rambanks s) = 16 /\ cols (rambanks s) = 8 * 1024 /\
  ((@None (list Z)) = None -> rambanks s = fresh_rambanks) /\
  (forall input,
     (@None (list Z)) = Some input ->
     1 <= 16 ->
     1 * 8192 <= Z.of_nat (List.length input) ->
     (forall k, 0 <= nth k input 0 <= 255) ->
     forall bank byte,
       0 <= bank < 16 -> 0 <= byte < 8 * 1024 ->
       cell (rambanks s) bank byte =
         if bank <? 1
         then nth (Z.to_nat (bank * 8192 + byte)) input 0 else 0).
Proof.
  apply (proj1 (init_header blank_rom 1 0 false false None) blank_cartridge).
  reflexivity.
Defined.

End CartridgeConstructor.

Section ApiWrapper.

Import ApiCartridge.

(** The API wrapper tests [self.rambank_initialized], an attribute that its
    constructor never assigns (it belongs to [mb.cartridge]): on every
    instance the constructor makes, [save_ram] and [load_ram] raise
    [AttributeError] and never reach the cartridge. *)
Theorem api_save_load_ram_raise (cartridge : MBC.t) (input : list Z) :
  getattr "rambank_initialized" (init cartridge) = None /\
  save_ram (init cartridge) = MBC.Raise MBC.AttributeError /\
  load_ram (init cartridge) input = MBC.Raise MBC.AttributeError /\
  getattr "game_name" (init cartridge) = Some (VStr (MBC.gamename cartridge)) /\
  getattr "mb" (init cartridge) = Some (VMotherboard cartridge).
Proof. repeat split. Qed.

End ApiWrapper.
